(** * reddit-analyzer: crawler and aggregation pipeline

    A shallow embedding of [reddit_crawler.py], [data_analyzer.py],
    [topic_analyzer.py] and [sentiment_analyzer.py].

    Conventions of the embedding.
    - Python integers are [Z]; counts that the source only ever uses as
      non-negative sizes ([top_n]) are [nat].
    - Epoch timestamps ([created_utc]) are whole seconds in [Z].  A naive
      [datetime] is the number of seconds elapsed on the local wall clock
      since 1970-01-01 00:00:00, so [datetime.fromtimestamp] adds the UTC
      offset local time has at that instant and comparison of datetimes is
      comparison in [Z].
      [datetime] holds the years 1 to 9999 only: outside them
      [fromtimestamp] raises, with the exception CPython raises on a
      platform whose [time_t] has 64 bits and whose [struct tm] keeps the
      year in 32.
    - The interpreter's recursion limit binds in the recursive comment walk
      only: [free_frames] is the number of frames the interpreter can
      still stack on the frame in which [_fetch_comments] starts the walk.
      Frames are counted as CPython 3.12 and later count them: a call of a
      Python function takes one, so every level of replies takes one and
      so does a call of [_is_in_date_range]; calls of built-in functions
      take none.  Outside the walk the crawler runs at a fixed depth,
      where its calls and those into libraries are taken to have the room
      they need.
    - The string produced by [strftime('%Y-%m-%d %H:%M:%S')] is kept as the
      naive datetime it renders.
    - A Python float is the rational it stands for.  What pandas computes
      in floating point over a whole column ([Series.mean],
      [sort_values]) is a parameter of the embedding; a column of
      integers is [int64], the type pandas gives it when its entries fit
      in 64 bits.
    - A dict read with [d[k]] has an [option] field for [k]: [None] is the
      missing key and raises [KeyError]; a dict read with [d.get(k, dflt)]
      has an [option] field too and falls back to [dflt].
    - The network is a deterministic function of the requests made so far
      and the current request. *)

From Stdlib Require Import List ZArith String Ascii Bool Lia QArith.
From Stdlib Require Import Sorted Permutation.
Import ListNotations.

Local Open Scope string_scope.
Local Open Scope list_scope.
Local Open Scope Z_scope.

Set Implicit Arguments.

(* ================================================================== *)
(** ** Exceptions *)
(* ================================================================== *)

Inductive Exn :=
| KeyError (key : string)
| OverflowError    (** timestamp out of range for platform [time_t] *)
| OSError          (** the platform's [localtime] fails *)
| ValueError       (** year out of range *)
| RecursionError   (** maximum recursion depth exceeded *).

(** How a block of statements ends. *)
Inductive Completion := Normal | Raise (e : Exn).

(** What a call gives: a value, or the exception it raises. *)
Inductive Result (A : Type) := Ok (a : A) | Err (e : Exn).

Arguments Ok {A} a.
Arguments Err {A} e.

Definition is_ok {A} (r : Result A) : bool :=
  match r with Ok _ => true | Err _ => false end.

(* ================================================================== *)
(** ** Calendar dates and naive datetimes *)
(* ================================================================== *)

Module Datetime.

(** A date as written in the configuration, [dd/mm/yyyy]. *)
Record date := Date { day : Z; month : Z; year : Z }.

(** Days between 1970-01-01 and the given civil date (proleptic
    Gregorian calendar). *)
Definition days_from_civil (d : date) : Z :=
  let y := if month d <=? 2 then year d - 1 else year d in
  let era := y / 400 in
  let yoe := y - era * 400 in
  let mp := (month d + 9) mod 12 in
  let doy := (153 * mp + 2) / 5 + day d - 1 in
  let doe := yoe * 365 + yoe / 4 - yoe / 100 + doy in
  era * 146097 + doe - 719468.

Definition seconds_per_day : Z := 86400.

(** [datetime.strptime(s, '%d/%m/%Y')]: the date at 00:00:00. *)
Definition strptime_dmy (d : date) : Z :=
  seconds_per_day * days_from_civil d.

(** The wall clock at the instant [ts]; [utc_offset] gives, for an
    instant, the seconds local time is ahead of Greenwich at that
    instant. *)
Definition local (utc_offset : Z -> Z) (ts : Z) : Z := ts + utc_offset ts.

(** The first and the last second of the span of years from [first] to
    [last]. *)
Definition in_span (first last : Z) (dt : Z) : bool :=
  (strptime_dmy (Date 1 1 first) <=? dt)
  && (dt <=? strptime_dmy (Date 31 12 last) + seconds_per_day - 1).

(** The years a [datetime] holds. *)
Definition in_years : Z -> bool := in_span 1 9999.

(** The years the platform's [struct tm] holds: [tm_year], the year less
    1900, is a 32-bit [int]. *)
Definition in_tm : Z -> bool := in_span (1900 - 2 ^ 31) (1900 + 2 ^ 31 - 1).

(** The timestamps the platform's 64-bit [time_t] holds. *)
Definition in_time_t (ts : Z) : bool := (- 2 ^ 63 <=? ts) && (ts <? 2 ^ 63).

(** One reading of the local clock by [fromtimestamp]: the timestamp is
    turned into a [time_t], [localtime] fills a [struct tm], and the year
    found there is checked. *)
Definition read_clock (utc_offset : Z -> Z) (ts : Z) : Result Z :=
  if negb (in_time_t ts) then Err OverflowError
  else
    let dt := local utc_offset ts in
    if negb (in_tm dt) then Err OSError
    else if negb (in_years dt) then Err ValueError
    else Ok dt.

(** [datetime.fromtimestamp(ts)].  Having read the clock at [ts], it
    tells repeated times apart: it reads the clock one day before [ts]
    and, if the clock was set back in between, once more at the instant
    that came that much before [ts].  Every reading can raise. *)
Definition fromtimestamp (utc_offset : Z -> Z) (ts : Z) : Result Z :=
  match read_clock utc_offset ts with
  | Err e => Err e
  | Ok dt =>
      match read_clock utc_offset (ts - seconds_per_day) with
      | Err e => Err e
      | Ok probe =>
          let transition := dt - probe - seconds_per_day in
          if transition <? 0 then
            match read_clock utc_offset (ts + transition) with
            | Err e => Err e
            | Ok _ => Ok dt
            end
          else Ok dt
      end
  end.

(** A naive datetime built from a date and a time of day. *)
Definition at_time (d : date) (h m s : Z) : Z :=
  strptime_dmy d + 3600 * h + 60 * m + s.

(** [.date()] of a naive datetime, as a day number. *)
Definition date_of (dt : Z) : Z := dt / seconds_per_day.

(** The naive datetime [dt] falls on the calendar day [d]. *)
Definition on_day (d : date) (dt : Z) : Prop :=
  strptime_dmy d <= dt < strptime_dmy d + seconds_per_day.

End Datetime.

(* ================================================================== *)
(** ** Strings *)
(* ================================================================== *)

Module Str.

Definition is_upper (c : ascii) : bool :=
  let n := nat_of_ascii c in (65 <=? n)%nat && (n <=? 90)%nat.

Definition lower_char (c : ascii) : ascii :=
  if is_upper c then ascii_of_nat (nat_of_ascii c + 32) else c.

(** [str.lower()] on ASCII text. *)
Fixpoint lower (s : string) : string :=
  match s with
  | EmptyString => EmptyString
  | String c r => String (lower_char c) (lower r)
  end.

(** Truthiness of a Python string. *)
Definition truthy (s : string) : bool :=
  match s with EmptyString => false | _ => true end.

(** Truthiness of [d.get(k)] when the value, if present, is a string. *)
Definition truthy_opt (o : option string) : bool :=
  match o with Some s => truthy s | None => false end.

End Str.

(* ================================================================== *)
(** ** Records of the run collection *)
(* ================================================================== *)

(** [post_info] of [_search_subreddit]. *)
Record PostInfo := {
  post_id_ : string;
  title : string;
  selftext : string;
  post_author : string;
  post_subreddit : string;
  post_created_utc : Z;
  post_created_date : Z;
  post_score : Z;
  upvote_ratio : Q;
  num_comments : Z;
  url : string;
  post_permalink : string
}.

(** [comment_info] of [_extract_comments_recursive]. *)
Record CommentInfo := {
  comment_id : string;
  parent_post_id : string;
  body : string;
  comment_author : string;
  comment_subreddit : string;
  comment_created_utc : Z;
  comment_created_date : Z;
  comment_score : Z;
  comment_permalink : string
}.

(* ================================================================== *)
(** ** JSON payloads of the upstream endpoint *)
(* ================================================================== *)

(** The ['data'] dict of one child of a search listing. *)
Record Submission := {
  s_id : option string;
  s_title : option string;
  s_selftext : option string;
  s_author : option string;
  s_subreddit : option string;
  s_created_utc : option Z;
  s_score : option Z;
  s_upvote_ratio : option Q;
  s_num_comments : option Z;
  s_url : option string;
  s_permalink : option string
}.

(** One child of a comment listing: its ['kind'] and the fields of its
    ['data'] dict.  [c_replies] is [Some children] when ['replies'] is a
    dict holding ['data'] (with [children] defaulting to the empty list),
    and [None] when it is absent, falsy (the endpoint sends an empty
    string for a leaf) or of any other shape. *)
#[warnings="-register-all"]
Inductive CommentNode :=
  MkNode (c_kind : string)
         (c_id : option string)
         (c_body : option string)
         (c_author : option string)
         (c_created_utc : option Z)
         (c_score : option Z)
         (c_permalink : option string)
         (c_replies : option (list CommentNode)).

(** [data['data']] of a search response. *)
Record Listing := {
  children : option (list Submission);
  after : option string
}.

Inductive Json :=
| JSearch (data : option Listing)
    (** a dict; [None] when it has no ['data'] key (an empty dict
        included) *)
| JThread (elems : list (option (list CommentNode)))
    (** an array; an element is [Some children] when
        [elem['data']['children']] exists *).

(** What [requests.get] followed by [raise_for_status] can do. *)
Inductive HttpOutcome :=
| ConnectionError
| Response (status : Z) (body : Json).

Record Params := {
  q : string;
  sort : string;
  limit_param : Z;
  restrict_sr : string;
  after_param : option string
}.

Record Request := { req_url : string; req_params : option Params }.

Inductive Event :=
| EvGet (r : Request)
| EvSleep (seconds : Z).

(* ================================================================== *)
(** ** reddit_crawler.py *)
(* ================================================================== *)

Record Config := {
  brand : string;
  product : string;
  start_date : Datetime.date;
  end_date : Datetime.date;
  subreddits : list string;
  limit : Z;
  utc_offset : Z -> Z;
  free_frames : nat
}.

(** The mutable part of a [RedditCrawler], with the effects it has had on
    the outside world ([trace], oldest first). *)
Record Crawler := {
  posts_data : list PostInfo;
  comments_data : list CommentInfo;
  trace : list Event
}.

Definition new_crawler : Crawler :=
  {| posts_data := []; comments_data := []; trace := [] |}.

Definition request_delay : Z := 2.

Definition requests_of (t : list Event) : list Request :=
  flat_map (fun e => match e with EvGet r => [r] | EvSleep _ => [] end) t.

Definition sleeps_of (t : list Event) : list Z :=
  flat_map (fun e => match e with EvSleep n => [n] | EvGet _ => [] end) t.

Definition log (ev : list Event) (c : Crawler) : Crawler :=
  {| posts_data := posts_data c;
     comments_data := comments_data c;
     trace := trace c ++ ev |}.

Definition append_post (p : PostInfo) (c : Crawler) : Crawler :=
  {| posts_data := posts_data c ++ [p];
     comments_data := comments_data c;
     trace := trace c |}.

Definition set_comments (cs : list CommentInfo) (c : Crawler) : Crawler :=
  {| posts_data := posts_data c;
     comments_data := cs;
     trace := trace c |}.

(** [raise_for_status] raises on 4xx and 5xx. *)
Definition raise_for_status (status : Z) : bool :=
  (400 <=? status) && (status <? 600).

Section Crawl.

Variable cfg : Config.

(** The upstream endpoint: the answer to a request, given the requests
    already made. *)
Variable server : list Request -> Request -> HttpOutcome.

Definition start_datetime : Z := Datetime.strptime_dmy (start_date cfg).
Definition end_datetime : Z := Datetime.strptime_dmy (end_date cfg).

Definition _is_in_date_range (timestamp : Z) : Result bool :=
  match Datetime.fromtimestamp (utc_offset cfg) timestamp with
  | Err e => Err e
  | Ok post_date =>
      Ok ((start_datetime <=? post_date) && (post_date <=? end_datetime))
  end.

(** [_make_request]: the sleep sits inside the [try], after
    [raise_for_status]; the handler returns [None]. *)
Definition _make_request (r : Request) (c : Crawler)
  : option Json * Crawler :=
  match server (requests_of (trace c)) r with
  | ConnectionError => (None, log [EvGet r] c)
  | Response status body =>
      if raise_for_status status
      then (None, log [EvGet r] c)
      else (Some body, log [EvGet r; EvSleep request_delay] c)
  end.

(** The dict built for a comment that has a body; [created_date] is what
    [datetime.fromtimestamp(comment['created_utc'])] returned. *)
Definition comment_info (post_id subreddit id b : string)
    (author : option string) (created created_date : Z) (score : option Z)
    (permalink : option string) : CommentInfo :=
  {| comment_id := id;
     parent_post_id := post_id;
     body := b;
     comment_author := match author with Some a => a | None => "[deleted]" end;
     comment_subreddit := subreddit;
     comment_created_utc := created;
     comment_created_date := created_date;
     comment_score := match score with Some n => n | None => 0 end;
     comment_permalink :=
       "https://reddit.com" ++ match permalink with Some l => l | None => "" end |}.

(** The first half of the loop body of [_extract_comments_recursive]:
    the comment itself.  [comment['id']] and [comment['created_utc']]
    are read only once the body has been found truthy, and the dict is
    built, its date included, before the window test is called.  [free]
    is the number of frames the walk can still stack on its own: the call
    of [_is_in_date_range] takes one. *)
Definition collect_comment (free : nat) (post_id subreddit : string)
    (id body : option string) (author : option string)
    (created : option Z) (score : option Z) (permalink : option string)
    (acc : list CommentInfo) : Completion * list CommentInfo :=
  match body with
  | Some b =>
      if Str.truthy b then
        match id with
        | None => (Raise (KeyError "id"), acc)
        | Some i =>
            match created with
            | None => (Raise (KeyError "created_utc"), acc)
            | Some t =>
                match Datetime.fromtimestamp (utc_offset cfg) t with
                | Err e => (Raise e, acc)
                | Ok created_date =>
                    match free with
                    | O => (Raise RecursionError, acc)
                    | S _ =>
                        match _is_in_date_range t with
                        | Err e => (Raise e, acc)
                        | Ok true =>
                            (Normal,
                             acc ++ [comment_info post_id subreddit i b
                                                  author t created_date
                                                  score permalink])
                        | Ok false => (Normal, acc)
                        end
                    end
                end
            end
        end
      else (Normal, acc)
  | None => (Normal, acc)
  end.

(** One iteration of the [for] loop of [_extract_comments_recursive],
    the recursive call on the replies included.  [acc] is
    [self.comments_data]; [free] is the number of frames the walk can
    still stack on the frame it runs in, and the recursive call takes one:
    with none left it raises [RecursionError]. *)
Fixpoint extract_comment (free : nat) (post_id subreddit : string)
    (n : CommentNode) (acc : list CommentInfo) {struct n}
  : Completion * list CommentInfo :=
  match n with
  | MkNode kind id body author created score permalink replies =>
      if negb (kind =? "t1")%string then (Normal, acc)
      else
        match collect_comment free post_id subreddit id body author created
                              score permalink acc with
        | (Raise e, acc1) => (Raise e, acc1)
        | (Normal, acc1) =>
            match replies with
            | None => (Normal, acc1)
            | Some children =>
                match free with
                | O => (Raise RecursionError, acc1)
                | S free' =>
                    (fix each (l : list CommentNode) (a : list CommentInfo)
                       : Completion * list CommentInfo :=
                       match l with
                       | [] => (Normal, a)
                       | c :: rest =>
                           match extract_comment free' post_id subreddit c a
                           with
                           | (Normal, a') => each rest a'
                           | (Raise e, a') => (Raise e, a')
                           end
                       end) children acc1
                end
            end
        end
  end.

(** The body of [_extract_comments_recursive], run in a frame on which
    [free] more frames can be stacked. *)
Fixpoint _extract_comments_recursive (free : nat)
    (comments_list : list CommentNode)
    (post_id subreddit : string) (acc : list CommentInfo)
  : Completion * list CommentInfo :=
  match comments_list with
  | [] => (Normal, acc)
  | c :: rest =>
      match extract_comment free post_id subreddit c acc with
      | (Normal, acc') =>
          _extract_comments_recursive free rest post_id subreddit acc'
      | (Raise e, acc') => (Raise e, acc')
      end
  end.

Definition comments_request (permalink : string) : Request :=
  {| req_url := "https://www.reddit.com" ++ permalink ++ ".json";
     req_params := None |}.

(** [_fetch_comments]: everything runs inside [try ... except
    Exception], so an exception of the walk or of
    [data[1]['data']['children']] ends the call and keeps the comments
    appended so far. *)
Definition _fetch_comments (permalink post_id subreddit : string)
    (c : Crawler) : Crawler :=
  let (data, c1) := _make_request (comments_request permalink) c in
  match data with
  | Some (JThread (_ :: Some comments_listing :: _)) =>
      let (_, cs) :=
        _extract_comments_recursive (free_frames cfg) comments_listing
                                    post_id subreddit (comments_data c1) in
      set_comments cs c1
  | _ => c1
  end.

Definition dflt {A} (d : A) (o : option A) : A :=
  match o with Some a => a | None => d end.

(** The dict built for a submission; [created_date] is what
    [datetime.fromtimestamp(post['created_utc'])] returned. *)
Definition post_info (post : Submission) (id : string)
    (created created_date : Z) : PostInfo :=
  {| post_id_ := id;
     title := dflt "" (s_title post);
     selftext := dflt "" (s_selftext post);
     post_author := dflt "[deleted]" (s_author post);
     post_subreddit := dflt "" (s_subreddit post);
     post_created_utc := created;
     post_created_date := created_date;
     post_score := dflt 0 (s_score post);
     upvote_ratio := dflt 0%Q (s_upvote_ratio post);
     num_comments := dflt 0 (s_num_comments post);
     url := dflt "" (s_url post);
     post_permalink := "https://reddit.com" ++ dflt "" (s_permalink post) |}.

(** The inner [for post_data in posts] loop of [_search_subreddit]. *)
Fixpoint for_posts (posts : list Submission) (collected_count : Z)
    (c : Crawler) : Completion * Z * Crawler :=
  match posts with
  | [] => (Normal, collected_count, c)
  | post :: rest =>
      if collected_count >=? limit cfg then (Normal, collected_count, c)
      else
        match s_created_utc post with
        | None => (Raise (KeyError "created_utc"), collected_count, c)
        | Some created =>
            match _is_in_date_range created with
            | Err e => (Raise e, collected_count, c)
            | Ok false => for_posts rest collected_count c
            | Ok true =>
                match s_id post with
                | None => (Raise (KeyError "id"), collected_count, c)
                | Some id =>
                    match Datetime.fromtimestamp (utc_offset cfg) created with
                    | Err e => (Raise e, collected_count, c)
                    | Ok created_date =>
                        let c1 :=
                          append_post
                            (post_info post id created created_date) c in
                        let n1 := collected_count + 1 in
                        match s_num_comments post with
                        | None => (Raise (KeyError "num_comments"), n1, c1)
                        | Some nc =>
                            if nc >? 0 then
                              match s_permalink post with
                              | None =>
                                  (Raise (KeyError "permalink"), n1, c1)
                              | Some permalink =>
                                  for_posts rest n1
                                    (_fetch_comments permalink id
                                       (dflt "" (s_subreddit post)) c1)
                              end
                            else for_posts rest n1 c1
                        end
                    end
                end
            end
        end
  end.

Definition is_all (subreddit_name : string) : bool :=
  (Str.lower subreddit_name =? "all")%string.

Definition base_url (subreddit_name : string) : string :=
  if is_all subreddit_name
  then "https://www.reddit.com/search.json"
  else "https://www.reddit.com/r/" ++ subreddit_name ++ "/search.json".

Definition search_request (subreddit_name query : string)
    (cursor : option string) : Request :=
  {| req_url := base_url subreddit_name;
     req_params :=
       Some {| q := query;
               sort := "new";
               limit_param := 100;
               restrict_sr := if is_all subreddit_name then "off" else "on";
               after_param := cursor |} |}.

(** Why the [while] loop of [_search_subreddit] was left; the last three
    are its [break] statements, each with its own message. *)
Inductive StopReason :=
| LimitReached   (** [collected_count < self.limit] is false *)
| FetchFailed    (** [not data or 'data' not in data] *)
| NoMorePosts    (** [not posts] *)
| LastPage       (** [not after] *).

Inductive SearchOutcome :=
| Finished (why : StopReason)
| Aborted (e : Exn)
| OutOfFuel.

(** The [while] loop; [fuel] bounds the number of pages. *)
Fixpoint paginate (fuel : nat) (subreddit_name query : string)
    (collected_count : Z) (cursor : option string) (c : Crawler)
  : SearchOutcome * Z * Crawler :=
  match fuel with
  | O => (OutOfFuel, collected_count, c)
  | S fuel' =>
      if collected_count <? limit cfg then
        let (data, c1) :=
          _make_request (search_request subreddit_name query cursor) c in
        match data with
        | Some (JSearch (Some listing)) =>
            match dflt [] (children listing) with
            | [] => (Finished NoMorePosts, collected_count, c1)
            | posts =>
                match for_posts posts collected_count c1 with
                | (Raise e, n, c2) => (Aborted e, n, c2)
                | (Normal, n, c2) =>
                    if Str.truthy_opt (after listing)
                    then paginate fuel' subreddit_name query n
                                  (after listing) c2
                    else (Finished LastPage, n, c2)
                end
            end
        | _ => (Finished FetchFailed, collected_count, c1)
        end
      else (Finished LimitReached, collected_count, c)
  end.

Definition _search_subreddit (fuel : nat) (subreddit_name query : string)
    (c : Crawler) : SearchOutcome * Crawler :=
  let '(out, _, c') := paginate fuel subreddit_name query 0 None c in
  (out, c').

Definition search_query : string := brand cfg ++ " " ++ product cfg.

(** The [for subreddit_name in self.subreddits] loop of [search_posts]:
    [except Exception: continue].  [None] when some search did not
    finish within [fuel] pages. *)
Fixpoint for_subreddits (fuel : nat) (names : list string) (c : Crawler)
  : option Crawler :=
  match names with
  | [] => Some c
  | subreddit_name :: rest =>
      match _search_subreddit fuel subreddit_name search_query c with
      | (OutOfFuel, _) => None
      | (Finished _, c') => for_subreddits fuel rest c'
      | (Aborted _, c') => for_subreddits fuel rest c'
      end
  end.

Definition search_posts (fuel : nat) (c : Crawler) : option Crawler :=
  for_subreddits fuel (subreddits cfg) c.

End Crawl.

(* ================================================================== *)
(** ** Comment trees: accessors, well-formedness, expected output *)
(* ================================================================== *)

Definition kind_of (n : CommentNode) : string :=
  match n with MkNode k _ _ _ _ _ _ _ => k end.


Definition is_some {A} (o : option A) : bool :=
  match o with Some _ => true | None => false end.

(** The window test returns [True] on the timestamp. *)
Definition in_window (cfg : Config) (timestamp : Z) : bool :=
  match _is_in_date_range cfg timestamp with
  | Ok b => b
  | Err _ => false
  end.

(** The window test returns [False] on the timestamp. *)
Definition outside_window (cfg : Config) (timestamp : Z) : bool :=
  match _is_in_date_range cfg timestamp with
  | Ok b => negb b
  | Err _ => false
  end.

(** The dict of a comment can be built: if the comment has a non-empty
    body it also has ['id'] and a ['created_utc'] that [datetime] can
    hold. *)
Definition readable_comment (cfg : Config) (id b : option string)
    (created : option Z) : bool :=
  if Str.truthy_opt b
  then is_some id
       && match created with
          | Some t => is_ok (Datetime.fromtimestamp (utc_offset cfg) t)
          | None => false
          end
  else true.

(** No read of the walk raises: the dict of
    every comment node can be built. *)
Fixpoint well_formed (cfg : Config) (n : CommentNode) : bool :=
  match n with
  | MkNode k id b _ created _ _ r =>
      if negb (k =? "t1")%string then true
      else
        readable_comment cfg id b created
        && match r with
           | None => true
           | Some l => forallb (well_formed cfg) l
           end
  end.

(** Induction on comment trees. *)
Section CommentNodeInduction.

Variable P : CommentNode -> Prop.

Hypothesis P_leaf : forall k id b a t s p, P (MkNode k id b a t s p None).

Hypothesis P_node : forall k id b a t s p l,
    Forall P l -> P (MkNode k id b a t s p (Some l)).

Fixpoint CommentNode_tree_ind (n : CommentNode) : P n :=
  match n with
  | MkNode k id b a t s p None => P_leaf k id b a t s p
  | MkNode k id b a t s p (Some l) =>
      P_node k id b a t s p
        ((fix all (l : list CommentNode) : Forall P l :=
            match l with
            | [] => Forall_nil P
            | x :: r => Forall_cons x (CommentNode_tree_ind x) (all r)
            end) l)
  end.

End CommentNodeInduction.

Section Walk.

Variable cfg : Config.
Variables post_id subreddit : string.

(** The record of a comment made at [t], a timestamp [datetime] can
    hold. *)
Definition comment_record (i b : string) (a : option string) (t : Z)
    (s : option Z) (p : option string) : CommentInfo :=
  comment_info post_id subreddit i b a t
               (Datetime.local (utc_offset cfg) t) s p.

(** What a node contributes by itself. *)
Definition own_comment (n : CommentNode) : list CommentInfo :=
  match n with
  | MkNode _ (Some i) (Some b) a (Some t) s p _ =>
      if Str.truthy b && in_window cfg t
      then [comment_record i b a t s p]
      else []
  | _ => []
  end.

(** Pre-order listing of a comment tree: a node, then its replies, then
    its later siblings; subtrees below a node that is not of kind [t1]
    are left out. *)
Fixpoint preorder_node (n : CommentNode) : list CommentInfo :=
  if negb (kind_of n =? "t1")%string then []
  else own_comment n
       ++ match n with
          | MkNode _ _ _ _ _ _ _ (Some l) => flat_map preorder_node l
          | MkNode _ _ _ _ _ _ _ None => []
          end.

Definition preorder (l : list CommentNode) : list CommentInfo :=
  flat_map preorder_node l.

Definition comment_in_window (c : CommentInfo) : Prop :=
  _is_in_date_range cfg (comment_created_utc c) = Ok true.

End Walk.

(** The payload of one comment of a thread. *)
Record Reply := {
  r_id : string;
  r_body : string;
  r_author : option string;
  r_created_utc : Z;
  r_score : option Z;
  r_permalink : option string
}.

(** A thread in which every comment has exactly one reply, the last one
    none: the comment of [r :: rest] carries the chain of [rest] as its
    only child.  The listing of a chain of [n] replies has depth [n]. *)
Fixpoint chain (replies : list Reply) : list CommentNode :=
  match replies with
  | [] => []
  | r :: rest =>
      [MkNode "t1" (Some (r_id r)) (Some (r_body r)) (r_author r)
              (Some (r_created_utc r)) (r_score r) (r_permalink r)
              (match rest with [] => None | _ :: _ => Some (chain rest) end)]
  end.

(** Depth of a listing: 0 for the empty listing, else one more than the
    deepest reply listing below it. *)
Fixpoint depth_node (n : CommentNode) : nat :=
  match n with
  | MkNode _ _ _ _ _ _ _ None => 1
  | MkNode _ _ _ _ _ _ _ (Some l) =>
      S (fold_right (fun c d => Nat.max (depth_node c) d) 0%nat l)
  end.

Definition depth (l : list CommentNode) : nat :=
  fold_right (fun c d => Nat.max (depth_node c) d) 0%nat l.

(** The record the walk builds for a reply. *)
Definition reply_info (cfg : Config) (post_id subreddit : string) (r : Reply)
  : CommentInfo :=
  comment_record cfg post_id subreddit (r_id r) (r_body r) (r_author r)
                 (r_created_utc r) (r_score r) (r_permalink r).

Definition reply_kept (cfg : Config) (r : Reply) : bool :=
  Str.truthy (r_body r) && in_window cfg (r_created_utc r).



(* ================================================================== *)
(** ** Python containers used by the analyzers *)
(* ================================================================== *)

Section Containers.

Variable A : Type.

(** Stable insertion sort.  [first x y] says that [x], met before [y] in
    the input, stays before it. *)
Variable first : A -> A -> bool.

Fixpoint insert_sorted (x : A) (l : list A) : list A :=
  match l with
  | [] => [x]
  | y :: r => if first x y then x :: y :: r else y :: insert_sorted x r
  end.

Definition stable_sort (l : list A) : list A :=
  fold_right insert_sorted [] l.

End Containers.

Section Counting.

Variable K : Type.
Variable eqb : K -> K -> bool.

(** [counter[k] += 1]; a new key goes last, as in a dict. *)
Fixpoint increment (k : K) (counter : list (K * nat)) : list (K * nat) :=
  match counter with
  | [] => [(k, 1%nat)]
  | (k', n) :: r =>
      if eqb k' k then (k', S n) :: r else (k', n) :: increment k r
  end.

(** [collections.Counter(l)], keys in order of first occurrence. *)
Definition Counter (l : list K) : list (K * nat) :=
  fold_left (fun counter k => increment k counter) l [].

(** [sorted(items, key=count, reverse=True)]: larger counts first, equal
    counts in their original order. *)
Definition by_count_desc (x y : K * nat) : bool := (snd y <=? snd x)%nat.

(** [Counter.most_common(n)] followed by [dict(...)]. *)
Definition most_common (n : nat) (counter : list (K * nat))
  : list (K * nat) :=
  firstn n (stable_sort by_count_desc counter).

Definition total (counts : list (K * nat)) : nat :=
  fold_right (fun kv acc => (snd kv + acc)%nat) 0%nat counts.

End Counting.

(* ================================================================== *)
(** ** data_analyzer.py *)
(* ================================================================== *)

(** A pandas frame built from a list of records: its rows, and the
    ['date'] column once [get_time_distribution] has added it. *)
Record DataFrame (A : Type) := {
  rows : list A;
  date_column : option (list Z)
}.

Record DataAnalyzer := {
  posts_df : DataFrame PostInfo;
  comments_df : DataFrame CommentInfo
}.

(** [DataAnalyzer.__init__]: [pd.DataFrame] copies the records. *)
Definition new_analyzer (posts_data : list PostInfo)
    (comments_data : list CommentInfo) : DataAnalyzer :=
  {| posts_df := {| rows := posts_data; date_column := None |};
     comments_df := {| rows := comments_data; date_column := None |} |}.

(** [df.empty] for a frame built from records. *)
Definition empty {A} (df : DataFrame A) : bool :=
  match rows df with [] => true | _ :: _ => false end.

Definition len {A} (df : DataFrame A) : nat := List.length (rows df).

Definition column {A B} (f : A -> B) (df : DataFrame A) : list B :=
  map f (rows df).

Record BasicStats := {
  total_volume : nat;
  post_count : nat;
  comment_count : nat;
  unique_users : nat;
  unique_subreddits : nat
}.

Definition is_sentinel (author : string) : bool :=
  (author =? "[deleted]")%string || (author =? "AutoModerator")%string.

Definition _count_unique_users (a : DataAnalyzer) : nat :=
  let all_authors :=
    nodup string_dec
      (column post_author (posts_df a) ++ column comment_author (comments_df a)) in
  List.length (filter (fun x => negb (is_sentinel x)) all_authors).

Definition _count_unique_subreddits (a : DataAnalyzer) : nat :=
  List.length (nodup string_dec
            (column post_subreddit (posts_df a)
             ++ column comment_subreddit (comments_df a))).

Definition calculate_basic_stats (a : DataAnalyzer) : BasicStats :=
  {| total_volume := (len (posts_df a) + len (comments_df a))%nat;
     post_count := len (posts_df a);
     comment_count := len (comments_df a);
     unique_users := _count_unique_users a;
     unique_subreddits := _count_unique_subreddits a |}.

(** The list [all_subreddits] of [get_subreddit_distribution]. *)
Definition all_subreddits (a : DataAnalyzer) : list string :=
  column post_subreddit (posts_df a)
  ++ column comment_subreddit (comments_df a).

Definition get_subreddit_distribution (top_n : nat) (a : DataAnalyzer)
  : list (string * nat) :=
  most_common top_n (Counter String.eqb (all_subreddits a)).

(** [groupby('date').size().to_dict()]: one entry per date, dates
    ascending. *)
Definition by_date_asc (x y : Z * nat) : bool := fst x <=? fst y.

Definition groupby_size (dates : list Z) : list (Z * nat) :=
  stable_sort by_date_asc (Counter Z.eqb dates).

Record TimeStats := {
  posts_by_date : list (Z * nat);
  comments_by_date : list (Z * nat)
}.

(** [get_time_distribution] writes the ['date'] column into both frames. *)
Definition get_time_distribution (a : DataAnalyzer)
  : TimeStats * DataAnalyzer :=
  let post_dates :=
    map Datetime.date_of (column post_created_date (posts_df a)) in
  let comment_dates :=
    map Datetime.date_of (column comment_created_date (comments_df a)) in
  let posts_df' :=
    if empty (posts_df a) then posts_df a
    else {| rows := rows (posts_df a); date_column := Some post_dates |} in
  let comments_df' :=
    if empty (comments_df a) then comments_df a
    else {| rows := rows (comments_df a);
            date_column := Some comment_dates |} in
  ({| posts_by_date :=
        if empty (posts_df a) then [] else groupby_size post_dates;
      comments_by_date :=
        if empty (comments_df a) then [] else groupby_size comment_dates |},
   {| posts_df := posts_df'; comments_df := comments_df' |}).

(** A signed 64-bit integer: the value of [z] after wrap-around. *)
Definition int64 (z : Z) : Z := (z + 2 ^ 63) mod 2 ^ 64 - 2 ^ 63.

(** The entries of a column added up as whole numbers. *)
Definition exact_sum (l : list Z) : Z := fold_right Z.add 0 l.

(** [int(Series.sum())] of an [int64] column: numpy adds with
    wrap-around. *)
Definition sum (l : list Z) : Z := int64 (exact_sum l).

(** [Series.median()]: the middle value of the sorted column, or the mean
    of the two middle values.  pandas computes it in [float64], which
    holds these values exactly as long as the entries of the column lie
    between [-2^52] and [2^52]. *)
Definition median (l : list Z) : Q :=
  let sorted := stable_sort Z.leb l in
  let n := List.length l in
  if Nat.even n
  then Qmake (nth (n / 2 - 1) sorted 0 + nth (n / 2) sorted 0) 2
  else Qmake (nth (n / 2) sorted 0) 1.

Record Engagement := {
  avg_post_score : Q;
  avg_comment_score : Q;
  total_post_score : Z;
  total_comment_score : Z;
  avg_comments_per_post : Q;
  median_post_score : Q;
  median_comment_score : Q
}.

Section Pandas.

(** [Series.mean()] of a non-empty [int64] column: the [float64] pandas
    returns, which depends on the order in which numpy adds the entries
    up. *)
Variable mean : list Z -> Q.

(** [Series.sort_values(ascending=False)] on the score column, as the
    order of the rows it gives: the sort is numpy's quicksort, which
    places rows of equal score in an order of its own. *)
Variable sort_values : list PostInfo -> list PostInfo.

Definition get_engagement_stats (a : DataAnalyzer) : Engagement :=
  let post_scores := column post_score (posts_df a) in
  let comment_scores := column comment_score (comments_df a) in
  let has_posts := negb (empty (posts_df a)) in
  let has_comments := negb (empty (comments_df a)) in
  {| avg_post_score := if has_posts then mean post_scores else 0%Q;
     avg_comment_score := if has_comments then mean comment_scores else 0%Q;
     total_post_score := if has_posts then sum post_scores else 0;
     total_comment_score := if has_comments then sum comment_scores else 0;
     avg_comments_per_post :=
       if has_posts then mean (column num_comments (posts_df a)) else 0%Q;
     median_post_score := if has_posts then median post_scores else 0%Q;
     median_comment_score :=
       if has_comments then median comment_scores else 0%Q |}.

(** The columns [get_top_posts] selects. *)
Record TopPost := {
  tp_title : string;
  tp_author : string;
  tp_subreddit : string;
  tp_score : Z;
  tp_num_comments : Z;
  tp_permalink : string;
  tp_created_date : Z
}.

Definition top_post_columns (p : PostInfo) : TopPost :=
  {| tp_title := title p;
     tp_author := post_author p;
     tp_subreddit := post_subreddit p;
     tp_score := post_score p;
     tp_num_comments := num_comments p;
     tp_permalink := post_permalink p;
     tp_created_date := post_created_date p |}.

Definition by_score_desc (x y : PostInfo) : bool :=
  post_score y <=? post_score x.

(** [nlargest(top_n, 'score')] on an [int64] column: highest scores
    first.  When [top_n] is less than the number of rows pandas selects
    the rows with a stable sort, which keeps equal scores in frame order;
    otherwise it returns [sort_values(ascending=False).head(top_n)]. *)
Definition nlargest (top_n : nat) (df : DataFrame PostInfo) : list PostInfo :=
  if (top_n <? len df)%nat
  then firstn top_n (stable_sort by_score_desc (rows df))
  else firstn top_n (sort_values (rows df)).

Definition get_top_posts (top_n : nat) (a : DataAnalyzer) : list TopPost :=
  if empty (posts_df a) then []
  else map top_post_columns (nlargest top_n (posts_df a)).

Definition get_top_users (top_n : nat) (a : DataAnalyzer)
  : list (string * nat) :=
  let all_authors :=
    column post_author (posts_df a)
    ++ column comment_author (comments_df a) in
  most_common top_n
    (Counter String.eqb (filter (fun x => negb (is_sentinel x)) all_authors)).

Record Summary := {
  basic_stats : BasicStats;
  subreddit_distribution : list (string * nat);
  time_distribution : TimeStats;
  engagement_stats : Engagement;
  top_posts : list TopPost;
  top_users : list (string * nat)
}.

(** [export_summary]: the entries of the dict are computed in this order,
    so the last three read the frames [get_time_distribution] has
    written to.  Returns the summary and the analyzer as it is left. *)
Definition export_summary (a : DataAnalyzer) : Summary * DataAnalyzer :=
  let basic := calculate_basic_stats a in
  let distribution := get_subreddit_distribution 10 a in
  let (time, a') := get_time_distribution a in
  ({| basic_stats := basic;
      subreddit_distribution := distribution;
      time_distribution := time;
      engagement_stats := get_engagement_stats a';
      top_posts := get_top_posts 10 a';
      top_users := get_top_users 10 a' |},
   a').

End Pandas.

(* ================================================================== *)
(** ** topic_analyzer.py *)
(* ================================================================== *)

Module Text.

Definition code (c : ascii) : nat := nat_of_ascii c.

(** [\s] on ASCII text: tab, line feed, vertical tab, form feed, carriage
    return, the four separators 28..31, and the space. *)
Definition is_space (c : ascii) : bool :=
  let n := code c in
  ((9 <=? n) && (n <=? 13) || (28 <=? n) && (n <=? 32))%nat.

(** [[a-zA-Z0-9]]. *)
Definition is_alnum (c : ascii) : bool :=
  let n := code c in
  ((48 <=? n) && (n <=? 57) || (65 <=? n) && (n <=? 90)
   || (97 <=? n) && (n <=? 122))%nat.

(** The text starts with [word] followed by one character that is not
    white space: a match of [word\S+] starts here. *)
Fixpoint starts_match (word text : string) : bool :=
  match word, text with
  | EmptyString, String c _ => negb (is_space c)
  | String w word', String c text' =>
      Ascii.eqb w c && starts_match word' text'
  | _, EmptyString => false
  end.

(** [re.sub(r'http\S+|www\S+', '', text)].  [inside] is true within a
    match, which runs on to the next white space. *)
Fixpoint remove_urls (inside : bool) (text : string) : string :=
  match text with
  | EmptyString => EmptyString
  | String c rest =>
      if inside then
        if is_space c then String c (remove_urls false rest)
        else remove_urls true rest
      else if starts_match "http" text || starts_match "www" text
           then remove_urls true rest
           else String c (remove_urls false rest)
  end.

(** [re.sub(r'[^a-zA-Z0-9\s]', ' ', text)]. *)
Fixpoint blank_special (text : string) : string :=
  match text with
  | EmptyString => EmptyString
  | String c rest =>
      String (if is_alnum c || is_space c then c else " "%char)
             (blank_special rest)
  end.

(** [str.split()]: the maximal runs of characters that are not white
    space.  [word] is the run being read. *)
Fixpoint split_from (word text : string) : list string :=
  match text with
  | EmptyString => if Str.truthy word then [word] else []
  | String c rest =>
      if is_space c
      then if Str.truthy word then word :: split_from "" rest
           else split_from "" rest
      else split_from (word ++ String c "") rest
  end.

Definition split (text : string) : list string := split_from "" text.

(** [sep.join(parts)]. *)
Fixpoint join (sep : string) (parts : list string) : string :=
  match parts with
  | [] => ""
  | [x] => x
  | x :: rest => x ++ sep ++ join sep rest
  end.

End Text.

Record TopicAnalyzer := {
  ta_posts_data : list PostInfo;
  ta_comments_data : list CommentInfo
}.

Definition stop_words : list string :=
  ["the"; "a"; "an"; "and"; "or"; "but"; "in"; "on"; "at"; "to"; "for";
   "of"; "with"; "by"; "from"; "as"; "is"; "was"; "are"; "were"; "been";
   "be"; "have"; "has"; "had"; "do"; "does"; "did"; "will"; "would";
   "could"; "should"; "may"; "might"; "can"; "this"; "that"; "these";
   "those"; "i"; "you"; "he"; "she"; "it"; "we"; "they"; "what"; "which";
   "who"; "when"; "where"; "why"; "how"; "my"; "your"; "his"; "her"; "its";
   "our"; "their"; "me"; "him"; "them"; "us"; "just"; "not"; "ve"; "re";
   "ll"; "s"; "t"; "m"; "d"; "like"; "get"; "got"; "one"; "also"; "really";
   "even"; "still"; "much"; "more"; "very"; "so"; "too"; "out"; "up"; "down";
   "https"; "http"; "com"; "www"].

Definition mem (w : string) (l : list string) : bool :=
  existsb (String.eqb w) l.

Definition _extract_text_from_data (a : TopicAnalyzer) : string :=
  let post_text :=
    flat_map (fun p => title p ::
                       if Str.truthy (selftext p) then [selftext p] else [])
             (ta_posts_data a) in
  let comment_text :=
    flat_map (fun c => if Str.truthy (body c) then [body c] else [])
             (ta_comments_data a) in
  Text.join " " (post_text ++ comment_text).

(** [_clean_text]; the last step collapses runs of white space to one
    space and strips both ends. *)
Definition _clean_text (text : string) : string :=
  let text := Str.lower text in
  let text := Text.remove_urls false text in
  let text := Text.blank_special text in
  Text.join " " (Text.split text).

Definition extract_keywords (top_n : nat) (a : TopicAnalyzer)
  : list (string * nat) :=
  let cleaned_text := _clean_text (_extract_text_from_data a) in
  let words := Text.split cleaned_text in
  let filtered_words :=
    filter (fun word => negb (mem word stop_words)
                        && (2 <? String.length word)%nat) words in
  most_common top_n (Counter String.eqb filtered_words).

Definition topic_patterns : list (string * list string) :=
  [("performance", ["performance"; "speed"; "fast"; "slow"; "lag"; "fps";
                    "battery"; "processor"; "chip"]);
   ("design", ["design"; "look"; "color"; "screen"; "display"; "size";
               "weight"; "build"; "camera"]);
   ("price", ["price"; "cost"; "expensive"; "cheap"; "worth"; "value";
              "money"; "deal"; "sale"]);
   ("features", ["feature"; "function"; "support"; "software"; "update";
                 "version"; "system"; "app"]);
   ("quality", ["quality"; "issue"; "problem"; "defect"; "break"; "damage";
                "fix"; "repair"; "warranty"]);
   ("comparison", ["better"; "worse"; "compare"; "difference"; "versus";
                   "vs"; "alternative"; "similar"]);
   ("user_experience", ["use"; "experience"; "love"; "hate"; "like";
                        "dislike"; "recommend"; "buy"; "purchased"])].

Record TopicStat := {
  keywords : list (string * nat);
  total_mentions : nat
}.

(** [related_words] for one topic: the extracted keywords that are in its
    list, in the order of the keyword dict. *)
Definition related_words (patterns : list string)
    (kw : list (string * nat)) : list (string * nat) :=
  filter (fun wc => mem (fst wc) patterns) kw.

(** The first loop of [extract_topic_clusters] over a table of topics. *)
Fixpoint topic_stats (table : list (string * list string))
    (kw : list (string * nat)) : list (string * TopicStat) :=
  match table with
  | [] => []
  | (topic, patterns) :: rest =>
      let related := related_words patterns kw in
      match related with
      | [] => topic_stats rest kw
      | _ :: _ =>
          (topic, {| keywords := related;
                     total_mentions := total related |})
          :: topic_stats rest kw
      end
  end.

Definition by_mentions_desc (x y : string * TopicStat) : bool :=
  (total_mentions (snd y) <=? total_mentions (snd x))%nat.

(** [extract_topic_clusters] from the keyword dict on. *)
Definition cluster_keywords (top_n : nat) (kw : list (string * nat))
  : list (string * TopicStat) :=
  match kw with
  | [] => []
  | _ :: _ =>
      firstn top_n (stable_sort by_mentions_desc (topic_stats topic_patterns kw))
  end.

Definition extract_topic_clusters (top_n : nat) (a : TopicAnalyzer)
  : list (string * TopicStat) :=
  cluster_keywords top_n (extract_keywords 100 a).

(* ================================================================== *)
(** ** Vocabulary of the crawler's properties *)
(* ================================================================== *)

Definition post_in_window (cfg : Config) (p : PostInfo) : Prop :=
  _is_in_date_range cfg (post_created_utc p) = Ok true.

(** A search request carries parameters, a comment request none. *)
Definition is_search (r : Request) : bool := is_some (req_params r).

Definition search_requests (c : Crawler) : list Request :=
  filter is_search (requests_of (trace c)).

(** [c'] is [c] with more posts, comments and events at the end, the
    added posts and comments all in the window. *)
Definition extends (cfg : Config) (c c' : Crawler) : Prop :=
  exists ps cs ev,
    posts_data c' = posts_data c ++ ps
    /\ comments_data c' = comments_data c ++ cs
    /\ trace c' = trace c ++ ev
    /\ Forall (post_in_window cfg) ps
    /\ Forall (comment_in_window cfg) cs.

(** Posts added to the collection between [c] and [c']. *)
Definition added_posts (c c' : Crawler) : Z :=
  Z.of_nat (List.length (posts_data c')) - Z.of_nat (List.length (posts_data c)).

(** A submission in the window whose reads all succeed. *)
Definition collectable (cfg : Config) (s : Submission) : bool :=
  match s_created_utc s with
  | Some t => in_window cfg t
  | None => false
  end
  && is_some (s_id s)
  && match s_num_comments s with
     | Some nc => if nc >? 0 then is_some (s_permalink s) else true
     | None => false
     end.

(** The record stored for a collectable submission. *)
Definition info_of (cfg : Config) (s : Submission) : PostInfo :=
  post_info s (dflt "" (s_id s)) (dflt 0 (s_created_utc s))
            (Datetime.local (utc_offset cfg) (dflt 0 (s_created_utc s))).

(** A successful search response. *)
Definition page (posts : list Submission) (cursor : option string)
  : HttpOutcome :=
  Response 200 (JSearch (Some {| children := Some posts; after := cursor |})).

(* ================================================================== *)
(** ** Sample configurations, payloads and endpoints *)
(* ================================================================== *)

Module Sample.

Definition jan_1 : Datetime.date := Datetime.Date 1 1 2024.
Definition jan_31 : Datetime.date := Datetime.Date 31 1 2024.

(** January 2024, seen from a zone that is one hour east of Greenwich all
    year; the walk of a thread starts eleven frames deep under a recursion
    limit of 1000. *)
Definition january (names : list string) (per_forum : Z) : Config :=
  {| brand := "Apple";
     product := "iPhone 15";
     start_date := jan_1;
     end_date := jan_31;
     subreddits := names;
     limit := per_forum;
     utc_offset := fun _ => 3600;
     free_frames := 989 |}.

(** The epoch timestamp of a local time of day on a date, in a zone that
    keeps one offset all year. *)
Definition local (cfg : Config) (d : Datetime.date) (h m s : Z) : Z :=
  Datetime.at_time d h m s - utc_offset cfg 0.

Definition digit (n : nat) : ascii := ascii_of_nat (48 + n mod 10).

Definition numeral (n : nat) : string :=
  String (digit (n / 100)) (String (digit (n / 10)) (String (digit n) "")).

(** A submission as the endpoint sends it. *)
Definition submission (id : string) (created : Z) (comments : Z)
  : Submission :=
  {| s_id := Some id;
     s_title := Some ("About " ++ id)%string;
     s_selftext := Some "";
     s_author := Some "alice";
     s_subreddit := Some "apple";
     s_created_utc := Some created;
     s_score := Some 7;
     s_upvote_ratio := Some (9 # 10);
     s_num_comments := Some comments;
     s_url := Some ("https://example.org/" ++ id)%string;
     s_permalink := Some ("/r/apple/comments/" ++ id ++ "/")%string |}.

(** A submission without ['created_utc']. *)
Definition broken_submission (id : string) : Submission :=
  {| s_id := Some id;
     s_title := None;
     s_selftext := None;
     s_author := None;
     s_subreddit := None;
     s_created_utc := None;
     s_score := None;
     s_upvote_ratio := None;
     s_num_comments := None;
     s_url := None;
     s_permalink := None |}.

Definition comment (id text : string) (created : Z)
    (replies : option (list CommentNode)) : CommentNode :=
  MkNode "t1" (Some id) (Some text) (Some "bob") (Some created) (Some 1)
         (Some ("/c/" ++ id)%string) replies.

Definition reply (cfg : Config) (i : nat) : Reply :=
  {| r_id := "c" ++ numeral i;
     r_body := "reply " ++ numeral i;
     r_author := Some "bob";
     r_created_utc := local cfg jan_1 0 0 0 + Z.of_nat i;
     r_score := Some 1;
     r_permalink := None |}.

Definition cfg0 : Config := january [] 0.

Definition fifty_replies : list Reply := map (reply cfg0) (seq 0 50).

Definition cfg150 : Config := january ["apple"] 150.

Definition two_forums : Config := january ["broken"; "apple"] 10.

Definition one_forum : Config := january ["apple"] 10.

Definition noon_of_jan_31 : Z := local cfg0 jan_31 12 0 0.

(** The first search request of a run over [one_forum]. *)
Definition first_page : Request :=
  {| req_url := "https://www.reddit.com/r/apple/search.json";
     req_params :=
       Some {| q := "Apple iPhone 15";
               sort := "new";
               limit_param := 100;
               restrict_sr := "on";
               after_param := None |} |}.

(** The endpoint is down: every request fails in transport. *)
Definition unreachable : list Request -> Request -> HttpOutcome :=
  fun _ _ => ConnectionError.

(** The endpoint refuses every request with 429 Too Many Requests. *)
Definition throttled : list Request -> Request -> HttpOutcome :=
  fun _ _ => Response 429 (JSearch None).

(** One submission made at noon of the last day of the window. *)
Definition noon_of_last_day : list Request -> Request -> HttpOutcome :=
  fun _ r =>
    match req_params r with
    | Some _ =>
        page [submission "late" noon_of_jan_31 0] None
    | None => Response 200 (JThread [])
    end.

(** Three search pages of 100, 100 and 0 submissions, all made in the
    window; every third submission has a comment thread of one comment
    with one reply. *)
Definition hundred (first : nat) : list Submission :=
  map (fun i =>
         submission ("p" ++ numeral i)%string
                    (local cfg0 jan_1 8 0 0 + Z.of_nat i)
                    (if (i mod 3 =? 0)%nat then 2 else 0))
      (seq first 100).

Definition three_pages : list Request -> Request -> HttpOutcome :=
  fun _ r =>
    match req_params r with
    | Some p =>
        match after_param p with
        | None => page (hundred 0) (Some "t3_p099")
        | Some cursor =>
            if (cursor =? "t3_p099")%string
            then page (hundred 100) (Some "t3_p199")
            else page [] None
        end
    | None =>
        let t := local cfg0 jan_1 9 0 0 in
        Response 200
          (JThread [None;
                    Some [comment "k1" "first" t
                            (Some [comment "k2" "second" (t + 60) None])]])
    end.

(** The forum [broken] sends one good submission and then one without
    ['created_utc']; every other forum sends one good submission. *)
Definition one_bad_forum : list Request -> Request -> HttpOutcome :=
  fun _ r =>
    match req_params r with
    | Some _ =>
        let t := local cfg0 jan_1 8 0 0 in
        if (req_url r =? "https://www.reddit.com/r/broken/search.json")%string
        then page [submission "b1" t 0; broken_submission "b2";
                   submission "b3" t 0] (Some "t3_b3")
        else page [submission "g1" t 0] None
    | None => Response 200 (JThread [])
    end.

(** A thread whose top comment was removed (empty body) and whose second
    level is older than the window; the third level is an ordinary
    comment in the window. *)
Definition deep_comment : CommentNode :=
  comment "deep" "still here" (local cfg0 jan_1 11 0 0) None.




(** Records of a finished run. *)
Definition post (id forum author : string) (score comments : Z) (created : Z)
  : PostInfo :=
  {| post_id_ := id;
     title := "fast fast fast";
     selftext := "";
     post_author := author;
     post_subreddit := forum;
     post_created_utc := created;
     post_created_date := created + 3600;
     post_score := score;
     upvote_ratio := 9 # 10;
     num_comments := comments;
     url := "";
     post_permalink := "https://reddit.com/" ++ id |}.

Definition remark (id forum author text : string) (score : Z) (created : Z)
  : CommentInfo :=
  {| comment_id := id;
     parent_post_id := "p000";
     body := text;
     comment_author := author;
     comment_subreddit := forum;
     comment_created_utc := created;
     comment_created_date := created + 3600;
     comment_score := score;
     comment_permalink := "https://reddit.com/" ++ id |}.

(** Eleven posts, each in a forum of its own. *)
Definition eleven_forums : list PostInfo :=
  map (fun i => post ("p" ++ numeral i) ("forum" ++ numeral i) "alice"
                     (Z.of_nat i) 0 (local cfg0 jan_1 8 0 0))
      (seq 0 11).

Definition some_posts : list PostInfo :=
  [post "p000" "apple" "alice" 5 2 (local cfg0 jan_1 8 0 0);
   post "p001" "iphone" "[deleted]" 9 0 (local cfg0 jan_1 23 30 0);
   post "p002" "apple" "carol" 9 1 (local cfg0 jan_31 0 0 0)].

Definition some_comments : list CommentInfo :=
  [remark "c000" "apple" "bob" "The price is fair, price matters" 3
          (local cfg0 jan_1 9 0 0);
   remark "c001" "apple" "AutoModerator" "Slow, slow, SLOW!" (-2)
          (local cfg0 jan_1 9 5 0)].

(** A mean for the examples: the mean of the column rounded down to a
    whole number. *)
Definition plain_mean (l : list Z) : Q :=
  inject_Z (fold_right Z.add 0 l / Z.of_nat (List.length l)).

(** A descending sort for the examples that places rows of equal score in
    an order of its own: the latest first. *)
Definition latest_first (l : list PostInfo) : list PostInfo :=
  stable_sort by_score_desc (rev l).

(** Text in which, stop words and short words apart, only [fast] (5
    times), [slow] (3 times) and [price] (10 times) occur. *)
Definition priced : TopicAnalyzer :=
  {| ta_posts_data :=
       [post "p000" "apple" "alice" 5 2 (local cfg0 jan_1 8 0 0)];
     ta_comments_data :=
       [remark "c000" "apple" "bob"
               "Price? PRICE! price, price; the price is not the price..." 1
               (local cfg0 jan_1 9 0 0);
        remark "c001" "apple" "bob"
               "so slow, so SLOW - it is slow. At https://example.org/x" 1
               (local cfg0 jan_1 9 0 0);
        remark "c002" "apple" "bob"
               "fast & fast: price/price (price) www.price.example price" 1
               (local cfg0 jan_1 9 0 0)] |}.

End Sample.

(* ================================================================== *)
(** ** Further vocabulary *)
(* ================================================================== *)

(** [l.count(k)]. *)
Definition occurrences {K} (eqb : K -> K -> bool) (k : K) (l : list K) : nat :=
  List.length (filter (eqb k) l).

(** [counter[k]]: the count stored for [k], 0 for a key that is absent. *)
Fixpoint lookup {K} (eqb : K -> K -> bool) (k : K) (counter : list (K * nat))
  : nat :=
  match counter with
  | [] => 0%nat
  | (k', n) :: r => if eqb k' k then n else lookup eqb k r
  end.

(** The comment requests of the trace. *)
Definition comment_requests (c : Crawler) : list Request :=
  filter (fun r => negb (is_search r)) (requests_of (trace c)).

(** Every sleep of the trace lasts [request_delay] seconds and comes
    directly after a request; [may_sleep] says that the event before was
    a request. *)
Fixpoint paced_from (may_sleep : bool) (t : list Event) : bool :=
  match t with
  | [] => true
  | EvGet _ :: r => paced_from true r
  | EvSleep d :: r => may_sleep && (d =? request_delay) && paced_from false r
  end.

Definition paced (t : list Event) : bool := paced_from false t.

(** The request fails: [requests.get] or [raise_for_status] raises. *)
Definition fails (o : HttpOutcome) : bool :=
  match o with
  | ConnectionError => true
  | Response status _ => raise_for_status status
  end.

Definition in_window_submission (cfg : Config) (s : Submission) : bool :=
  match s_created_utc s with
  | Some t => in_window cfg t
  | None => false
  end.

(** The window test returns [False] on the submission. *)
Definition stale (cfg : Config) (s : Submission) : bool :=
  match s_created_utc s with
  | Some t => outside_window cfg t
  | None => false
  end.

(** Every step of the loop body succeeds on the submission: it has a
    ['created_utc'] that [datetime] can hold and, if it is in the window,
    the other keys read. *)
Definition readable (cfg : Config) (s : Submission) : bool :=
  stale cfg s || collectable cfg s.

(** The key the walk fails to read on the node, if any: the node is a
    comment with a non-empty body that lacks ['id'], or has it and lacks
    ['created_utc']. *)
Definition missing_key (n : CommentNode) : option string :=
  match n with
  | MkNode k id b _ t _ _ _ =>
      if (k =? "t1")%string && Str.truthy_opt b then
        match id, t with
        | None, _ => Some "id"
        | Some _, None => Some "created_utc"
        | Some _, Some _ => None
        end
      else None
  end.

(** [StopsAt cfg post_id subreddit free l key out]: walking [l] with
    [free] frames left, the first comment whose dict cannot be built for
    want of [key] is met, at the top of [l] or below comments of [l], and
    [out] lists what the walk collects before it.  The comments before it
    are well formed and within the frames; nothing is asked of its replies
    nor of the nodes after it and after the comments above it. *)
Inductive StopsAt (cfg : Config) (post_id subreddit : string)
  : nat -> list CommentNode -> string -> list CommentInfo -> Prop :=
| StopsAt_here free before n after key :
    forallb (well_formed cfg) before = true ->
    (depth before <= free)%nat ->
    missing_key n = Some key ->
    StopsAt cfg post_id subreddit free (before ++ n :: after) key
            (preorder cfg post_id subreddit before)
| StopsAt_below free before id b a t s p replies after key out :
    forallb (well_formed cfg) before = true ->
    (depth before <= S free)%nat ->
    readable_comment cfg id b t = true ->
    StopsAt cfg post_id subreddit free replies key out ->
    StopsAt cfg post_id subreddit (S free)
            (before ++ MkNode "t1" id b a t s p (Some replies) :: after) key
            (preorder cfg post_id subreddit before
             ++ own_comment cfg post_id subreddit
                  (MkNode "t1" id b a t s p None)
             ++ out).

(** The exits of the [while] loop after a page: [data] is what the fetch
    returned with [n] posts collected, [c1] the crawler after the fetch.
    The loop is left when the fetch failed or its response carries no
    data, when the page has no results, when a submission of the page
    raises, when the page has no cursor, and when the limit is met. *)
Definition stops_after_page (cfg : Config)
    (server : list Request -> Request -> HttpOutcome)
    (data : option Json) (n : Z) (c1 : Crawler) : Prop :=
  match data with
  | Some (JSearch (Some listing)) =>
      match dflt [] (children listing) with
      | [] => True
      | post :: rest =>
          match for_posts cfg server (post :: rest) n c1 with
          | (Raise _, _, _) => True
          | (Normal, n1, _) =>
              Str.truthy_opt (after listing) = false \/ limit cfg <= n1
          end
      end
  | _ => True
  end.

(** [Subseq ps l]: [ps] is [l] with some of its elements left out. *)
Inductive Subseq {A : Type} : list A -> list A -> Prop :=
| Subseq_nil : Subseq [] []
| Subseq_skip x ps l : Subseq ps l -> Subseq ps (x :: l)
| Subseq_take x ps l : Subseq ps l -> Subseq (x :: ps) (x :: l).

(** The comment request [r] is the one made for the post [p], which
    reports comments. *)
Definition fetched_for (p : PostInfo) (r : Request) : Prop :=
  0 < num_comments p
  /\ exists permalink,
       post_permalink p = ("https://reddit.com" ++ permalink)%string
       /\ r = comments_request permalink.

(** Between [c] and [c'] posts and comment requests were added, the
    requests made one each, in order, for some of the posts added. *)
Definition audited (c c' : Crawler) : Prop :=
  exists ps reqs fetched,
    posts_data c' = posts_data c ++ ps
    /\ comment_requests c' = comment_requests c ++ reqs
    /\ Subseq fetched ps
    /\ Forall2 fetched_for fetched reqs.

(** The comment belongs to a post of the collection. *)
Definition belongs_to (k : CommentInfo) (p : PostInfo) : Prop :=
  post_id_ p = parent_post_id k /\ post_subreddit p = comment_subreddit k.

(** Every comment of the collection belongs to one of its posts. *)
Definition linked (c : Crawler) : Prop :=
  forall k, In k (comments_data c) ->
            exists p, In p (posts_data c) /\ belongs_to k p.

(** Every character of the string passes the test. *)
Fixpoint all_chars (test : ascii -> bool) (s : string) : bool :=
  match s with
  | EmptyString => true
  | String c r => test c && all_chars test r
  end.

(** [[a-z0-9]]. *)
Definition is_lower_alnum (c : ascii) : bool :=
  let n := nat_of_ascii c in
  ((48 <=? n) && (n <=? 57) || (97 <=? n) && (n <=? 122))%nat.

(** The words [extract_keywords] counts. *)
Definition filtered_words (a : TopicAnalyzer) : list string :=
  filter (fun word => negb (mem word stop_words)
                      && (2 <? String.length word)%nat)
         (Text.split (_clean_text (_extract_text_from_data a))).

Module MoreSamples.

(** The crawler after a run over [Sample.three_pages] with a limit of
    150. *)
Definition finished_run : Crawler :=
  match search_posts Sample.cfg150 Sample.three_pages 5 new_crawler with
  | Some c => c
  | None => new_crawler
  end.

(** A page that mixes submissions made before the window with
    submissions made in it. *)
Definition mixed_page : list Submission :=
  [Sample.submission "m1" (Sample.local Sample.cfg0 Sample.jan_1 0 0 0 - 5) 3;
   Sample.submission "m2" (Sample.local Sample.cfg0 Sample.jan_1 8 0 0) 0;
   Sample.submission "m3" (Sample.local Sample.cfg0 Sample.jan_1 0 0 0 - 9) 0;
   Sample.submission "m4" (Sample.local Sample.cfg0 Sample.jan_1 9 0 0) 0;
   Sample.submission "m5" (Sample.local Sample.cfg0 Sample.jan_1 9 30 0) 0].

(** A page of submissions made before the window. *)
Definition stale_page : list Submission :=
  [Sample.submission "s1" (Sample.local Sample.cfg0 Sample.jan_1 0 0 0 - 5) 3;
   Sample.submission "s2" (Sample.local Sample.cfg0 Sample.jan_1 0 0 0 - 9) 0].

(** A first page of stale submissions, then a page with one submission
    in the window. *)
Definition stale_then_fresh : list Request -> Request -> HttpOutcome :=
  fun _ r =>
    match req_params r with
    | Some p =>
        match after_param p with
        | None => page stale_page (Some "t3_s2")
        | Some _ =>
            page [Sample.submission "f1"
                    (Sample.local Sample.cfg0 Sample.jan_1 8 0 0) 0] None
        end
    | None => Response 200 (JThread [])
    end.

Definition two_of_three : Config := Sample.january ["apple"] 2.

(** Every search is answered with [mixed_page] and no cursor. *)
Definition mixed : list Request -> Request -> HttpOutcome :=
  fun _ r =>
    match req_params r with
    | Some _ => page mixed_page None
    | None => Response 200 (JThread [])
    end.

Definition no_budget : Config := Sample.january ["apple"; "iphone"] 0.

(** A removed comment with two replies: a comment that has a body and no
    ['id'], then an ordinary comment in the window. *)
Definition no_id_comment : CommentNode :=
  MkNode "t1" None (Some "no id") None
         (Some (Sample.local Sample.cfg0 Sample.jan_1 10 30 0)) None None None.






(** A thread of three comments; the second has three replies, of which
    the second has a body and no ['id']. *)
Definition answered : CommentNode :=
  Sample.comment "ans" "answered"
    (Sample.local Sample.cfg0 Sample.jan_1 10 15 0)
    (Some [Sample.deep_comment; no_id_comment; Sample.deep_comment]).

Definition half_read_thread : list CommentNode :=
  [Sample.deep_comment; answered; Sample.deep_comment].




End MoreSamples.

(** The mentions of all topics of a result together. *)
Definition mentions (clusters : list (string * TopicStat)) : nat :=
  fold_right (fun c acc => (total_mentions (snd c) + acc)%nat) 0%nat clusters.

(** The text of [_clean_text] before white space is collapsed. *)
Definition blanked (text : string) : string :=
  Text.blank_special (Text.remove_urls false (Str.lower text)).

(** All the words of the topic table. *)
Definition all_patterns : list string := flat_map snd topic_patterns.

(** The related counts of all the topics of a table together. *)
Definition related_total (table : list (string * list string))
    (kw : list (string * nat)) : nat :=
  fold_right (fun tp acc => (total (related_words (snd tp) kw) + acc)%nat)
             0%nat table.

(** The number of topics of a table that list the word. *)
Definition topics_of (table : list (string * list string)) (w : string)
  : nat :=
  List.length (filter (fun tp => mem w (snd tp)) table).

(** No match of [http\S+] or [www\S+] starts anywhere in the text. *)
Fixpoint no_url (text : string) : bool :=
  match text with
  | EmptyString => true
  | String c r =>
      negb (Text.starts_match "http" text || Text.starts_match "www" text)
      && no_url r
  end.

Definition no_space (c : ascii) : bool := negb (Text.is_space c).

(* ================================================================== *)
(** ** topic_analyzer.py: hashtags and mentions *)
(* ================================================================== *)

Module Tags.

(** [\w] on ASCII text: letters, digits and the underscore. *)
Definition is_word (c : ascii) : bool :=
  Text.is_alnum c || Ascii.eqb c "_".

Definition word_follows (text : string) : bool :=
  match text with
  | EmptyString => false
  | String c _ => is_word c
  end.

(** [re.findall(marker + r'(\w+)', text)].  [current] is the group being
    read, if the scan is inside a match; a match starts at a marker that
    is followed by a word character and runs as far as word characters
    go. *)
Fixpoint findall (marker : ascii) (current : option string) (text : string)
  : list string :=
  match text with
  | EmptyString =>
      match current with Some w => [w] | None => [] end
  | String c r =>
      let outside :=
        if Ascii.eqb c marker && word_follows r
        then findall marker (Some "") r
        else findall marker None r in
      match current with
      | Some w =>
          if is_word c then findall marker (Some (w ++ String c "")%string) r
          else w :: outside
      | None => outside
      end
  end.

End Tags.

Record TagStats := {
  top_hashtags : list (string * nat);
  top_mentions : list (string * nat)
}.

(** The texts [get_hashtags_and_mentions] scans, posts first. *)
Definition scanned_texts (a : TopicAnalyzer) : list string :=
  map (fun p => (title p ++ " " ++ selftext p)%string) (ta_posts_data a)
  ++ map body (ta_comments_data a).

Definition all_tags (marker : ascii) (a : TopicAnalyzer) : list string :=
  flat_map (Tags.findall marker None) (scanned_texts a).

Definition get_hashtags_and_mentions (a : TopicAnalyzer) : TagStats :=
  {| top_hashtags := most_common 20 (Counter String.eqb (all_tags "#" a));
     top_mentions := most_common 20 (Counter String.eqb (all_tags "@" a)) |}.

(** [t] is a tag of [text]: a non-empty run of word characters that
    follows [marker] in [text] and is not followed by a word character. *)
Definition tagged (marker : ascii) (t text : string) : Prop :=
  t <> EmptyString
  /\ all_chars Tags.is_word t = true
  /\ exists pre post,
       text = (pre ++ String marker t ++ post)%string
       /\ Tags.word_follows post = false.

(** The number of places of [text] where [marker] is followed by a word
    character. *)
Fixpoint marked_places (marker : ascii) (text : string) : nat :=
  match text with
  | EmptyString => 0
  | String c r =>
      (if Ascii.eqb c marker && Tags.word_follows r then 1 else 0)
      + marked_places marker r
  end.

(* ================================================================== *)
(** ** sentiment_analyzer.py *)
(* ================================================================== *)

(** A post or comment dict with the three keys [analyze_posts] and
    [analyze_comments] add to a copy of it. *)
Record Scored (A : Type) := {
  item : A;
  sentiment_polarity : Q;
  sentiment_subjectivity : Q;
  sentiment : string
}.

Record SentimentAnalyzer := {
  sa_posts_data : list PostInfo;
  sa_comments_data : list CommentInfo;
  posts_with_sentiment : list (Scored PostInfo);
  comments_with_sentiment : list (Scored CommentInfo)
}.

Definition new_sentiment_analyzer (posts_data : list PostInfo)
    (comments_data : list CommentInfo) : SentimentAnalyzer :=
  {| sa_posts_data := posts_data;
     sa_comments_data := comments_data;
     posts_with_sentiment := [];
     comments_with_sentiment := [] |}.

(** The float [0.1]: the double nearest to one tenth. *)
Definition tenth : Q := 3602879701896397 # 36028797018963968.

Definition Qlt_bool (x y : Q) : bool := negb (Qle_bool y x).

(** [text.strip() == '']. *)
Definition blank (text : string) : bool := all_chars Text.is_space text.

(** The three counts of [get_sentiment_distribution]; each percentage of
    the source is the float [round(count / total * 100, 2)] of the count
    beside it and is not kept here. *)
Record LabelCounts := {
  positive_count : nat;
  neutral_count : nat;
  negative_count : nat
}.

Inductive Call := AnalyzePosts | AnalyzeComments.

Definition call_eqb (x y : Call) : bool :=
  match x, y with
  | AnalyzePosts, AnalyzePosts | AnalyzeComments, AnalyzeComments => true
  | _, _ => false
  end.

(** One of the three labels. *)
Definition is_label (l : string) : bool :=
  String.eqb l "positive" || String.eqb l "neutral" || String.eqb l "negative".

(** The label agrees with the polarity. *)
Definition label_of_polarity (A : Type) (x : Scored A) : Prop :=
  (sentiment x = "positive" /\ (tenth < sentiment_polarity x)%Q)
  \/ (sentiment x = "negative" /\ (sentiment_polarity x < - tenth)%Q)
  \/ (sentiment x = "neutral"
      /\ (- tenth <= sentiment_polarity x)%Q
      /\ (sentiment_polarity x <= tenth)%Q).

Section Sentiment.

(** [TextBlob(text).sentiment]: polarity and subjectivity, or [None] when
    the library raises. *)
Variable textblob : string -> option (Q * Q).

Definition _analyze_text_sentiment (text : string) : Q * Q * string :=
  if negb (Str.truthy text) || blank text then (0%Q, 0%Q, "neutral")
  else
    match textblob text with
    | None => (0%Q, 0%Q, "neutral")
    | Some (polarity, subjectivity) =>
        let sentiment_label :=
          if Qlt_bool tenth polarity then "positive"
          else if Qlt_bool polarity (- tenth)%Q then "negative"
          else "neutral" in
        (polarity, subjectivity, sentiment_label)
    end.

Definition with_sentiment (A : Type) (text : A -> string) (x : A)
  : Scored A :=
  let '(polarity, subjectivity, sentiment) :=
    _analyze_text_sentiment (text x) in
  {| item := x;
     sentiment_polarity := polarity;
     sentiment_subjectivity := subjectivity;
     sentiment := sentiment |}.

Definition combined_text (post : PostInfo) : string :=
  (title post ++ " " ++ selftext post)%string.

(** [analyze_posts]: appends to [posts_with_sentiment] and returns it. *)
Definition analyze_posts (s : SentimentAnalyzer)
  : SentimentAnalyzer * list (Scored PostInfo) :=
  let result :=
    fold_left (fun acc post => acc ++ [with_sentiment combined_text post])
              (sa_posts_data s) (posts_with_sentiment s) in
  ({| sa_posts_data := sa_posts_data s;
      sa_comments_data := sa_comments_data s;
      posts_with_sentiment := result;
      comments_with_sentiment := comments_with_sentiment s |},
   result).

Definition analyze_comments (s : SentimentAnalyzer)
  : SentimentAnalyzer * list (Scored CommentInfo) :=
  let result :=
    fold_left (fun acc comment => acc ++ [with_sentiment body comment])
              (sa_comments_data s) (comments_with_sentiment s) in
  ({| sa_posts_data := sa_posts_data s;
      sa_comments_data := sa_comments_data s;
      posts_with_sentiment := posts_with_sentiment s;
      comments_with_sentiment := result |},
   result).

Definition call (c : Call) (s : SentimentAnalyzer) : SentimentAnalyzer :=
  match c with
  | AnalyzePosts => fst (analyze_posts s)
  | AnalyzeComments => fst (analyze_comments s)
  end.

(** The analyzer after a sequence of calls, first call first. *)
Definition after_calls (calls : list Call) (s : SentimentAnalyzer)
  : SentimentAnalyzer :=
  fold_left (fun s c => call c s) calls s.

End Sentiment.

Definition all_sentiments (s : SentimentAnalyzer) : list string :=
  map (@sentiment _) (posts_with_sentiment s)
  ++ map (@sentiment _) (comments_with_sentiment s).

Definition get_sentiment_distribution (s : SentimentAnalyzer) : LabelCounts :=
  let all_sentiments := all_sentiments s in
  let total := List.length all_sentiments in
  if (total =? 0)%nat
  then {| positive_count := 0; neutral_count := 0; negative_count := 0 |}
  else {| positive_count :=
            occurrences String.eqb "positive" all_sentiments;
          neutral_count :=
            occurrences String.eqb "neutral" all_sentiments;
          negative_count :=
            occurrences String.eqb "negative" all_sentiments |}.

(** The [subreddit] and [sentiment] columns of the frame
    [get_sentiment_by_subreddit] builds, posts first. *)
Definition sentiment_rows (s : SentimentAnalyzer) : list (string * string) :=
  map (fun p => (post_subreddit (item p), sentiment p))
      (posts_with_sentiment s)
  ++ map (fun c => (comment_subreddit (item c), sentiment c))
         (comments_with_sentiment s).

Definition row_eqb (x y : string * string) : bool :=
  String.eqb (fst x) (fst y) && String.eqb (snd x) (snd y).

Definition by_name_asc (x y : string * nat) : bool :=
  String.leb (fst x) (fst y).

(** [groupby(['subreddit', 'sentiment']).size().unstack(fill_value=0)] read
    row by row: one entry per subreddit, names ascending, and a count of 0
    for a label the subreddit has no row of. *)
Definition get_sentiment_by_subreddit (s : SentimentAnalyzer)
  : list (string * LabelCounts) :=
  let rows := sentiment_rows s in
  let index :=
    map fst (stable_sort by_name_asc (Counter String.eqb (map fst rows))) in
  map (fun subreddit =>
         (subreddit,
          {| positive_count :=
               occurrences row_eqb (subreddit, "positive") rows;
             neutral_count :=
               occurrences row_eqb (subreddit, "neutral") rows;
             negative_count :=
               occurrences row_eqb (subreddit, "negative") rows |}))
      index.
Lemma fromtimestamp_local utc_offset ts dt :
  Datetime.fromtimestamp utc_offset ts = Ok dt ->
  dt = Datetime.local utc_offset ts.
Proof.
  unfold Datetime.fromtimestamp.
  destruct (Datetime.read_clock utc_offset ts) as [dt0|e] eqn:E;
    [|discriminate].
  assert (H0 : dt0 = Datetime.local utc_offset ts).
  { unfold Datetime.read_clock in E.
    destruct (negb (Datetime.in_time_t ts)); [discriminate|].
    destruct (negb (Datetime.in_tm (Datetime.local utc_offset ts)));
      [discriminate|].
    destruct (negb (Datetime.in_years (Datetime.local utc_offset ts)));
      congruence. }
  destruct (Datetime.read_clock utc_offset (ts - Datetime.seconds_per_day))
    as [probe|e]; [|discriminate].
  cbv zeta.
  destruct (dt0 - probe - Datetime.seconds_per_day <? 0).
  - destruct (Datetime.read_clock utc_offset
                (ts + (dt0 - probe - Datetime.seconds_per_day)));
      congruence.
  - congruence.
Qed.

(** The window test returns exactly when [fromtimestamp] does. *)
Lemma is_in_date_range_returns cfg ts :
  (exists b, _is_in_date_range cfg ts = Ok b)
  <-> is_ok (Datetime.fromtimestamp (utc_offset cfg) ts) = true.
Proof.
  unfold _is_in_date_range.
  destruct (Datetime.fromtimestamp (utc_offset cfg) ts); simpl; split;
    try reflexivity; try discriminate; eauto.
  intros (b & H). discriminate.
Qed.

Lemma in_window_true cfg ts :
  in_window cfg ts = true <-> _is_in_date_range cfg ts = Ok true.
Proof.
  unfold in_window. destruct (_is_in_date_range cfg ts) as [[|]|e];
    split; congruence.
Qed.

Lemma outside_window_true cfg ts :
  outside_window cfg ts = true <-> _is_in_date_range cfg ts = Ok false.
Proof.
  unfold outside_window. destruct (_is_in_date_range cfg ts) as [[|]|e];
    simpl; split; congruence.
Qed.

Lemma in_window_fromtimestamp cfg ts :
  in_window cfg ts = true ->
  Datetime.fromtimestamp (utc_offset cfg) ts
  = Ok (Datetime.local (utc_offset cfg) ts).
Proof.
  unfold in_window, _is_in_date_range.
  destruct (Datetime.fromtimestamp (utc_offset cfg) ts) as [dt|] eqn:E;
    [|discriminate].
  intros _. now rewrite (fromtimestamp_local _ _ E).
Qed.

Lemma depth_cons n l : depth (n :: l) = Nat.max (depth_node n) (depth l).
Proof. reflexivity. Qed.

Lemma depth_node_replies k id b a t s p l :
  depth_node (MkNode k id b a t s p (Some l)) = S (depth l).
Proof. reflexivity. Qed.

Lemma depth_node_positive n : (1 <= depth_node n)%nat.
Proof. destruct n as [k id b a t s p [l|]]; simpl; lia. Qed.

Lemma depth_app l1 l2 : depth (l1 ++ l2) = Nat.max (depth l1) (depth l2).
Proof.
  induction l1 as [|n l1 IH]; [reflexivity|].
  rewrite <- app_comm_cons, !depth_cons, IH. lia.
Qed.

Section WalkFacts.

Variable cfg : Config.
Variables post_id subreddit : string.

Lemma extract_comment_unfold free k id b a t s p r acc :
  extract_comment cfg free post_id subreddit (MkNode k id b a t s p r) acc =
  if negb (k =? "t1")%string then (Normal, acc)
  else match collect_comment cfg free post_id subreddit id b a t s p acc with
       | (Raise e, acc1) => (Raise e, acc1)
       | (Normal, acc1) =>
           match r with
           | None => (Normal, acc1)
           | Some l =>
               match free with
               | O => (Raise RecursionError, acc1)
               | S free' =>
                   _extract_comments_recursive cfg free' l post_id subreddit
                                               acc1
               end
           end
       end.
Proof.
  simpl. destruct (negb (k =? "t1")%string); [reflexivity|].
  destruct (collect_comment cfg free post_id subreddit id b a t s p acc)
    as [[|e] acc1]; [|reflexivity].
  destruct r as [l|]; [|reflexivity].
  destruct free as [|free']; [reflexivity|].
  revert acc1. induction l as [|c rest IH]; intro acc1; [reflexivity|].
  simpl.
  destruct (extract_comment cfg free' post_id subreddit c acc1) as [[|e] a'].
  - apply IH.
  - reflexivity.
Qed.

(** The comment step appends at most one comment, in the window. *)
Lemma collect_comment_extends free id b a t s p acc :
  exists suffix,
    snd (collect_comment cfg free post_id subreddit id b a t s p acc)
    = acc ++ suffix
    /\ Forall (comment_in_window cfg) suffix.
Proof.
  unfold collect_comment.
  destruct b as [b|]; [|exists []; rewrite app_nil_r; auto].
  destruct (Str.truthy b); [|exists []; rewrite app_nil_r; auto].
  destruct id as [i|]; [|exists []; rewrite app_nil_r; auto].
  destruct t as [t|]; [|exists []; rewrite app_nil_r; auto].
  destruct (Datetime.fromtimestamp (utc_offset cfg) t) as [created_date|];
    [|exists []; rewrite app_nil_r; auto].
  destruct free as [|free']; [exists []; rewrite app_nil_r; auto|].
  destruct (_is_in_date_range cfg t) as [[|]|e] eqn:E.
  - eexists; split; [reflexivity|]. constructor; [exact E|constructor].
  - exists []; rewrite app_nil_r; auto.
  - exists []; rewrite app_nil_r; auto.
Qed.

(** A comment whose dict can be built, with a frame left for the window
    test. *)
Lemma collect_comment_well_formed free id b a t s p acc :
  readable_comment cfg id b t = true ->
  (1 <= free)%nat ->
  collect_comment cfg free post_id subreddit id b a t s p acc
  = (Normal,
     acc ++ own_comment cfg post_id subreddit (MkNode "t1" id b a t s p None)).
Proof.
  unfold collect_comment, own_comment, readable_comment. intros H Hfree.
  destruct b as [b|]; simpl in *.
  - destruct (Str.truthy b); simpl.
    + destruct id as [i|]; [|discriminate].
      destruct t as [t|]; [|discriminate]. simpl in H.
      unfold in_window, _is_in_date_range.
      destruct (Datetime.fromtimestamp (utc_offset cfg) t) as [dt|] eqn:E;
        [|discriminate].
      destruct free as [|free']; [lia|].
      rewrite (fromtimestamp_local _ _ E) in *.
      destruct ((start_datetime cfg <=? Datetime.local (utc_offset cfg) t)
                && (Datetime.local (utc_offset cfg) t <=? end_datetime cfg));
        [reflexivity|].
      now rewrite app_nil_r.
    + destruct id, t; now rewrite app_nil_r.
  - destruct id, t; now rewrite app_nil_r.
Qed.

Lemma own_comment_replies k id b a t s p r r' :
  own_comment cfg post_id subreddit (MkNode k id b a t s p r)
  = own_comment cfg post_id subreddit (MkNode k id b a t s p r').
Proof. reflexivity. Qed.

Lemma extract_list_preorder l :
  Forall (fun n => forall free,
                     well_formed cfg n = true ->
                     (depth_node n <= free)%nat ->
                     forall acc,
                       extract_comment cfg free post_id subreddit n acc
                       = (Normal,
                          acc ++ preorder_node cfg post_id subreddit n)) l ->
  forall free,
    forallb (well_formed cfg) l = true ->
    (depth l <= free)%nat ->
    forall acc,
      _extract_comments_recursive cfg free l post_id subreddit acc
      = (Normal, acc ++ preorder cfg post_id subreddit l).
Proof.
  induction 1 as [|c rest Hc _ IH]; intros free Hwf Hd acc; simpl.
  - now rewrite app_nil_r.
  - simpl in Hwf. apply andb_true_iff in Hwf as [Hwc Hwr].
    rewrite depth_cons in Hd.
    assert (Hdc : (depth_node c <= free)%nat) by lia.
    assert (Hdr : (depth rest <= free)%nat) by lia.
    rewrite (Hc free Hwc Hdc), (IH free Hwr Hdr).
    now rewrite <- app_assoc.
Qed.

(** On a well-formed tree that is no deeper than the frames left, the
    walk completes and appends exactly the pre-order listing. *)
Lemma extract_comment_preorder n :
  forall free,
    well_formed cfg n = true ->
    (depth_node n <= free)%nat ->
    forall acc,
      extract_comment cfg free post_id subreddit n acc
      = (Normal, acc ++ preorder_node cfg post_id subreddit n).
Proof.
  induction n as [k id b a t s p|k id b a t s p l IH]
    using CommentNode_tree_ind; intros free Hwf Hd acc;
    rewrite extract_comment_unfold; simpl in Hwf |- *;
    destruct (negb (k =? "t1")%string);
    try (now rewrite app_nil_r).
  - apply andb_true_iff in Hwf as [Hb _].
    rewrite (collect_comment_well_formed _ _ _ _ _ _ _ Hb Hd).
    now rewrite app_nil_r.
  - apply andb_true_iff in Hwf as [Hb Hl].
    rewrite depth_node_replies in Hd.
    assert (H1 : (1 <= free)%nat) by lia.
    rewrite (collect_comment_well_formed _ _ _ _ _ _ _ Hb H1).
    destruct free as [|free']; [lia|].
    assert (Hd' : (depth l <= free')%nat) by lia.
    rewrite (extract_list_preorder IH Hl Hd').
    now rewrite <- app_assoc.
Qed.

Lemma walk_preorder l free :
  forallb (well_formed cfg) l = true ->
  (depth l <= free)%nat ->
  forall acc,
    _extract_comments_recursive cfg free l post_id subreddit acc
    = (Normal, acc ++ preorder cfg post_id subreddit l).
Proof.
  intros Hwf Hd. apply extract_list_preorder; [|exact Hwf|exact Hd].
  apply Forall_forall. intros n _. apply extract_comment_preorder.
Qed.

(** Whatever the tree and the frames left, and whether or not the walk
    raises, the comments already collected stay and every comment added
    is in the window. *)
Lemma extract_comment_extends n :
  forall free acc, exists suffix,
    snd (extract_comment cfg free post_id subreddit n acc) = acc ++ suffix
    /\ Forall (comment_in_window cfg) suffix.
Proof.
  assert (Hlist : forall l,
    Forall (fun n => forall free acc, exists suffix,
      snd (extract_comment cfg free post_id subreddit n acc) = acc ++ suffix
      /\ Forall (comment_in_window cfg) suffix) l ->
    forall free acc, exists suffix,
      snd (_extract_comments_recursive cfg free l post_id subreddit acc)
      = acc ++ suffix /\ Forall (comment_in_window cfg) suffix).
  { induction 1 as [|c rest Hc _ IH]; intros free acc; simpl.
    - exists []. now rewrite app_nil_r.
    - destruct (Hc free acc) as (s1 & E1 & F1).
      destruct (extract_comment cfg free post_id subreddit c acc)
        as [[|e] a'] eqn:E; simpl in E1; subst a'.
      + destruct (IH free (acc ++ s1)) as (s2 & E2 & F2).
        exists (s1 ++ s2). rewrite E2, app_assoc. split; [reflexivity|].
        apply Forall_app; auto.
      + exists s1; auto. }
  induction n as [k id b a t s p|k id b a t s p l IH]
    using CommentNode_tree_ind; intros free acc;
    rewrite extract_comment_unfold;
    (destruct (negb (k =? "t1")%string);
     [exists []; now rewrite app_nil_r|]);
    destruct (collect_comment_extends free id b a t s p acc)
      as (s1 & E1 & F1);
    destruct (collect_comment cfg free post_id subreddit id b a t s p acc)
      as [[|e] acc1]; simpl in E1; subst acc1; simpl;
    try (exists s1; now auto).
  destruct free as [|free']; [exists s1; now auto|].
  destruct (Hlist l IH free' (acc ++ s1)) as (s2 & E2 & F2).
  exists (s1 ++ s2). rewrite E2, app_assoc. split; [reflexivity|].
  apply Forall_app; auto.
Qed.

Lemma walk_extends l :
  forall free acc, exists suffix,
    snd (_extract_comments_recursive cfg free l post_id subreddit acc)
    = acc ++ suffix /\ Forall (comment_in_window cfg) suffix.
Proof.
  induction l as [|c rest IH]; intros free acc; simpl.
  - exists []. now rewrite app_nil_r.
  - destruct (extract_comment_extends c free acc) as (s1 & E1 & F1).
    destruct (extract_comment cfg free post_id subreddit c acc)
      as [[|e] a'] eqn:E; simpl in E1; subst a'.
    + destruct (IH free (acc ++ s1)) as (s2 & E2 & F2).
      exists (s1 ++ s2). rewrite E2, app_assoc. split; [reflexivity|].
      apply Forall_app; auto.
    + exists s1; auto.
Qed.

End WalkFacts.

Section CrawlFacts.

Variable cfg : Config.
Variable server : list Request -> Request -> HttpOutcome.

Lemma extends_refl c : extends cfg c c.
Proof.
  exists [], [], []. rewrite !app_nil_r. repeat split; constructor.
Qed.

Lemma extends_trans c1 c2 c3 :
  extends cfg c1 c2 -> extends cfg c2 c3 -> extends cfg c1 c3.
Proof.
  intros (ps & cs & ev & Hp & Hc & Ht & Fp & Fc)
         (ps' & cs' & ev' & Hp' & Hc' & Ht' & Fp' & Fc').
  exists (ps ++ ps'), (cs ++ cs'), (ev ++ ev').
  rewrite Hp', Hc', Ht', Hp, Hc, Ht, !app_assoc.
  repeat split; apply Forall_app; auto.
Qed.

Lemma requests_of_app t u :
  requests_of (t ++ u) = requests_of t ++ requests_of u.
Proof. unfold requests_of. now rewrite flat_map_app. Qed.

Lemma sleeps_of_app t u : sleeps_of (t ++ u) = sleeps_of t ++ sleeps_of u.
Proof. unfold sleeps_of. now rewrite flat_map_app. Qed.

(** A request leaves the collections alone and is recorded once. *)
Lemma make_request_effect r c :
  let c' := snd (_make_request server r c) in
  posts_data c' = posts_data c
  /\ comments_data c' = comments_data c
  /\ requests_of (trace c') = requests_of (trace c) ++ [r]
  /\ exists ev, trace c' = trace c ++ ev.
Proof.
  unfold _make_request.
  destruct (server (requests_of (trace c)) r) as [|status body]; simpl.
  - rewrite requests_of_app. repeat split; eauto.
  - destruct (raise_for_status status); simpl; rewrite requests_of_app;
      repeat split; eauto.
Qed.

Lemma make_request_extends r c :
  extends cfg c (snd (_make_request server r c)).
Proof.
  destruct (make_request_effect r c) as (Hp & Hc & _ & ev & Ht).
  exists [], [], ev. rewrite !app_nil_r. repeat split; auto.
Qed.

Lemma make_request_search_requests r c :
  search_requests (snd (_make_request server r c))
  = search_requests c ++ (if is_search r then [r] else []).
Proof.
  unfold search_requests.
  destruct (make_request_effect r c) as (_ & _ & Hr & _).
  rewrite Hr, filter_app. simpl. now destruct (is_search r).
Qed.

Lemma fetch_comments_effect permalink post_id subreddit c :
  let c' := _fetch_comments cfg server permalink post_id subreddit c in
  posts_data c' = posts_data c
  /\ extends cfg c c'
  /\ search_requests c' = search_requests c.
Proof.
  unfold _fetch_comments.
  pose proof (make_request_effect (comments_request permalink) c) as He.
  pose proof (make_request_extends (comments_request permalink) c) as Hx.
  pose proof (make_request_search_requests (comments_request permalink) c)
    as Hs.
  destruct (_make_request server (comments_request permalink) c)
    as [data c1].
  simpl in He, Hx, Hs. rewrite app_nil_r in Hs.
  destruct He as (Hp & Hc & _ & _).
  assert (Hsame : posts_data c1 = posts_data c /\ extends cfg c c1
                  /\ search_requests c1 = search_requests c) by auto.
  destruct data as [[d|[|e0 [|[l|] rest]]]|]; try exact Hsame.
  destruct (walk_extends cfg post_id subreddit l (free_frames cfg)
              (comments_data c1))
    as (suffix & Es & Fs).
  destruct (_extract_comments_recursive cfg (free_frames cfg) l post_id
              subreddit (comments_data c1)) as [done cs].
  simpl in Es. subst cs. simpl.
  split; [exact Hp|]. split; [|exact Hs].
  apply extends_trans with c1; [exact Hx|].
  exists [], suffix, []. simpl. rewrite !app_nil_r.
  repeat split; auto.
Qed.

Lemma append_post_extends p c :
  post_in_window cfg p -> extends cfg c (append_post p c).
Proof.
  intro H. exists [p], [], []. simpl. rewrite !app_nil_r.
  repeat split; auto.
Qed.

Lemma added_posts_trans c1 c2 c3 :
  added_posts c1 c3 = added_posts c1 c2 + added_posts c2 c3.
Proof. unfold added_posts. lia. Qed.

Lemma added_posts_same c c' :
  posts_data c' = posts_data c -> added_posts c c' = 0.
Proof. unfold added_posts. intros ->. lia. Qed.

Lemma added_posts_append p c : added_posts c (append_post p c) = 1.
Proof. unfold added_posts. simpl. rewrite length_app. simpl. lia. Qed.

(** The loop is left with nothing added. *)
Ltac nothing_added :=
  repeat split;
  [apply extends_refl | unfold added_posts; lia | lia | auto ].

(** The [for] loop over one page: the collections only grow and stay in
    the window, no search request is made, and [collected_count] counts
    the posts added, never passing the limit. *)
Lemma for_posts_effect posts :
  forall n c,
    let '(_, n', c') := for_posts cfg server posts n c in
    extends cfg c c'
    /\ search_requests c' = search_requests c
    /\ added_posts c c' = n' - n
    /\ n <= n'
    /\ (n <= limit cfg -> n' <= limit cfg).
Proof.
  induction posts as [|post rest IH]; intros n c; simpl.
  - nothing_added.
  - destruct (n >=? limit cfg) eqn:Elim.
    { nothing_added. }
    destruct (s_created_utc post) as [created|].
    2:{ nothing_added. }
    destruct (_is_in_date_range cfg created) as [[|]|e] eqn:Ein; simpl.
    2:{ apply IH. }
    2:{ nothing_added. }
    destruct (s_id post) as [id|].
    2:{ nothing_added. }
    destruct (Datetime.fromtimestamp (utc_offset cfg) created)
      as [created_date|].
    2:{ nothing_added. }
    set (c1 := append_post (post_info post id created created_date) c).
    assert (H1 : extends cfg c c1) by (apply append_post_extends; exact Ein).
    assert (A1 : added_posts c c1 = 1) by apply added_posts_append.
    assert (S1 : search_requests c1 = search_requests c) by reflexivity.
    assert (Hlt : n < limit cfg) by lia.
    destruct (s_num_comments post) as [nc|].
    2:{ repeat split; auto; lia. }
    destruct (nc >? 0).
    + destruct (s_permalink post) as [permalink|].
      2:{ repeat split; auto; lia. }
      destruct (fetch_comments_effect permalink id
                  (dflt "" (s_subreddit post)) c1) as (Hp & Hx & Hs).
      set (c2 := _fetch_comments cfg server permalink id
                   (dflt "" (s_subreddit post)) c1) in *.
      specialize (IH (n + 1) c2).
      destruct (for_posts cfg server rest (n + 1) c2) as [[r n'] c'].
      destruct IH as (Ex & Es & Ea & Hle & Hb).
      repeat split.
      * eapply extends_trans; [exact H1|].
        eapply extends_trans; [exact Hx|exact Ex].
      * congruence.
      * rewrite (added_posts_trans c c1 c'), (added_posts_trans c1 c2 c').
        rewrite A1, (added_posts_same _ _ Hp), Ea. lia.
      * lia.
      * intros _. apply Hb. lia.
    + specialize (IH (n + 1) c1).
      destruct (for_posts cfg server rest (n + 1) c1) as [[r n'] c'].
      destruct IH as (Ex & Es & Ea & Hle & Hb).
      repeat split.
      * eapply extends_trans; [exact H1|exact Ex].
      * congruence.
      * rewrite (added_posts_trans c c1 c'), A1, Ea. lia.
      * lia.
      * intros _. apply Hb. lia.
Qed.

(** A page of collectable submissions is stored in order until the limit
    is met. *)
Lemma for_posts_collectable posts :
  Forall (fun s => collectable cfg s = true) posts ->
  forall n c,
    n <= limit cfg ->
    let '(r, n', c') := for_posts cfg server posts n c in
    r = Normal
    /\ n' = Z.min (n + Z.of_nat (List.length posts)) (limit cfg)
    /\ posts_data c'
       = posts_data c ++ map (info_of cfg) (firstn (Z.to_nat (n' - n)) posts).
Proof.
  induction 1 as [|post rest Hpost _ IH]; intros n c Hn; simpl.
  - repeat split; [lia|]. rewrite firstn_nil. simpl. now rewrite app_nil_r.
  - destruct (n >=? limit cfg) eqn:Elim.
    { assert (n = limit cfg) by lia. subst n.
      repeat split; [lia|]. rewrite Z.sub_diag. simpl. now rewrite app_nil_r. }
    unfold collectable in Hpost.
    apply andb_true_iff in Hpost as [Hpost Hnc].
    apply andb_true_iff in Hpost as [Hin Hid].
    destruct (s_created_utc post) as [created|] eqn:Ec; [|discriminate].
    rewrite (proj1 (in_window_true cfg created) Hin).
    destruct (s_id post) as [id|] eqn:Ei; [|discriminate].
    rewrite (in_window_fromtimestamp cfg created Hin).
    destruct (s_num_comments post) as [nc|]; [|discriminate].
    assert (Hinfo : post_info post id created
                              (Datetime.local (utc_offset cfg) created)
                    = info_of cfg post).
    { unfold info_of. now rewrite Ec, Ei. }
    rewrite Hinfo.
    assert (Hstep : forall c1,
      posts_data c1 = posts_data c ++ [info_of cfg post] ->
      let '(r, n', c') := for_posts cfg server rest (n + 1) c1 in
      r = Normal
      /\ n' = Z.min (n + Z.pos (Pos.of_succ_nat (List.length rest))) (limit cfg)
      /\ posts_data c'
         = posts_data c
           ++ map (info_of cfg) (firstn (Z.to_nat (n' - n)) (post :: rest))).
    { intros c1 H1. specialize (IH (n + 1) c1 ltac:(lia)).
      destruct (for_posts cfg server rest (n + 1) c1) as [[r n'] c'].
      destruct IH as (Hr & Hn' & Hp). repeat split; [exact Hr|lia|].
      rewrite Hp, H1, <- app_assoc. f_equal.
      replace (Z.to_nat (n' - n)) with (S (Z.to_nat (n' - (n + 1)))) by lia.
      reflexivity. }
    destruct (nc >? 0).
    + destruct (s_permalink post) as [permalink|]; [|discriminate].
      apply Hstep.
      now destruct (fetch_comments_effect permalink id
                      (dflt "" (s_subreddit post))
                      (append_post (info_of cfg post) c)) as (-> & _).
    + apply Hstep. reflexivity.
Qed.

(** One turn of the [while] loop. *)
Lemma paginate_S fuel name query n cursor c :
  paginate cfg server (S fuel) name query n cursor c =
  if n <? limit cfg then
    let (data, c1) :=
      _make_request server (search_request name query cursor) c in
    match data with
    | Some (JSearch (Some listing)) =>
        match dflt [] (children listing) with
        | [] => (Finished NoMorePosts, n, c1)
        | post :: rest =>
            match for_posts cfg server (post :: rest) n c1 with
            | (Raise e, n1, c2) => (Aborted e, n1, c2)
            | (Normal, n1, c2) =>
                if Str.truthy_opt (after listing)
                then paginate cfg server fuel name query n1 (after listing) c2
                else (Finished LastPage, n1, c2)
            end
        end
    | _ => (Finished FetchFailed, n, c1)
    end
  else (Finished LimitReached, n, c).
Proof. reflexivity. Qed.

(** The [while] loop: as for one page, and leaving through the loop
    condition means the limit has been met. *)
Lemma paginate_effect fuel name query :
  forall n cursor c,
    let '(out, n', c') := paginate cfg server fuel name query n cursor c in
    extends cfg c c'
    /\ added_posts c c' = n' - n
    /\ n <= n'
    /\ (n <= limit cfg -> n' <= limit cfg)
    /\ (out = Finished LimitReached -> limit cfg <= n').
Proof.
  induction fuel as [|fuel IH]; intros n cursor c.
  - simpl.
    repeat split; [apply extends_refl|unfold added_posts; lia|lia|auto
                   |intro; discriminate].
  - rewrite paginate_S.
    destruct (n <? limit cfg) eqn:Elim.
    2:{ repeat split; [apply extends_refl|unfold added_posts; lia|lia|auto
                       |lia]. }
    pose proof (make_request_effect (search_request name query cursor) c)
      as He.
    pose proof (make_request_extends (search_request name query cursor) c)
      as Hx.
    destruct (_make_request server (search_request name query cursor) c)
      as [data c1].
    simpl in He, Hx. destruct He as (Hp & _).
    assert (A1 : added_posts c c1 = 0) by now apply added_posts_same.
    assert (Hstop : forall why, why <> LimitReached ->
      extends cfg c c1 /\ added_posts c c1 = n - n /\ n <= n
      /\ (n <= limit cfg -> n <= limit cfg)
      /\ (Finished why = Finished LimitReached -> limit cfg <= n)).
    { intros why Hwhy. repeat split; auto; try lia. congruence. }
    destruct data as [[[listing|]|elems]|];
      try (apply Hstop; discriminate).
    destruct (dflt [] (children listing)) as [|post rest];
      [apply Hstop; discriminate|].
    pose proof (for_posts_effect (post :: rest) n c1) as Hf.
    destruct (for_posts cfg server (post :: rest) n c1) as [[r n1] c2].
    destruct Hf as (Ex & _ & Ea & Hle & Hb).
    assert (Hx2 : extends cfg c c2) by (eapply extends_trans; eauto).
    assert (A2 : added_posts c c2 = n1 - n).
    { rewrite (added_posts_trans c c1 c2), A1, Ea. lia. }
    destruct r as [|e].
    2:{ repeat split; auto; intros; (discriminate || lia). }
    destruct (Str.truthy_opt (after listing)).
    2:{ repeat split; auto; intros; (discriminate || lia). }
    specialize (IH n1 (after listing) c2).
    destruct (paginate cfg server fuel name query n1 (after listing) c2)
      as [[out n'] c'].
    destruct IH as (Ex' & Ea' & Hle' & Hb' & Hl').
    repeat split.
    + eapply extends_trans; eauto.
    + rewrite (added_posts_trans c c2 c'), A2, Ea'. lia.
    + lia.
    + intro H. apply Hb', Hb, H.
    + exact Hl'.
Qed.

Lemma search_subreddit_effect fuel name query c :
  let '(out, c') := _search_subreddit cfg server fuel name query c in
  extends cfg c c'
  /\ (0 <= limit cfg -> added_posts c c' <= limit cfg)
  /\ (0 <= limit cfg -> out = Finished LimitReached ->
      added_posts c c' = limit cfg).
Proof.
  unfold _search_subreddit.
  pose proof (paginate_effect fuel name query 0 None c) as H.
  destruct (paginate cfg server fuel name query 0 None c) as [[out n'] c'].
  destruct H as (Ex & Ea & Hle & Hb & Hl).
  repeat split; [exact Ex|intro; lia|].
  intros H0 Hout. specialize (Hb H0). specialize (Hl Hout). lia.
Qed.

(** The loop over the forums only adds to the collections. *)
Lemma for_subreddits_extends fuel names :
  forall c final,
    for_subreddits cfg server fuel names c = Some final ->
    extends cfg c final.
Proof.
  induction names as [|name rest IH]; intros c final; simpl.
  - intros [= ->]. apply extends_refl.
  - pose proof (search_subreddit_effect fuel name (search_query cfg) c) as H.
    destruct (_search_subreddit cfg server fuel name (search_query cfg) c)
      as [[why|e|] c']; destruct H as (Ex & _); intro Hrun;
      try discriminate;
      (eapply extends_trans; [exact Ex|apply IH; exact Hrun]).
Qed.

Lemma for_subreddits_app fuel before :
  forall rest c,
    for_subreddits cfg server fuel (before ++ rest) c
    = match for_subreddits cfg server fuel before c with
      | Some c' => for_subreddits cfg server fuel rest c'
      | None => None
      end.
Proof.
  induction before as [|name before IH]; intros rest c; simpl;
    [reflexivity|].
  destruct (_search_subreddit cfg server fuel name (search_query cfg) c)
    as [[why|e|] c']; auto.
Qed.

End CrawlFacts.

(* ================================================================== *)
(** ** Sorting and counting *)
(* ================================================================== *)

Section SortFacts.

Variable A : Type.
Variable first : A -> A -> bool.

Lemma insert_sorted_perm x l :
  Permutation (insert_sorted first x l) (x :: l).
Proof.
  induction l as [|y r IH]; simpl; [reflexivity|].
  destruct (first x y); [reflexivity|].
  rewrite IH. apply perm_swap.
Qed.

Lemma stable_sort_perm l : Permutation (stable_sort first l) l.
Proof.
  induction l as [|x r IH]; simpl; [reflexivity|].
  rewrite insert_sorted_perm. now constructor.
Qed.

Lemma stable_sort_length l : List.length (stable_sort first l) = List.length l.
Proof. apply Permutation_length, stable_sort_perm. Qed.

Hypothesis first_total : forall x y, first x y = false -> first y x = true.
Hypothesis first_trans :
  forall x y z, first x y = true -> first y z = true -> first x z = true.

Lemma insert_sorted_sorted x l :
  StronglySorted (fun a b => first a b = true) l ->
  StronglySorted (fun a b => first a b = true) (insert_sorted first x l).
Proof.
  induction 1 as [|y r Hr IH Hy]; simpl.
  - constructor; constructor.
  - destruct (first x y) eqn:E.
    + constructor; [constructor; assumption|].
      constructor; [exact E|].
      eapply Forall_impl; [|exact Hy]. intros z Hz. eapply first_trans; eauto.
    + constructor; [exact IH|].
      assert (Hp : Permutation (x :: r) (insert_sorted first x r))
        by (symmetry; apply insert_sorted_perm).
      apply (Permutation_Forall Hp).
      constructor; [now apply first_total|exact Hy].
Qed.

Lemma stable_sort_sorted l :
  StronglySorted (fun a b => first a b = true) (stable_sort first l).
Proof.
  induction l as [|x r IH]; simpl; [constructor|].
  now apply insert_sorted_sorted.
Qed.

End SortFacts.

Lemma Forall_forallb {A} (f : A -> bool) (l : list A) :
  forallb f l = true -> Forall (fun x => f x = true) l.
Proof.
  intro H. apply Forall_forall. now apply forallb_forall.
Qed.

Lemma firstn_incl {A} (n : nat) (l : list A) (x : A) :
  In x (firstn n l) -> In x l.
Proof.
  intro H. rewrite <- (firstn_skipn n l). apply in_or_app. now left.
Qed.

Lemma StronglySorted_firstn {A} (R : A -> A -> Prop) n l :
  StronglySorted R l -> StronglySorted R (firstn n l).
Proof.
  intro H. revert n. induction H as [|x l Hl IH Hx]; intro n.
  - rewrite firstn_nil. constructor.
  - destruct n as [|n]; simpl; [constructor|].
    constructor; [apply IH|].
    apply Forall_forall. intros y Hy.
    rewrite Forall_forall in Hx. apply Hx.
    revert Hy. clear. revert n. induction l as [|z l IH]; intros n Hy.
    + rewrite firstn_nil in Hy. destruct Hy.
    + destruct n; simpl in Hy; [destruct Hy|].
      destruct Hy as [->|Hy]; [now left|right; eauto].
Qed.

Section CountFacts.

Variable K : Type.
Variable eqb : K -> K -> bool.
Hypothesis eqb_spec : forall x y, eqb x y = true <-> x = y.

Lemma total_app (l1 l2 : list (K * nat)) :
  total (l1 ++ l2) = (total l1 + total l2)%nat.
Proof. induction l1 as [|kv r IH]; simpl; [reflexivity|]. rewrite IH. lia. Qed.

Lemma total_perm (l1 l2 : list (K * nat)) :
  Permutation l1 l2 -> total l1 = total l2.
Proof. induction 1; simpl; lia. Qed.

Lemma total_increment k (counter : list (K * nat)) :
  total (increment eqb k counter) = S (total counter).
Proof.
  induction counter as [|[k' n] r IH]; simpl; [reflexivity|].
  destruct (eqb k' k); simpl; [reflexivity|]. rewrite IH. lia.
Qed.

Lemma total_fold l : forall counter : list (K * nat),
  total (fold_left (fun c k => increment eqb k c) l counter)
  = (total counter + List.length l)%nat.
Proof.
  induction l as [|k r IH]; intro counter; simpl; [lia|].
  rewrite IH, total_increment. lia.
Qed.

(** A counter holds one count per element counted. *)
Lemma total_Counter l : total (Counter eqb l) = List.length l.
Proof. unfold Counter. now rewrite total_fold. Qed.

Lemma increment_positive k (counter : list (K * nat)) :
  Forall (fun kv => (1 <= snd kv)%nat) counter ->
  Forall (fun kv => (1 <= snd kv)%nat) (increment eqb k counter).
Proof.
  induction 1 as [|[k' n] r Hn Hr IH]; simpl.
  - constructor; [simpl; lia|constructor].
  - destruct (eqb k' k); constructor; simpl in *; auto; lia.
Qed.

Lemma Counter_positive l :
  Forall (fun kv => (1 <= snd kv)%nat) (Counter eqb l).
Proof.
  unfold Counter.
  assert (H : forall counter : list (K * nat),
             Forall (fun kv => (1 <= snd kv)%nat) counter ->
             Forall (fun kv => (1 <= snd kv)%nat)
                    (fold_left (fun c k => increment eqb k c) l counter)).
  { induction l as [|k r IH]; intros counter Hc; simpl; [exact Hc|].
    apply IH, increment_positive, Hc. }
  apply H. constructor.
Qed.

Lemma increment_keys k (counter : list (K * nat)) :
  map fst (increment eqb k counter)
  = if existsb (fun k' => eqb k' k) (map fst counter)
    then map fst counter
    else map fst counter ++ [k].
Proof.
  induction counter as [|[k' n] r IH]; simpl; [reflexivity|].
  destruct (eqb k' k); simpl; [reflexivity|].
  rewrite IH. now destruct (existsb (fun k'0 => eqb k'0 k) (map fst r)).
Qed.

Lemma existsb_eqb_In k (keys : list K) :
  existsb (fun k' => eqb k' k) keys = true <-> In k keys.
Proof.
  rewrite existsb_exists. split.
  - intros (x & Hx & E). apply eqb_spec in E. now subst.
  - intro H. exists k. split; [exact H|]. now apply eqb_spec.
Qed.

(** The keys of a counter are the distinct elements counted. *)
Lemma Counter_keys l :
  NoDup (map fst (Counter eqb l))
  /\ forall k, In k (map fst (Counter eqb l)) <-> In k l.
Proof.
  unfold Counter.
  assert (H : forall counter : list (K * nat),
    NoDup (map fst counter) ->
    NoDup (map fst (fold_left (fun c k => increment eqb k c) l counter))
    /\ forall k,
         In k (map fst (fold_left (fun c k => increment eqb k c) l counter))
         <-> In k (map fst counter) \/ In k l).
  { induction l as [|x r IH]; intros counter Hnd; simpl.
    - split; [exact Hnd|]. intro k. tauto.
    - destruct (IH (increment eqb x counter)) as (Hnd' & Hin').
      + rewrite increment_keys.
        destruct (existsb (fun k' => eqb k' x) (map fst counter)) eqn:E;
          [exact Hnd|].
        apply NoDup_app; [exact Hnd|repeat constructor; auto|].
        intros y Hy [->|[]].
        apply existsb_eqb_In in Hy. congruence.
      + split; [exact Hnd'|]. intro k. rewrite Hin', increment_keys.
        destruct (existsb (fun k' => eqb k' x) (map fst counter)) eqn:E.
        * apply existsb_eqb_In in E. split; [tauto|].
          intros [H|[->|H]]; auto.
        * rewrite in_app_iff. simpl. tauto. }
  destruct (H [] (NoDup_nil _)) as (Hnd & Hin).
  split; [exact Hnd|]. intro k. rewrite Hin. simpl. tauto.
Qed.

Lemma total_firstn_skipn n (l : list (K * nat)) :
  (total (firstn n l) + total (skipn n l))%nat = total l.
Proof. now rewrite <- total_app, firstn_skipn. Qed.

Lemma total_positive (l : list (K * nat)) :
  Forall (fun kv => (1 <= snd kv)%nat) l -> l <> [] -> (1 <= total l)%nat.
Proof. intros [|kv r Hkv _] Hne; [congruence|]. simpl. lia. Qed.

(** Truncating a ranking of positive counts loses nothing exactly when
    nothing is cut off. *)
Lemma total_firstn n (l : list (K * nat)) :
  Forall (fun kv => (1 <= snd kv)%nat) l ->
  (total (firstn n l) <= total l)%nat
  /\ (total (firstn n l) = total l <-> (List.length l <= n)%nat).
Proof.
  intro Hpos. pose proof (total_firstn_skipn n l) as Hsum.
  split; [lia|]. split.
  - intro Heq.
    destruct (Nat.le_gt_cases (List.length l) n) as [|Hlt]; [assumption|].
    assert (Hne : skipn n l <> []).
    { intro E. apply (f_equal (@List.length _)) in E.
      rewrite length_skipn in E. simpl in E. lia. }
    assert (Hp : Forall (fun kv => (1 <= snd kv)%nat) (skipn n l)).
    { rewrite Forall_forall in *. intros kv Hkv. apply Hpos.
      rewrite <- (firstn_skipn n l). apply in_or_app. now right. }
    pose proof (total_positive Hp Hne). lia.
  - intro Hle. now rewrite firstn_all2.
Qed.

End CountFacts.

(* ================================================================== *)
(** ** The comment-tree walker *)
(* ================================================================== *)

Section WalkClaims.

Variable cfg : Config.
Variables post_id subreddit : string.

Lemma chain_well_formed replies :
  Forall (fun r => reply_kept cfg r = true) replies ->
  forallb (well_formed cfg) (chain replies) = true.
Proof.
  induction 1 as [|r rest Hr _ IH]; [reflexivity|].
  unfold reply_kept in Hr. apply andb_true_iff in Hr as [Hb Ht].
  cbn [chain forallb well_formed negb String.eqb Ascii.eqb Bool.eqb].
  unfold readable_comment. cbn [Str.truthy_opt is_some].
  rewrite Hb, (in_window_fromtimestamp cfg _ Ht). cbn [is_some andb].
  destruct rest as [|r' rest']; [reflexivity|].
  now rewrite IH.
Qed.

Lemma preorder_cons n l :
  preorder cfg post_id subreddit (n :: l)
  = preorder_node cfg post_id subreddit n ++ preorder cfg post_id subreddit l.
Proof. reflexivity. Qed.

Lemma preorder_node_comment id b a t s p r :
  preorder_node cfg post_id subreddit (MkNode "t1" id b a t s p r)
  = own_comment cfg post_id subreddit (MkNode "t1" id b a t s p None)
    ++ match r with
       | Some l => preorder cfg post_id subreddit l
       | None => []
       end.
Proof. destruct r; reflexivity. Qed.

Lemma chain_cons r rest :
  chain (r :: rest)
  = [MkNode "t1" (Some (r_id r)) (Some (r_body r)) (r_author r)
            (Some (r_created_utc r)) (r_score r) (r_permalink r)
            (match rest with [] => None | _ :: _ => Some (chain rest) end)].
Proof. reflexivity. Qed.

Lemma chain_preorder replies :
  Forall (fun r => reply_kept cfg r = true) replies ->
  preorder cfg post_id subreddit (chain replies)
  = map (reply_info cfg post_id subreddit) replies.
Proof.
  induction 1 as [|r rest Hr _ IH]; [reflexivity|].
  unfold reply_kept in Hr.
  rewrite chain_cons, preorder_cons, preorder_node_comment.
  assert (Hown : own_comment cfg post_id subreddit
                   (MkNode "t1" (Some (r_id r)) (Some (r_body r)) (r_author r)
                           (Some (r_created_utc r)) (r_score r)
                           (r_permalink r) None)
                 = [reply_info cfg post_id subreddit r]).
  { cbn [own_comment]. now rewrite Hr. }
  rewrite Hown.
  destruct rest as [|r' rest']; [reflexivity|].
  rewrite IH. simpl. now rewrite app_nil_r.
Qed.

Lemma chain_depth replies : depth (chain replies) = List.length replies.
Proof.
  induction replies as [|r rest IH]; [reflexivity|].
  destruct rest as [|r' rest']; [reflexivity|].
  change (depth (chain (r :: r' :: rest')))
    with (Nat.max (S (depth (chain (r' :: rest')))) 0).
  rewrite IH. simpl. reflexivity.
Qed.

(** C8.  A thread that is a chain of depth 50, one reply under every
    comment, all comments with a non-empty body and inside the window,
    walked with the 50 frames it needs: the walk completes and appends
    exactly the 50 comments, the comment at depth [i] in position [i], so
    every parent comes before its child. *)
Theorem walk_chain_of_fifty (free : nat) (replies : list Reply)
    (acc : list CommentInfo) :
  List.length replies = 50%nat ->
  Forall (fun r => reply_kept cfg r = true) replies ->
  (50 <= free)%nat ->
  depth (chain replies) = 50%nat
  /\ _extract_comments_recursive cfg free (chain replies) post_id subreddit
                                 acc
     = (Normal, acc ++ map (reply_info cfg post_id subreddit) replies)
  /\ List.length (map (reply_info cfg post_id subreddit) replies) = 50%nat.
Proof.
  intros Hlen Hkept Hfree. split; [|split].
  - now rewrite chain_depth.
  - assert (Hd : (depth (chain replies) <= free)%nat)
      by (rewrite chain_depth; lia).
    rewrite (@walk_preorder cfg post_id subreddit _ _
                            (chain_well_formed Hkept) Hd).
    now rewrite chain_preorder.
  - now rewrite length_map.
Qed.






End WalkClaims.

Lemma walk_chain_of_fifty_witness :
  depth (chain Sample.fifty_replies) = 50%nat
  /\ _extract_comments_recursive Sample.cfg0 989
                                 (chain Sample.fifty_replies) "p1" "apple" []
     = (Normal,
        [] ++ map (reply_info Sample.cfg0 "p1" "apple") Sample.fifty_replies)
  /\ List.length (map (reply_info Sample.cfg0 "p1" "apple")
                      Sample.fifty_replies) = 50%nat.
Proof.
  apply walk_chain_of_fifty.
  - reflexivity.
  - apply Forall_forallb. vm_compute. reflexivity.
  - lia.
Defined.




(* ================================================================== *)
(** ** The fetcher *)
(* ================================================================== *)

Section FetchFacts.

Variable server : list Request -> Request -> HttpOutcome.

(** A request that succeeds is followed by the delay. *)
Lemma make_request_ok r c status body :
  server (requests_of (trace c)) r = Response status body ->
  raise_for_status status = false ->
  _make_request server r c
  = (Some body, log [EvGet r; EvSleep request_delay] c).
Proof. unfold _make_request. now intros -> ->. Qed.

(** A request that fails in transport or with an error status returns
    [None] at once: the trace gets the request and nothing else. *)
Lemma make_request_failed r c :
  server (requests_of (trace c)) r = ConnectionError
  \/ (exists status body,
        server (requests_of (trace c)) r = Response status body
        /\ raise_for_status status = true) ->
  _make_request server r c = (None, log [EvGet r] c).
Proof.
  unfold _make_request.
  intros [->|(status & body & -> & ->)]; reflexivity.
Qed.

Lemma search_requests_log ev c :
  search_requests (log ev c)
  = search_requests c ++ filter is_search (requests_of ev).
Proof.
  unfold search_requests. simpl. now rewrite requests_of_app, filter_app.
Qed.

End FetchFacts.

(** C3.  A request that fails in transport or is answered with an error
    status returns [None] with no delay: the trace gains the request and
    no sleep, so the next request can start at once.  (A request that
    succeeds is followed by the delay, [make_request_ok].) *)
Theorem failed_requests_are_not_delayed
    (server : list Request -> Request -> HttpOutcome)
    (r : Request) (c : Crawler) :
  server (requests_of (trace c)) r = ConnectionError
  \/ (exists status body,
        server (requests_of (trace c)) r = Response status body
        /\ raise_for_status status = true) ->
  fst (_make_request server r c) = None
  /\ trace (snd (_make_request server r c)) = trace c ++ [EvGet r]
  /\ sleeps_of (trace (snd (_make_request server r c)))
     = sleeps_of (trace c).
Proof.
  intro Hfail. rewrite (make_request_failed server r c Hfail). simpl.
  repeat split. rewrite sleeps_of_app. simpl. now rewrite app_nil_r.
Qed.

(** Two requests in a row to an endpoint that answers 429: no delay
    between them nor after them. *)
Lemma failed_requests_are_not_delayed_witness :
  fst (_make_request Sample.throttled Sample.first_page new_crawler) = None
  /\ fst (_make_request Sample.throttled Sample.first_page
            (snd (_make_request Sample.throttled Sample.first_page
                    new_crawler))) = None
  /\ trace (snd (_make_request Sample.throttled Sample.first_page
                   (snd (_make_request Sample.throttled Sample.first_page
                           new_crawler))))
     = [EvGet Sample.first_page; EvGet Sample.first_page]
  /\ sleeps_of (trace (snd (_make_request Sample.three_pages
                              Sample.first_page new_crawler)))
     = [request_delay].
Proof.
  assert (Hfail : forall c,
            Sample.throttled (requests_of (trace c)) Sample.first_page
            = ConnectionError
            \/ (exists status body,
                  Sample.throttled (requests_of (trace c)) Sample.first_page
                  = Response status body
                  /\ raise_for_status status = true)).
  { intro c. right. exists 429, (JSearch None). split; reflexivity. }
  destruct (failed_requests_are_not_delayed Sample.throttled
              Sample.first_page new_crawler (Hfail _)) as (N1 & T1 & _).
  destruct (failed_requests_are_not_delayed Sample.throttled
              Sample.first_page _ (Hfail (snd (_make_request Sample.throttled
                                      Sample.first_page new_crawler))))
    as (N2 & T2 & _).
  split; [exact N1|]. split; [exact N2|]. split; [|reflexivity].
  rewrite T2, T1. reflexivity.
Defined.

(* ================================================================== *)
(** ** The date window *)
(* ================================================================== *)

Lemma is_in_date_range_iff cfg ts :
  _is_in_date_range cfg ts = Ok true <->
  exists dt,
    Datetime.fromtimestamp (utc_offset cfg) ts = Ok dt
    /\ start_datetime cfg <= dt <= end_datetime cfg.
Proof.
  unfold _is_in_date_range.
  destruct (Datetime.fromtimestamp (utc_offset cfg) ts) as [dt|]; split.
  - intros [= H]. exists dt. apply andb_true_iff in H.
    rewrite !Z.leb_le in H. split; [reflexivity|lia].
  - intros (dt' & [= <-] & H). f_equal.
    apply andb_true_iff. rewrite !Z.leb_le. lia.
  - discriminate.
  - intros (dt' & H & _). discriminate.
Qed.

(** Whatever the endpoint sends, every post and every comment of the
    collection passed the window test. *)
Lemma date_window_invariant cfg server fuel c :
  search_posts cfg server fuel new_crawler = Some c ->
  Forall (post_in_window cfg) (posts_data c)
  /\ Forall (comment_in_window cfg) (comments_data c).
Proof.
  intro H. apply for_subreddits_extends in H.
  destruct H as (ps & cs & ev & -> & -> & _ & Fp & Fc). simpl. auto.
Qed.

(** C1.  A timestamp that falls on the last day of the window later than
    00:00:00 (local time) fails the window test, and no run collects a
    post or a comment made at that time: of the day [end_date] the window
    holds the first instant only. *)
Theorem last_day_of_window_is_rejected
    (cfg : Config) (server : list Request -> Request -> HttpOutcome)
    (fuel : nat) (ts dt : Z) :
  Datetime.fromtimestamp (utc_offset cfg) ts = Ok dt ->
  Datetime.on_day (end_date cfg) dt ->
  dt <> end_datetime cfg ->
  _is_in_date_range cfg ts = Ok false
  /\ forall c,
       search_posts cfg server fuel new_crawler = Some c ->
       (forall p, In p (posts_data c) -> post_created_utc p <> ts)
       /\ (forall k, In k (comments_data c) -> comment_created_utc k <> ts).
Proof.
  intros Hdt [Hday _] Hlater.
  assert (Hout : _is_in_date_range cfg ts = Ok false).
  { unfold _is_in_date_range. rewrite Hdt. f_equal.
    apply andb_false_iff. right. apply Z.leb_gt.
    unfold end_datetime in *. lia. }
  split; [exact Hout|].
  intros c Hrun. destruct (date_window_invariant _ _ _ Hrun) as (Fp & Fc).
  rewrite Forall_forall in Fp, Fc. split.
  - intros p Hp E. specialize (Fp p Hp). unfold post_in_window in Fp.
    congruence.
  - intros k Hk E. specialize (Fc k Hk). unfold comment_in_window in Fc.
    congruence.
Qed.

(** Window 01/01/2024 .. 31/01/2024 and a forum holding one submission
    made at noon of 31/01/2024: the run collects nothing.  The first
    instant of that day passes the test, and so does the last second of
    the first day. *)
Lemma last_day_of_window_is_rejected_witness :
  _is_in_date_range Sample.one_forum Sample.noon_of_jan_31 = Ok false
  /\ search_posts Sample.one_forum Sample.noon_of_last_day 3 new_crawler
     = Some (log [EvGet Sample.first_page; EvSleep request_delay] new_crawler)
  /\ _is_in_date_range Sample.one_forum
       (Sample.local Sample.one_forum Sample.jan_31 0 0 0) = Ok true
  /\ _is_in_date_range Sample.one_forum
       (Sample.local Sample.one_forum Sample.jan_1 23 59 59) = Ok true.
Proof.
  assert (Hdt : Datetime.fromtimestamp (utc_offset Sample.one_forum)
                  Sample.noon_of_jan_31
                = Ok (Datetime.at_time Sample.jan_31 12 0 0))
    by reflexivity.
  assert (Hday : Datetime.on_day (end_date Sample.one_forum)
                   (Datetime.at_time Sample.jan_31 12 0 0)).
  { unfold Datetime.on_day. vm_compute. split; [discriminate|reflexivity]. }
  assert (Hlater : Datetime.at_time Sample.jan_31 12 0 0
                   <> end_datetime Sample.one_forum).
  { vm_compute. discriminate. }
  destruct (@last_day_of_window_is_rejected Sample.one_forum
              Sample.noon_of_last_day 3 Sample.noon_of_jan_31 _ Hdt Hday
              Hlater)
    as (Hout & _).
  split; [exact Hout|]. repeat split; reflexivity.
Defined.

(* ================================================================== *)
(** ** Pagination of one forum *)
(* ================================================================== *)

Section SearchClaims.

Variable cfg : Config.
Variable server : list Request -> Request -> HttpOutcome.
Variables name query : string.

Lemma search_requests_after_request cursor c :
  search_requests (log [EvGet (search_request name query cursor); EvSleep request_delay] c)
  = search_requests c ++ [search_request name query cursor].
Proof. now rewrite search_requests_log. Qed.

(** The loop condition fails: no request is made. *)
Lemma paginate_at_limit fuel n cursor c :
  limit cfg <= n ->
  paginate cfg server (S fuel) name query n cursor c
  = (Finished LimitReached, n, c).
Proof.
  intro H. rewrite paginate_S.
  destruct (n <? limit cfg) eqn:E; [lia|reflexivity].
Qed.

(** The fetch fails: no further page is asked for. *)
Lemma paginate_fetch_failed fuel n cursor c :
  n < limit cfg ->
  server (requests_of (trace c)) (search_request name query cursor) = ConnectionError
  \/ (exists status body,
        server (requests_of (trace c)) (search_request name query cursor) = Response status body
        /\ raise_for_status status = true) ->
  paginate cfg server (S fuel) name query n cursor c
  = (Finished FetchFailed, n, log [EvGet (search_request name query cursor)] c).
Proof.
  intros Hn Hfail. rewrite paginate_S.
  destruct (n <? limit cfg) eqn:E; [|lia].
  now rewrite (make_request_failed server _ _ Hfail).
Qed.

(** The page has no results: no further page is asked for. *)
Lemma paginate_no_results fuel n cursor c next :
  n < limit cfg ->
  server (requests_of (trace c)) (search_request name query cursor) = page [] next ->
  paginate cfg server (S fuel) name query n cursor c
  = (Finished NoMorePosts, n,
     log [EvGet (search_request name query cursor); EvSleep request_delay] c).
Proof.
  intros Hn Hpage. rewrite paginate_S.
  destruct (n <? limit cfg) eqn:E; [|lia].
  now rewrite (make_request_ok server _ _ Hpage eq_refl).
Qed.

(** The page has no cursor: its posts are processed and no further page
    is asked for. *)
Lemma paginate_no_cursor fuel n cursor c posts next :
  n < limit cfg ->
  server (requests_of (trace c)) (search_request name query cursor) = page posts next ->
  posts <> [] ->
  Str.truthy_opt next = false ->
  let '(out, _, c') := paginate cfg server (S fuel) name query n cursor c in
  (out = Finished LastPage \/ exists e, out = Aborted e)
  /\ search_requests c' = search_requests c ++ [search_request name query cursor].
Proof.
  intros Hn Hpage Hposts Hnext. rewrite paginate_S.
  destruct (n <? limit cfg) eqn:E; [|lia].
  rewrite (make_request_ok server _ _ Hpage eq_refl).
  cbn [children after dflt].
  destruct posts as [|post rest]; [congruence|].
  pose proof (for_posts_effect cfg server (post :: rest) n
                (log [EvGet (search_request name query cursor); EvSleep request_delay] c))
    as Hf.
  destruct (for_posts cfg server (post :: rest) n
              (log [EvGet (search_request name query cursor); EvSleep request_delay] c))
    as [[r n1] c2].
  destruct Hf as (_ & Hs & _).
  rewrite search_requests_after_request in Hs.
  destruct r as [|e]; [rewrite Hnext|]; split; eauto.
Qed.

(** One page of collectable submissions. *)
Lemma paginate_collectable_page fuel n cursor c posts next :
  n < limit cfg ->
  server (requests_of (trace c)) (search_request name query cursor) = page posts next ->
  posts <> [] ->
  Forall (fun s => collectable cfg s = true) posts ->
  exists c2,
    paginate cfg server (S fuel) name query n cursor c
    = (if Str.truthy_opt next
       then paginate cfg server fuel name query
                     (Z.min (n + Z.of_nat (List.length posts)) (limit cfg))
                     next c2
       else (Finished LastPage,
             Z.min (n + Z.of_nat (List.length posts)) (limit cfg), c2))
    /\ posts_data c2
       = posts_data c
         ++ map (info_of cfg)
                (firstn (Z.to_nat (Z.min (n + Z.of_nat (List.length posts))
                                         (limit cfg) - n)) posts)
    /\ search_requests c2 = search_requests c ++ [search_request name query cursor].
Proof.
  intros Hn Hpage Hposts Hall. rewrite paginate_S.
  destruct (n <? limit cfg) eqn:E; [|lia].
  rewrite (make_request_ok server _ _ Hpage eq_refl).
  cbn [children after dflt].
  destruct posts as [|post rest]; [congruence|].
  set (c1 := log [EvGet (search_request name query cursor); EvSleep request_delay] c).
  pose proof (for_posts_effect cfg server (post :: rest) n c1) as Hf.
  pose proof (@for_posts_collectable cfg server _ Hall n c1 ltac:(lia)) as Hc.
  destruct (for_posts cfg server (post :: rest) n c1) as [[r n1] c2].
  destruct Hf as (_ & Hs & _). destruct Hc as (-> & -> & Hp).
  exists c2. split; [reflexivity|]. split; [exact Hp|].
  rewrite Hs. apply search_requests_after_request.
Qed.

(** Pages of 100 and 100 collectable submissions under a limit of 150:
    the first page and half of the second are stored and the third page
    is never asked for. *)
Lemma two_pages_suffice fuel c page1 page2 cur1 cur2 :
  limit cfg = 150 ->
  List.length page1 = 100%nat -> List.length page2 = 100%nat ->
  Forall (fun s => collectable cfg s = true) page1 ->
  Forall (fun s => collectable cfg s = true) page2 ->
  Str.truthy cur1 = true ->
  (forall h, server h (search_request name query None) = page page1 (Some cur1)) ->
  (forall h, server h (search_request name query (Some cur1)) = page page2 cur2) ->
  (3 <= fuel)%nat ->
  exists why c',
    _search_subreddit cfg server fuel name query c = (Finished why, c')
    /\ posts_data c'
       = posts_data c ++ map (info_of cfg) (page1 ++ firstn 50 page2)
    /\ search_requests c'
       = search_requests c ++ [search_request name query None; search_request name query (Some cur1)].
Proof.
  intros Hlim L1 L2 F1 F2 T1 S1 S2 Hfuel.
  destruct fuel as [|[|[|fuel]]]; try lia.
  unfold _search_subreddit.
  destruct (@paginate_collectable_page (S (S fuel)) 0 None c page1
              (Some cur1)) as (c2 & -> & P2 & R2); auto; try lia.
  { intros ->. discriminate. }
  cbn [Str.truthy_opt]. rewrite T1.
  rewrite L1, Hlim in *.
  change (Z.min (0 + Z.of_nat 100) 150) with 100 in *.
  replace (Z.to_nat (100 - 0)) with (List.length page1) in P2
    by (rewrite L1; reflexivity).
  rewrite firstn_all in P2.
  destruct (@paginate_collectable_page (S fuel) 100 (Some cur1) c2
              page2 cur2) as (c3 & -> & P3 & R3); auto; try lia.
  { intros ->. discriminate. }
  rewrite L2, Hlim in *.
  change (Z.min (100 + Z.of_nat 100) 150) with 150 in *.
  change (Z.to_nat (150 - 100)) with 50%nat in P3.
  assert (Hposts : posts_data c3
                   = posts_data c
                     ++ map (info_of cfg) (page1 ++ firstn 50 page2)).
  { now rewrite P3, P2, map_app, <- app_assoc. }
  assert (Hreqs : search_requests c3
                  = search_requests c ++ [search_request name query None; search_request name query (Some cur1)]).
  { now rewrite R3, R2, <- app_assoc. }
  destruct (Str.truthy_opt cur2).
  - rewrite paginate_at_limit by lia. exists LimitReached, c3. auto.
  - exists LastPage, c3. auto.
Qed.

(** The response is no dict with ['data']: the loop is left at once. *)
Lemma paginate_no_data fuel n cursor c :
  n < limit cfg ->
  (forall listing,
     fst (_make_request server (search_request name query cursor) c)
     <> Some (JSearch (Some listing))) ->
  paginate cfg server (S fuel) name query n cursor c
  = (Finished FetchFailed, n,
     snd (_make_request server (search_request name query cursor) c)).
Proof.
  intros Hn Hdata. rewrite paginate_S.
  destruct (n <? limit cfg) eqn:E; [|lia].
  destruct (_make_request server (search_request name query cursor) c)
    as [data c1]. cbn [fst snd] in *.
  destruct data as [[[listing|]|elems]|]; try reflexivity.
  now destruct (Hdata listing).
Qed.

(** A submission of the page raises: the search ends with the
    exception. *)
Lemma paginate_raises fuel n cursor c posts next e n1 c2 :
  n < limit cfg ->
  server (requests_of (trace c)) (search_request name query cursor)
  = page posts next ->
  posts <> [] ->
  for_posts cfg server posts n
    (log [EvGet (search_request name query cursor); EvSleep request_delay] c)
  = (Raise e, n1, c2) ->
  paginate cfg server (S fuel) name query n cursor c = (Aborted e, n1, c2).
Proof.
  intros Hn Hpage Hposts Hraise. rewrite paginate_S.
  destruct (n <? limit cfg) eqn:E; [|lia].
  rewrite (make_request_ok server _ _ Hpage eq_refl).
  cbn [children after dflt].
  destruct posts as [|post rest]; [congruence|].
  now rewrite Hraise.
Qed.

(** The search requests of the loop: it only adds requests, and when it
    is entered below the limit the first one asks for the page at the
    cursor. *)
Lemma paginate_requests fuel :
  forall n cursor c,
    let '(_, _, c') := paginate cfg server fuel name query n cursor c in
    exists more,
      search_requests c' = search_requests c ++ more
      /\ (n < limit cfg -> (1 <= fuel)%nat ->
          exists rest, more = search_request name query cursor :: rest).
Proof.
  induction fuel as [|fuel IH]; intros n cursor c.
  - simpl. exists []. rewrite app_nil_r. split; [reflexivity|lia].
  - rewrite paginate_S.
    destruct (n <? limit cfg) eqn:Elim.
    2:{ exists []. rewrite app_nil_r. split; [reflexivity|lia]. }
    pose proof (make_request_search_requests server
                  (search_request name query cursor) c) as Hreq.
    destruct (_make_request server (search_request name query cursor) c)
      as [data c1].
    cbn [snd is_search search_request req_params is_some] in Hreq.
    assert (Hstop : exists more,
              search_requests c1 = search_requests c ++ more
              /\ (n < limit cfg -> (1 <= S fuel)%nat ->
                  exists rest,
                    more = search_request name query cursor :: rest)).
    { exists [search_request name query cursor]. split; [exact Hreq|].
      intros _ _. now exists []. }
    destruct data as [[[listing|]|elems]|]; try exact Hstop.
    destruct (dflt [] (children listing)) as [|post rest]; [exact Hstop|].
    pose proof (for_posts_effect cfg server (post :: rest) n c1) as Hf.
    destruct (for_posts cfg server (post :: rest) n c1) as [[r n1] c2].
    destruct Hf as (_ & Hs & _).
    assert (Hstop2 : exists more,
              search_requests c2 = search_requests c ++ more
              /\ (n < limit cfg -> (1 <= S fuel)%nat ->
                  exists rest,
                    more = search_request name query cursor :: rest)).
    { rewrite Hs. exact Hstop. }
    destruct r as [|e]; [|exact Hstop2].
    destruct (Str.truthy_opt (after listing)); [|exact Hstop2].
    specialize (IH n1 (after listing) c2).
    destruct (paginate cfg server fuel name query n1 (after listing) c2)
      as [[out n'] c'].
    destruct IH as (more & Hmore & _).
    exists (search_request name query cursor :: more). split.
    + rewrite Hmore, Hs, Hreq, <- app_assoc. reflexivity.
    + intros _ _. now exists more.
Qed.

(** After a page the loop asks for no further page exactly when one of
    its exits applies; otherwise the next request asks for the page at
    the cursor the page gave. *)
Lemma paginate_stops_exactly fuel n cursor c :
  n < limit cfg ->
  let '(data, c1) :=
    _make_request server (search_request name query cursor) c in
  let '(_, _, c') :=
    paginate cfg server (S (S fuel)) name query n cursor c in
  (search_requests c' = search_requests c ++ [search_request name query cursor]
   <-> stops_after_page cfg server data n c1)
  /\ (~ stops_after_page cfg server data n c1 ->
      exists listing more,
        data = Some (JSearch (Some listing))
        /\ search_requests c'
           = search_requests c
             ++ search_request name query cursor
                :: search_request name query (after listing) :: more).
Proof.
  intro Hn. rewrite paginate_S.
  destruct (n <? limit cfg) eqn:Elim; [|lia].
  pose proof (make_request_search_requests server
                (search_request name query cursor) c) as Hreq.
  destruct (_make_request server (search_request name query cursor) c)
    as [data c1].
  cbn [snd is_search search_request req_params is_some] in Hreq.
  assert (Hstop : (search_requests c1
                   = search_requests c ++ [search_request name query cursor]
                   <-> True)
                  /\ (~ True ->
                      exists listing more,
                        data = Some (JSearch (Some listing))
                        /\ search_requests c1
                           = search_requests c
                             ++ search_request name query cursor
                                :: search_request name query (after listing)
                                :: more)) by (split; tauto).
  unfold stops_after_page.
  destruct data as [[[listing|]|elems]|]; try exact Hstop.
  destruct (dflt [] (children listing)) as [|post rest]; [exact Hstop|].
  pose proof (for_posts_effect cfg server (post :: rest) n c1) as Hf.
  destruct (for_posts cfg server (post :: rest) n c1) as [[r n1] c2].
  destruct Hf as (_ & Hs & _).
  assert (Hreq2 : search_requests c2
                  = search_requests c ++ [search_request name query cursor])
    by now rewrite Hs.
  destruct r as [|e]; [|split; tauto].
  destruct (Str.truthy_opt (after listing)) eqn:Hcur.
  2:{ split; [tauto|]. intro H. exfalso. apply H. now left. }
  destruct (Z.lt_ge_cases n1 (limit cfg)) as [Hlt|Hge].
  - pose proof (paginate_requests (S fuel) n1 (after listing) c2) as Hp.
    destruct (paginate cfg server (S fuel) name query n1 (after listing) c2)
      as [[out n'] c'].
    destruct Hp as (more & Hmore & Hfirst).
    destruct (Hfirst Hlt ltac:(lia)) as (rest' & ->).
    assert (Hall : search_requests c'
                   = search_requests c
                     ++ search_request name query cursor
                        :: search_request name query (after listing)
                        :: rest').
    { rewrite Hmore, Hreq2, <- app_assoc. reflexivity. }
    split.
    + split.
      * intro H. rewrite Hall in H. apply app_inv_head in H. discriminate.
      * intros [H|H]; [discriminate|lia].
    + intros _. exists listing, rest'. split; [reflexivity|exact Hall].
  - rewrite paginate_at_limit by exact Hge.
    split; [tauto|]. intro H. exfalso. apply H. now right.
Qed.

(** C4.  A search with a per-forum limit [L >= 0] adds at most [L] posts,
    all in the window, and exactly [L] when the loop is left for the
    limit.  After a page the loop asks for no further page exactly when
    the limit is met, the page has no results, the page has no cursor,
    the fetch failed or its response carries no data, or a submission of
    the page raises, which ends the search with the exception; otherwise
    it asks for the page at the cursor.  With pages of 100 and 100
    collectable submissions and [L = 150] it stores the first page and the
    first 50 submissions of the second, in that order, and makes two
    search requests: the third page is never fetched. *)
Theorem search_subreddit_pagination :
  0 <= limit cfg ->
  (forall fuel c,
     let '(out, c') := _search_subreddit cfg server fuel name query c in
     extends cfg c c'
     /\ added_posts c c' <= limit cfg
     /\ (out = Finished LimitReached -> added_posts c c' = limit cfg))
  /\ (forall fuel n cursor c,
        limit cfg <= n ->
        paginate cfg server (S fuel) name query n cursor c
        = (Finished LimitReached, n, c))
  /\ (forall fuel n cursor c next,
        n < limit cfg ->
        server (requests_of (trace c)) (search_request name query cursor) = page [] next ->
        paginate cfg server (S fuel) name query n cursor c
        = (Finished NoMorePosts, n,
           log [EvGet (search_request name query cursor); EvSleep request_delay] c))
  /\ (forall fuel n cursor c posts next,
        n < limit cfg ->
        server (requests_of (trace c)) (search_request name query cursor) = page posts next ->
        posts <> [] ->
        Str.truthy_opt next = false ->
        let '(out, _, c') :=
          paginate cfg server (S fuel) name query n cursor c in
        (out = Finished LastPage \/ exists e, out = Aborted e)
        /\ search_requests c' = search_requests c ++ [search_request name query cursor])
  /\ (forall fuel n cursor c,
        n < limit cfg ->
        server (requests_of (trace c)) (search_request name query cursor) = ConnectionError
        \/ (exists status body,
              server (requests_of (trace c)) (search_request name query cursor)
              = Response status body
              /\ raise_for_status status = true) ->
        paginate cfg server (S fuel) name query n cursor c
        = (Finished FetchFailed, n, log [EvGet (search_request name query cursor)] c))
  /\ (forall fuel n cursor c,
        n < limit cfg ->
        (forall listing,
           fst (_make_request server (search_request name query cursor) c)
           <> Some (JSearch (Some listing))) ->
        paginate cfg server (S fuel) name query n cursor c
        = (Finished FetchFailed, n,
           snd (_make_request server (search_request name query cursor) c)))
  /\ (forall fuel n cursor c posts next e n1 c2,
        n < limit cfg ->
        server (requests_of (trace c)) (search_request name query cursor)
        = page posts next ->
        posts <> [] ->
        for_posts cfg server posts n
          (log [EvGet (search_request name query cursor);
                EvSleep request_delay] c)
        = (Raise e, n1, c2) ->
        paginate cfg server (S fuel) name query n cursor c
        = (Aborted e, n1, c2))
  /\ (forall fuel n cursor c,
        n < limit cfg ->
        let '(data, c1) :=
          _make_request server (search_request name query cursor) c in
        let '(_, _, c') :=
          paginate cfg server (S (S fuel)) name query n cursor c in
        (search_requests c'
         = search_requests c ++ [search_request name query cursor]
         <-> stops_after_page cfg server data n c1)
        /\ (~ stops_after_page cfg server data n c1 ->
            exists listing more,
              data = Some (JSearch (Some listing))
              /\ search_requests c'
                 = search_requests c
                   ++ search_request name query cursor
                      :: search_request name query (after listing) :: more))
  /\ (forall fuel c page1 page2 cur1 cur2,
        limit cfg = 150 ->
        List.length page1 = 100%nat -> List.length page2 = 100%nat ->
        Forall (fun s => collectable cfg s = true) page1 ->
        Forall (fun s => collectable cfg s = true) page2 ->
        Str.truthy cur1 = true ->
        (forall h, server h (search_request name query None) = page page1 (Some cur1)) ->
        (forall h, server h (search_request name query (Some cur1)) = page page2 cur2) ->
        (3 <= fuel)%nat ->
        exists why c',
          _search_subreddit cfg server fuel name query c = (Finished why, c')
          /\ posts_data c'
             = posts_data c ++ map (info_of cfg) (page1 ++ firstn 50 page2)
          /\ List.length (map (info_of cfg) (page1 ++ firstn 50 page2))
             = 150%nat
          /\ search_requests c'
             = search_requests c ++ [search_request name query None; search_request name query (Some cur1)]).
Proof.
  intro Hlimit. repeat apply conj.
  - intros fuel c.
    pose proof (search_subreddit_effect cfg server fuel name query c) as H.
    destruct (_search_subreddit cfg server fuel name query c) as [out c'].
    destruct H as (Ex & Hb & He). auto.
  - apply paginate_at_limit.
  - apply paginate_no_results.
  - apply paginate_no_cursor.
  - apply paginate_fetch_failed.
  - apply paginate_no_data.
  - apply paginate_raises.
  - apply paginate_stops_exactly.
  - intros fuel c page1 page2 cur1 cur2 Hlim L1 L2 F1 F2 T1 S1 S2 Hfuel.
    destruct (@two_pages_suffice fuel c page1 page2 cur1 cur2)
      as (why & c' & Hrun & Hp & Hr); auto.
    exists why, c'. repeat split; auto.
    rewrite length_map, length_app, length_firstn, L1, L2. reflexivity.
Qed.

End SearchClaims.

(** C4, as stated.  With a limit of 150 and the endpoint down, the search
    stops after its first request: the loop is left because the fetch
    failed, with no post collected, no page received and so no page
    without results or without cursor.  And with a limit of 10, a first
    page of three submissions that has a cursor and whose second
    submission lacks ['created_utc'], the search stops after that page
    with one post collected: the loop is left by the exception. *)
Lemma pagination_stops_for_other_reasons :
  (_search_subreddit Sample.cfg150 Sample.unreachable 5 "apple"
                     "Apple iPhone 15" new_crawler
   = (Finished FetchFailed,
      log [EvGet (search_request "apple" "Apple iPhone 15" None)] new_crawler)
   /\ Finished FetchFailed <> Finished LimitReached
   /\ Finished FetchFailed <> Finished NoMorePosts
   /\ Finished FetchFailed <> Finished LastPage
   /\ Z.of_nat (List.length (posts_data new_crawler)) < limit Sample.cfg150)
  /\ (fst (_search_subreddit Sample.two_forums Sample.one_bad_forum 5
                             "broken" "Apple iPhone 15" new_crawler)
      = Aborted (KeyError "created_utc")
      /\ Sample.one_bad_forum []
           (search_request "broken" "Apple iPhone 15" None)
         = page [Sample.submission "b1"
                   (Sample.local Sample.cfg0 Sample.jan_1 8 0 0) 0;
                 Sample.broken_submission "b2";
                 Sample.submission "b3"
                   (Sample.local Sample.cfg0 Sample.jan_1 8 0 0) 0]
                (Some "t3_b3")
      /\ map post_id_
             (posts_data
                (snd (_search_subreddit Sample.two_forums
                        Sample.one_bad_forum 5 "broken" "Apple iPhone 15"
                        new_crawler)))
         = ["b1"]
      /\ search_requests
           (snd (_search_subreddit Sample.two_forums Sample.one_bad_forum 5
                   "broken" "Apple iPhone 15" new_crawler))
         = [search_request "broken" "Apple iPhone 15" None]
      /\ 1 < limit Sample.two_forums).
Proof.
  split.
  - split; [reflexivity|]. repeat split; discriminate.
  - repeat split.
Qed.

Lemma search_subreddit_pagination_witness :
  0 <= limit Sample.cfg150
  /\ exists why c',
       _search_subreddit Sample.cfg150 Sample.three_pages 5 "apple"
                         "Apple iPhone 15" new_crawler
       = (Finished why, c')
       /\ posts_data c'
          = posts_data new_crawler
            ++ map (info_of Sample.cfg150)
                   (Sample.hundred 0 ++ firstn 50 (Sample.hundred 100))
       /\ List.length (map (info_of Sample.cfg150)
                           (Sample.hundred 0 ++ firstn 50 (Sample.hundred 100)))
          = 150%nat
       /\ search_requests c'
          = search_requests new_crawler
            ++ [search_request "apple" "Apple iPhone 15" None;
                search_request "apple" "Apple iPhone 15" (Some "t3_p099")].
Proof.
  assert (H0 : 0 <= limit Sample.cfg150) by (vm_compute; discriminate).
  split; [exact H0|].
  destruct (search_subreddit_pagination Sample.cfg150 Sample.three_pages
              "apple" "Apple iPhone 15" H0)
    as (_ & _ & _ & _ & _ & _ & _ & _ & Hpages).
  apply (Hpages 5%nat new_crawler (Sample.hundred 0) (Sample.hundred 100)
                "t3_p099" (Some "t3_p199")).
  - reflexivity.
  - reflexivity.
  - reflexivity.
  - apply Forall_forallb. vm_compute. reflexivity.
  - apply Forall_forallb. vm_compute. reflexivity.
  - reflexivity.
  - intro h. reflexivity.
  - intro h. reflexivity.
  - lia.
Defined.

(* ================================================================== *)
(** ** The loop over the forums *)
(* ================================================================== *)

(** C5.  When the search of one forum raises, after the forums before it
    have been processed, the run goes on with the forums after it exactly
    as it would after a search that returned: what the earlier forums
    collected and what the failing forum had collected before raising stay
    in the collection until the end. *)
Theorem forum_failure_is_contained
    (cfg : Config) (server : list Request -> Request -> HttpOutcome)
    (fuel : nat) (before : list string) (name : string) (rest : list string)
    (c0 c c1 : Crawler) (e : Exn) :
  for_subreddits cfg server fuel before c0 = Some c ->
  _search_subreddit cfg server fuel name (search_query cfg) c
  = (Aborted e, c1) ->
  for_subreddits cfg server fuel (before ++ name :: rest) c0
  = for_subreddits cfg server fuel rest c1
  /\ extends cfg c0 c
  /\ extends cfg c c1
  /\ (forall final,
        for_subreddits cfg server fuel rest c1 = Some final ->
        extends cfg c1 final /\ extends cfg c0 final).
Proof.
  intros Hbefore Hraise.
  assert (E0 : extends cfg c0 c) by (eapply for_subreddits_extends; eauto).
  assert (E1 : extends cfg c c1).
  { pose proof (search_subreddit_effect cfg server fuel name
                  (search_query cfg) c) as H.
    rewrite Hraise in H. apply H. }
  repeat split; auto.
  - rewrite for_subreddits_app, Hbefore. simpl. now rewrite Hraise.
  - eapply for_subreddits_extends; eauto.
  - apply extends_trans with c; auto. apply extends_trans with c1; auto.
    eapply for_subreddits_extends; eauto.
Qed.

Lemma forum_failure_is_contained_witness :
  exists b1 final,
    _search_subreddit Sample.two_forums Sample.one_bad_forum 5 "broken"
                      (search_query Sample.two_forums) new_crawler
    = (Aborted (KeyError "created_utc"), b1)
    /\ List.map post_id_ (posts_data b1) = ["b1"]
    /\ search_posts Sample.two_forums Sample.one_bad_forum 5 new_crawler
       = Some final
    /\ List.map post_id_ (posts_data final) = ["b1"; "g1"]
    /\ for_subreddits Sample.two_forums Sample.one_bad_forum 5
                      ([] ++ "broken" :: ["apple"]) new_crawler
       = for_subreddits Sample.two_forums Sample.one_bad_forum 5 ["apple"] b1
    /\ extends Sample.two_forums new_crawler b1
    /\ extends Sample.two_forums b1 final.
Proof.
  eexists. eexists.
  assert (Hraise :
    _search_subreddit Sample.two_forums Sample.one_bad_forum 5 "broken"
                      (search_query Sample.two_forums) new_crawler
    = (Aborted (KeyError "created_utc"),
       snd (_search_subreddit Sample.two_forums Sample.one_bad_forum 5
              "broken" (search_query Sample.two_forums) new_crawler)))
    by reflexivity.
  assert (Hrest :
    for_subreddits Sample.two_forums Sample.one_bad_forum 5 ["apple"]
      (snd (_search_subreddit Sample.two_forums Sample.one_bad_forum 5
              "broken" (search_query Sample.two_forums) new_crawler))
    = Some (match search_posts Sample.two_forums Sample.one_bad_forum 5
                               new_crawler with
            | Some final => final
            | None => new_crawler
            end)) by reflexivity.
  destruct (@forum_failure_is_contained Sample.two_forums
              Sample.one_bad_forum 5 [] "broken" ["apple"] new_crawler
              new_crawler _ _ eq_refl Hraise) as (Hrun & _ & Hb & Hfinal).
  destruct (Hfinal _ Hrest) as (Hg & _).
  split; [exact Hraise|]. split; [reflexivity|].
  split; [reflexivity|]. split; [reflexivity|].
  split; [exact Hrun|]. split; [exact Hb|exact Hg].
Defined.

(* ================================================================== *)
(** ** The aggregation stage *)
(* ================================================================== *)

Lemma string_eqb_spec (x y : string) : (x =? y)%string = true <-> x = y.
Proof. apply String.eqb_eq. Qed.

Lemma by_count_desc_total {K} (x y : K * nat) :
  by_count_desc x y = false -> by_count_desc y x = true.
Proof.
  unfold by_count_desc. rewrite Nat.leb_gt, Nat.leb_le. lia.
Qed.

Lemma by_count_desc_trans {K} (x y z : K * nat) :
  by_count_desc x y = true -> by_count_desc y z = true ->
  by_count_desc x z = true.
Proof. unfold by_count_desc. rewrite !Nat.leb_le. lia. Qed.

Lemma Counter_length_nodup (l : list string) :
  List.length (Counter String.eqb l) = List.length (nodup string_dec l).
Proof.
  destruct (Counter_keys String.eqb string_eqb_spec l) as (Hnd & Hin).
  rewrite <- (length_map fst).
  apply Permutation_length, NoDup_Permutation;
    [exact Hnd|apply NoDup_nodup|].
  intro k. rewrite Hin, nodup_In. tauto.
Qed.

Lemma all_subreddits_length a :
  List.length (all_subreddits a)
  = (post_count (calculate_basic_stats a)
     + comment_count (calculate_basic_stats a))%nat.
Proof.
  unfold all_subreddits, column. simpl. unfold len.
  now rewrite length_app, !length_map.
Qed.

(** C2, as stated.  Eleven posts in eleven forums and no comment: the
    histogram of the ten most active forums counts ten items, the
    collection holds eleven. *)
Lemma subreddit_distribution_loses_counts :
  total (get_subreddit_distribution 10
           (new_analyzer Sample.eleven_forums []))
  = 10%nat
  /\ (post_count (calculate_basic_stats (new_analyzer Sample.eleven_forums []))
      + comment_count
          (calculate_basic_stats (new_analyzer Sample.eleven_forums [])))%nat
     = 11%nat.
Proof. split; reflexivity. Qed.

(** C2.  The counts of the forum histogram never add up to more than the
    number of posts plus comments, and they add up to exactly that number
    if and only if the number of distinct forums is at most [top_n]:
    the counts of the forums cut off are lost. *)
Theorem subreddit_distribution_total (top_n : nat) (a : DataAnalyzer) :
  (total (get_subreddit_distribution top_n a)
   <= post_count (calculate_basic_stats a)
      + comment_count (calculate_basic_stats a))%nat
  /\ (total (get_subreddit_distribution top_n a)
      = (post_count (calculate_basic_stats a)
         + comment_count (calculate_basic_stats a))%nat
      <-> (unique_subreddits (calculate_basic_stats a) <= top_n)%nat).
Proof.
  rewrite <- all_subreddits_length.
  unfold get_subreddit_distribution, most_common.
  set (counter := Counter String.eqb (all_subreddits a)).
  set (ranking := stable_sort (@by_count_desc string) counter).
  assert (Hperm : Permutation ranking counter) by apply stable_sort_perm.
  assert (Hpos : Forall (fun kv => (1 <= snd kv)%nat) ranking).
  { apply (Permutation_Forall (Permutation_sym Hperm)).
    apply Counter_positive. }
  assert (Htotal : total ranking = List.length (all_subreddits a)).
  { rewrite (total_perm Hperm). apply total_Counter. }
  assert (Hlen : List.length ranking
                 = unique_subreddits (calculate_basic_stats a)).
  { rewrite (Permutation_length Hperm). unfold counter.
    rewrite Counter_length_nodup. reflexivity. }
  destruct (total_firstn top_n Hpos) as (Hle & Heq).
  rewrite <- Htotal, <- Hlen. split; [exact Hle|exact Heq].
Qed.

(** C6.  When the frame of posts is empty the mean, median and sum of the
    post scores and the mean number of comments per post are 0; when the
    frame of comments is empty the mean, median and sum of the comment
    scores are 0; when both are empty the record is all zero. *)
Theorem engagement_of_empty_frames (mean : list Z -> Q) (a : DataAnalyzer) :
  (rows (posts_df a) = [] ->
   avg_post_score (get_engagement_stats mean a) = 0%Q
   /\ median_post_score (get_engagement_stats mean a) = 0%Q
   /\ total_post_score (get_engagement_stats mean a) = 0
   /\ avg_comments_per_post (get_engagement_stats mean a) = 0%Q)
  /\ (rows (comments_df a) = [] ->
      avg_comment_score (get_engagement_stats mean a) = 0%Q
      /\ median_comment_score (get_engagement_stats mean a) = 0%Q
      /\ total_comment_score (get_engagement_stats mean a) = 0)
  /\ (rows (posts_df a) = [] -> rows (comments_df a) = [] ->
      get_engagement_stats mean a
      = {| avg_post_score := 0%Q;
           avg_comment_score := 0%Q;
           total_post_score := 0;
           total_comment_score := 0;
           avg_comments_per_post := 0%Q;
           median_post_score := 0%Q;
           median_comment_score := 0%Q |}).
Proof.
  unfold get_engagement_stats, empty, column. simpl.
  split; [|split].
  - intros Hp. rewrite Hp. repeat split.
  - intros Hc. rewrite Hc. repeat split.
  - intros Hp Hc. rewrite Hp, Hc. reflexivity.
Qed.

Lemma engagement_of_empty_frames_witness :
  (avg_post_score
     (get_engagement_stats Sample.plain_mean (new_analyzer [] Sample.some_comments)) = 0%Q
   /\ median_post_score
        (get_engagement_stats Sample.plain_mean (new_analyzer [] Sample.some_comments)) = 0%Q
   /\ total_post_score
        (get_engagement_stats Sample.plain_mean (new_analyzer [] Sample.some_comments)) = 0
   /\ avg_comments_per_post
        (get_engagement_stats Sample.plain_mean (new_analyzer [] Sample.some_comments)) = 0%Q)
  /\ (avg_comment_score
        (get_engagement_stats Sample.plain_mean (new_analyzer Sample.some_posts [])) = 0%Q
      /\ median_comment_score
           (get_engagement_stats Sample.plain_mean (new_analyzer Sample.some_posts [])) = 0%Q
      /\ total_comment_score
           (get_engagement_stats Sample.plain_mean (new_analyzer Sample.some_posts [])) = 0)
  /\ get_engagement_stats Sample.plain_mean (new_analyzer [] [])
     = {| avg_post_score := 0%Q;
          avg_comment_score := 0%Q;
          total_post_score := 0;
          total_comment_score := 0;
          avg_comments_per_post := 0%Q;
          median_post_score := 0%Q;
          median_comment_score := 0%Q |}.
Proof.
  split; [|split].
  - apply (engagement_of_empty_frames Sample.plain_mean (new_analyzer [] Sample.some_comments)).
    reflexivity.
  - apply (engagement_of_empty_frames Sample.plain_mean (new_analyzer Sample.some_posts [])).
    reflexivity.
  - apply (engagement_of_empty_frames Sample.plain_mean (new_analyzer [] [])); reflexivity.
Defined.

(** Two analyzers over the same records. *)
Lemma summaries_read_rows_only mean sort_values a a' :
  rows (posts_df a) = rows (posts_df a') ->
  rows (comments_df a) = rows (comments_df a') ->
  calculate_basic_stats a = calculate_basic_stats a'
  /\ (forall n, get_subreddit_distribution n a = get_subreddit_distribution n a')
  /\ fst (get_time_distribution a) = fst (get_time_distribution a')
  /\ get_engagement_stats mean a = get_engagement_stats mean a'
  /\ (forall n, get_top_posts sort_values n a = get_top_posts sort_values n a')
  /\ (forall n, get_top_users n a = get_top_users n a').
Proof.
  intros Hp Hc.
  unfold calculate_basic_stats, _count_unique_users, _count_unique_subreddits,
    get_subreddit_distribution, all_subreddits, get_time_distribution,
    get_engagement_stats, get_top_posts, nlargest, get_top_users, column,
    empty, len.
  simpl. rewrite Hp, Hc. repeat split; reflexivity.
Qed.

(** [get_time_distribution] writes the date column and nothing else, and
    writing it again changes nothing. *)
Lemma time_distribution_keeps_rows a :
  rows (posts_df (snd (get_time_distribution a))) = rows (posts_df a)
  /\ rows (comments_df (snd (get_time_distribution a)))
     = rows (comments_df a)
  /\ snd (get_time_distribution (snd (get_time_distribution a)))
     = snd (get_time_distribution a).
Proof.
  unfold get_time_distribution, column, empty. simpl.
  destruct a as [[prows pdate] [crows cdate]]. simpl.
  destruct prows, crows; simpl; repeat split; reflexivity.
Qed.

Lemma export_summary_fst mean sort_values a :
  fst (export_summary mean sort_values a)
  = {| basic_stats := calculate_basic_stats a;
       subreddit_distribution := get_subreddit_distribution 10 a;
       time_distribution := fst (get_time_distribution a);
       engagement_stats :=
         get_engagement_stats mean (snd (get_time_distribution a));
       top_posts :=
         get_top_posts sort_values 10 (snd (get_time_distribution a));
       top_users := get_top_users 10 (snd (get_time_distribution a)) |}
  /\ snd (export_summary mean sort_values a)
     = snd (get_time_distribution a).
Proof.
  unfold export_summary. destruct (get_time_distribution a). auto.
Qed.

(** C9.  Computing the summary a second time on the same analyzer, which
    by then carries the date columns the first computation wrote, gives
    the same summary and leaves the analyzer as it was; the post and
    comment records the analyzer was built from are the rows of its
    frames throughout.  This holds whatever [Series.mean] and
    [sort_values] compute. *)
Theorem export_summary_idempotent
    (mean : list Z -> Q) (sort_values : list PostInfo -> list PostInfo)
    (posts : list PostInfo) (comments : list CommentInfo) :
  let once := export_summary mean sort_values (new_analyzer posts comments) in
  let twice := export_summary mean sort_values (snd once) in
  fst twice = fst once
  /\ snd twice = snd once
  /\ rows (posts_df (snd once)) = posts
  /\ rows (comments_df (snd once)) = comments
  /\ rows (posts_df (snd twice)) = posts
  /\ rows (comments_df (snd twice)) = comments.
Proof.
  cbv zeta.
  set (a := new_analyzer posts comments).
  destruct (export_summary_fst mean sort_values a) as (S1 & A1).
  destruct (export_summary_fst mean sort_values
              (snd (export_summary mean sort_values a))) as (S2 & A2).
  destruct (time_distribution_keeps_rows a) as (Rp & Rc & Again).
  rewrite A1 in *.
  set (a1 := snd (get_time_distribution a)) in *.
  destruct (time_distribution_keeps_rows a1) as (Rp1 & Rc1 & _).
  assert (Hsame : snd (get_time_distribution a1) = a1) by exact Again.
  destruct (summaries_read_rows_only mean sort_values a1 a Rp Rc)
    as (Hb & Hd & Ht & He & Hpo & Hu).
  repeat split.
  - rewrite S2, S1, Hsame, Hb, Hd, Ht. reflexivity.
  - rewrite A2. exact Hsame.
  - exact Rp.
  - exact Rc.
  - rewrite A2, Hsame. exact Rp.
  - rewrite A2, Hsame. exact Rc.
Qed.

(* ================================================================== *)
(** ** Topic clusters *)
(* ================================================================== *)

Lemma by_mentions_desc_total x y :
  by_mentions_desc x y = false -> by_mentions_desc y x = true.
Proof. unfold by_mentions_desc. rewrite Nat.leb_gt, Nat.leb_le. lia. Qed.

Lemma by_mentions_desc_trans x y z :
  by_mentions_desc x y = true -> by_mentions_desc y z = true ->
  by_mentions_desc x z = true.
Proof. unfold by_mentions_desc. rewrite !Nat.leb_le. lia. Qed.

(** The keyword dict lists larger counts first. *)
Lemma extract_keywords_sorted top_n a :
  StronglySorted (fun x y => by_count_desc x y = true)
                 (extract_keywords top_n a).
Proof.
  unfold extract_keywords, most_common.
  apply StronglySorted_firstn, stable_sort_sorted.
  - apply by_count_desc_total.
  - apply by_count_desc_trans.
Qed.

(** A keyword dict with the frequencies fast:5, slow:3, price:10 lists
    them in the order price, fast, slow. *)
Lemma three_keywords_order (kw : list (string * nat)) :
  StronglySorted (fun x y => by_count_desc x y = true) kw ->
  Permutation kw [("fast", 5%nat); ("slow", 3%nat); ("price", 10%nat)] ->
  kw = [("price", 10%nat); ("fast", 5%nat); ("slow", 3%nat)].
Proof.
  intros Hsorted Hperm.
  pose proof (Permutation_length Hperm) as Hlen.
  destruct kw as [|x [|y [|z [|]]]]; try discriminate.
  assert (Hin : forall e, In e [x; y; z] ->
                In e [("fast", 5%nat); ("slow", 3%nat); ("price", 10%nat)])
    by (intros e He; eapply Permutation_in; eauto).
  assert (Hnd : NoDup [x; y; z]).
  { apply (Permutation_NoDup (Permutation_sym Hperm)).
    repeat constructor; simpl; intuition discriminate. }
  inversion Hnd as [|? ? Hx Hnd1]; subst.
  inversion Hnd1 as [|? ? Hy _]; subst.
  inversion Hsorted as [|? ? Hs1 Hx']; subst.
  inversion Hs1 as [|? ? _ Hy']; subst.
  inversion Hx' as [|? ? Hxy Hx'']; subst.
  inversion Hx'' as [|? ? Hxz _]; subst.
  inversion Hy' as [|? ? Hyz _]; subst.
  pose proof (Hin x (or_introl eq_refl)) as Ex.
  pose proof (Hin y (or_intror (or_introl eq_refl))) as Ey.
  pose proof (Hin z (or_intror (or_intror (or_introl eq_refl)))) as Ez.
  simpl in Ex, Ey, Ez, Hx, Hy.
  destruct Ex as [<-|[<-|[<-|[]]]];
    destruct Ey as [<-|[<-|[<-|[]]]];
    destruct Ez as [<-|[<-|[<-|[]]]];
    try reflexivity; try discriminate; exfalso; tauto.
Qed.

Lemma related_words_none patterns kw :
  (forall w, In w patterns -> ~ In w (map fst kw)) ->
  related_words patterns kw = [].
Proof.
  intro H. unfold related_words.
  induction kw as [|[w n] kw IH]; [reflexivity|]. simpl.
  destruct (mem w patterns) eqn:E.
  - exfalso. unfold mem in E. apply existsb_exists in E as (p & Hp & Ep).
    apply String.eqb_eq in Ep. subst p. apply (H w Hp). now left.
  - apply IH. intros p Hp Hin. apply (H p Hp). now right.
Qed.

(** Every entry of the topic table that has related words gets one entry,
    and nothing else does. *)
Lemma topic_stats_In table kw topic st :
  In (topic, st) (topic_stats table kw) <->
  exists patterns,
    In (topic, patterns) table
    /\ related_words patterns kw <> []
    /\ st = {| keywords := related_words patterns kw;
               total_mentions := total (related_words patterns kw) |}.
Proof.
  induction table as [|[t patterns] rest IH]; simpl.
  - split; [tauto|]. intros (? & [] & _).
  - destruct (related_words patterns kw) as [|wc related] eqn:E.
    + rewrite IH. split.
      * intros (p & Hp & Hr & Hst). exists p. auto.
      * intros (p & [Hp|Hp] & Hr & Hst).
        -- injection Hp as <- <-. congruence.
        -- exists p. auto.
    + simpl. rewrite IH. split.
      * intros [Heq|(p & Hp & Hr & Hst)].
        -- injection Heq as <- <-. exists patterns.
           rewrite E. repeat split; auto. discriminate.
        -- exists p. auto.
      * intros (p & [Hp|Hp] & Hr & Hst).
        -- injection Hp as <- <-. left. rewrite Hst, E. reflexivity.
        -- right. exists p. auto.
Qed.

Lemma topic_stats_length table kw :
  (List.length (topic_stats table kw) <= List.length table)%nat.
Proof.
  induction table as [|[t patterns] rest IH]; simpl; [lia|].
  destruct (related_words patterns kw); simpl; lia.
Qed.

Lemma cluster_keywords_In top_n kw x :
  In x (cluster_keywords top_n kw) -> In x (topic_stats topic_patterns kw).
Proof.
  unfold cluster_keywords. destruct kw as [|wc kw]; [intros []|].
  intro H. apply firstn_incl in H.
  eapply Permutation_in; [apply stable_sort_perm|exact H].
Qed.

Lemma cluster_keywords_full kw :
  Permutation (cluster_keywords (List.length topic_patterns) kw)
              (topic_stats topic_patterns kw).
Proof.
  unfold cluster_keywords. destruct kw as [|wc kw]; [reflexivity|].
  rewrite firstn_all2; [apply stable_sort_perm|].
  rewrite stable_sort_length. apply topic_stats_length.
Qed.

Lemma cluster_keywords_truncates top_n kw :
  cluster_keywords top_n kw
  = firstn top_n (cluster_keywords (List.length topic_patterns) kw).
Proof.
  unfold cluster_keywords. destruct kw as [|wc kw].
  - now rewrite firstn_nil.
  - rewrite (@firstn_all2 _ (List.length topic_patterns));
      [reflexivity|].
    rewrite stable_sort_length. apply topic_stats_length.
Qed.

(** C7.  From text whose keyword frequencies are fast:5, slow:3 and
    price:10 the topic clusters are [price] with 10 mentions, then
    [performance] with 8.  In general a topic is in the result only with
    the extracted keywords of its list, at least one, and their summed
    frequencies; a topic none of whose keywords was extracted is not in
    it; the result is in descending order of total mentions, holds at most
    [top_n] topics and is the first [top_n] of the ranking of all topics
    that have a match. *)
Theorem topic_clusters (top_n : nat) (a : TopicAnalyzer) :
  (Permutation (extract_keywords 100 a)
               [("fast", 5%nat); ("slow", 3%nat); ("price", 10%nat)] ->
   (2 <= top_n)%nat ->
   extract_topic_clusters top_n a
   = [("price", {| keywords := [("price", 10%nat)]; total_mentions := 10 |});
      ("performance",
       {| keywords := [("fast", 5%nat); ("slow", 3%nat)];
          total_mentions := 8 |})])
  /\ (forall topic,
        (forall patterns w,
           In (topic, patterns) topic_patterns -> In w patterns ->
           ~ In w (map fst (extract_keywords 100 a))) ->
        ~ In topic (map fst (extract_topic_clusters top_n a)))
  /\ (forall topic st,
        In (topic, st) (extract_topic_clusters top_n a) ->
        exists patterns,
          In (topic, patterns) topic_patterns
          /\ keywords st = related_words patterns (extract_keywords 100 a)
          /\ keywords st <> []
          /\ total_mentions st = total (keywords st))
  /\ StronglySorted
       (fun x y => (total_mentions (snd y) <= total_mentions (snd x))%nat)
       (extract_topic_clusters top_n a)
  /\ (List.length (extract_topic_clusters top_n a) <= top_n)%nat
  /\ extract_topic_clusters top_n a
     = firstn top_n (extract_topic_clusters (List.length topic_patterns) a)
  /\ (forall topic patterns,
        In (topic, patterns) topic_patterns ->
        related_words patterns (extract_keywords 100 a) <> [] ->
        In topic
           (map fst (extract_topic_clusters (List.length topic_patterns) a))).
Proof.
  unfold extract_topic_clusters.
  set (kw := extract_keywords 100 a).
  repeat apply conj.
  - intros Hperm Htop. unfold kw.
    rewrite (three_keywords_order (extract_keywords_sorted 100 a) Hperm).
    destruct top_n as [|[|n]]; try lia.
    unfold cluster_keywords.
    match goal with
    | |- firstn _ ?ranking = _ =>
        let r := eval vm_compute in ranking in
        change ranking with r
    end.
    simpl. now rewrite firstn_nil.
  - intros topic Hnone Hin.
    apply in_map_iff in Hin as ([t st] & Ht & Hin). simpl in Ht. subst t.
    apply cluster_keywords_In, topic_stats_In in Hin
      as (patterns & Hp & Hr & _).
    apply Hr, related_words_none. intros w Hw. exact (Hnone patterns w Hp Hw).
  - intros topic st Hin.
    apply cluster_keywords_In, topic_stats_In in Hin
      as (patterns & Hp & Hr & ->).
    exists patterns. simpl. auto.
  - unfold cluster_keywords. destruct kw as [|wc kw']; [constructor|].
    apply StronglySorted_firstn.
    pose proof (stable_sort_sorted by_mentions_desc by_mentions_desc_total
                  by_mentions_desc_trans
                  (topic_stats topic_patterns (wc :: kw'))) as Hs.
    revert Hs. generalize (stable_sort by_mentions_desc
                             (topic_stats topic_patterns (wc :: kw'))).
    induction 1 as [|x l Hl IH Hx]; constructor; [exact IH|].
    eapply Forall_impl; [|exact Hx].
    intros y Hy. unfold by_mentions_desc in Hy. now apply Nat.leb_le.
  - unfold cluster_keywords. destruct kw as [|wc kw']; [simpl; lia|].
    apply firstn_le_length.
  - apply cluster_keywords_truncates.
  - intros topic patterns Hp Hr.
    apply in_map_iff.
    exists (topic, {| keywords := related_words patterns kw;
                      total_mentions := total (related_words patterns kw) |}).
    split; [reflexivity|].
    eapply Permutation_in; [symmetry; apply cluster_keywords_full|].
    apply topic_stats_In. exists patterns. auto.
Qed.

Lemma topic_clusters_witness :
  Permutation (extract_keywords 100 Sample.priced)
              [("fast", 5%nat); ("slow", 3%nat); ("price", 10%nat)]
  /\ extract_topic_clusters 10 Sample.priced
     = [("price",
         {| keywords := [("price", 10%nat)]; total_mentions := 10 |});
        ("performance",
         {| keywords := [("fast", 5%nat); ("slow", 3%nat)];
            total_mentions := 8 |})].
Proof.
  assert (Hperm : Permutation (extract_keywords 100 Sample.priced)
                    [("fast", 5%nat); ("slow", 3%nat); ("price", 10%nat)]).
  { change (extract_keywords 100 Sample.priced)
      with ([("price", 10%nat); ("fast", 5%nat); ("slow", 3%nat)]).
    apply (Permutation_cons_app [("fast", 5%nat); ("slow", 3%nat)] []).
    apply Permutation_refl. }
  split; [exact Hperm|].
  destruct (topic_clusters 10 Sample.priced) as (Hexample & _).
  exact (Hexample Hperm ltac:(lia)).
Defined.

(* ================================================================== *)
(** ** More on sorting and counting *)
(* ================================================================== *)

Section StableSortFacts.

Variable A : Type.
Variable first : A -> A -> bool.

(** Elements that are tied keep the order they came in. *)
Lemma insert_sorted_stable (tied : A -> bool) x l :
  (forall y z, tied y = true -> tied z = true -> first y z = true) ->
  filter tied (insert_sorted first x l) = filter tied (x :: l).
Proof.
  intro Htied. induction l as [|y r IH]; [reflexivity|].
  simpl. destruct (first x y) eqn:E; [reflexivity|].
  simpl. rewrite IH. simpl.
  destruct (tied x) eqn:Ex, (tied y) eqn:Ey; try reflexivity.
  rewrite (Htied x y Ex Ey) in E. discriminate.
Qed.

Lemma stable_sort_stable (tied : A -> bool) l :
  (forall y z, tied y = true -> tied z = true -> first y z = true) ->
  filter tied (stable_sort first l) = filter tied l.
Proof.
  intro Htied. induction l as [|x r IH]; [reflexivity|].
  simpl. rewrite (insert_sorted_stable _ _ _ Htied). simpl. now rewrite IH.
Qed.

Lemma stable_sort_In l x : In x (stable_sort first l) <-> In x l.
Proof.
  split; apply Permutation_in;
    [apply stable_sort_perm|symmetry; apply stable_sort_perm].
Qed.

End StableSortFacts.

(** In a sorted list every element of a prefix is related to every
    element after it. *)
Lemma StronglySorted_firstn_skipn {A} (R : A -> A -> Prop) n l x y :
  StronglySorted R l ->
  In x (firstn n l) -> In y (skipn n l) -> R x y.
Proof.
  intro H. revert n. induction H as [|z l Hl IH Hz]; intros n Hx Hy.
  - rewrite firstn_nil in Hx. destruct Hx.
  - destruct n as [|n]; simpl in Hx, Hy; [destruct Hx|].
    destruct Hx as [<-|Hx].
    + rewrite Forall_forall in Hz. apply Hz.
      rewrite <- (firstn_skipn n l). apply in_or_app. now right.
    + eapply IH; eauto.
Qed.

Lemma skipn_incl {A} (n : nat) (l : list A) (x : A) :
  In x (skipn n l) -> In x l.
Proof.
  intro H. rewrite <- (firstn_skipn n l). apply in_or_app. now right.
Qed.

Lemma NoDup_firstn {A} (n : nat) (l : list A) : NoDup l -> NoDup (firstn n l).
Proof.
  intro H. rewrite <- (firstn_skipn n l) in H.
  now apply NoDup_app_remove_r in H.
Qed.

Section LookupFacts.

Variable K : Type.
Variable eqb : K -> K -> bool.
Hypothesis eqb_spec : forall x y, eqb x y = true <-> x = y.

Lemma eqb_refl_true x : eqb x x = true.
Proof. now apply eqb_spec. Qed.

Lemma lookup_increment k x (counter : list (K * nat)) :
  lookup eqb k (increment eqb x counter)
  = (lookup eqb k counter + if eqb k x then 1 else 0)%nat.
Proof.
  induction counter as [|[k' n] r IH]; simpl.
  - destruct (eqb x k) eqn:E1, (eqb k x) eqn:E2; try reflexivity.
    + apply eqb_spec in E1. subst. now rewrite eqb_refl_true in E2.
    + apply eqb_spec in E2. subst. now rewrite eqb_refl_true in E1.
  - destruct (eqb k' x) eqn:Ex; simpl.
    + apply eqb_spec in Ex. subst k'.
      destruct (eqb x k) eqn:E1.
      * apply eqb_spec in E1. subst. rewrite eqb_refl_true. lia.
      * destruct (eqb k x) eqn:E2; [|lia].
        apply eqb_spec in E2. subst. now rewrite eqb_refl_true in E1.
    + destruct (eqb k' k) eqn:Ek; [|exact IH].
      apply eqb_spec in Ek. subst k'.
      destruct (eqb k x) eqn:E2; [congruence|lia].
Qed.

Lemma occurrences_cons k x (l : list K) :
  occurrences eqb k (x :: l)
  = ((if eqb k x then 1 else 0) + occurrences eqb k l)%nat.
Proof. unfold occurrences. simpl. now destruct (eqb k x). Qed.

Lemma lookup_fold l : forall (counter : list (K * nat)) k,
  lookup eqb k (fold_left (fun c x => increment eqb x c) l counter)
  = (lookup eqb k counter + occurrences eqb k l)%nat.
Proof.
  induction l as [|x r IH]; intros counter k; simpl.
  - unfold occurrences. simpl. lia.
  - rewrite IH, lookup_increment, occurrences_cons. lia.
Qed.

(** A counter read at a key gives the number of occurrences counted. *)
Lemma lookup_Counter l k :
  lookup eqb k (Counter eqb l) = occurrences eqb k l.
Proof. unfold Counter. now rewrite lookup_fold. Qed.

Lemma lookup_In k n (counter : list (K * nat)) :
  NoDup (map fst counter) -> In (k, n) counter -> lookup eqb k counter = n.
Proof.
  induction counter as [|[k' m] r IH]; simpl; [tauto|].
  intros Hnd [Heq|Hin].
  - injection Heq as -> ->. now rewrite eqb_refl_true.
  - inversion Hnd as [|? ? Hk' Hr]; subst.
    destruct (eqb k' k) eqn:E; [|now apply IH].
    apply eqb_spec in E. subst k'. exfalso. apply Hk'.
    apply in_map_iff. now exists (k, n).
Qed.

(** The entries of a counter: one per distinct element, with the number
    of its occurrences. *)
Lemma Counter_In l k n :
  In (k, n) (Counter eqb l) <-> In k l /\ n = occurrences eqb k l.
Proof.
  destruct (Counter_keys eqb eqb_spec l) as (Hnd & Hkeys).
  split.
  - intro Hin. split.
    + apply Hkeys. apply in_map_iff. now exists (k, n).
    + rewrite <- lookup_Counter. symmetry. now apply lookup_In.
  - intros (Hk & ->). apply Hkeys in Hk.
    apply in_map_iff in Hk as ([k' m] & Ek & Hin). simpl in Ek. subst k'.
    rewrite <- lookup_Counter, (lookup_In _ _ _ Hnd Hin). exact Hin.
Qed.

Lemma most_common_In n l k m :
  In (k, m) (most_common n (Counter eqb l)) ->
  In k l /\ m = occurrences eqb k l.
Proof.
  unfold most_common. intro H. apply firstn_incl in H.
  apply stable_sort_In in H. now apply Counter_In.
Qed.

Lemma most_common_keys_NoDup n l :
  NoDup (map fst (most_common n (Counter eqb l))).
Proof.
  unfold most_common. rewrite <- firstn_map. apply NoDup_firstn.
  destruct (Counter_keys eqb eqb_spec l) as (Hnd & _).
  eapply Permutation_NoDup; [|exact Hnd].
  apply Permutation_map. symmetry. apply stable_sort_perm.
Qed.

Lemma most_common_sorted n (counter : list (K * nat)) :
  StronglySorted (fun x y => (snd y <= snd x)%nat) (most_common n counter).
Proof.
  unfold most_common. apply StronglySorted_firstn.
  pose proof (stable_sort_sorted (@by_count_desc K)
                (@by_count_desc_total K) (@by_count_desc_trans K) counter)
    as Hs.
  induction Hs as [|x l Hl IH Hx]; constructor; [exact IH|].
  eapply Forall_impl; [|exact Hx].
  intros y Hy. unfold by_count_desc in Hy. now apply Nat.leb_le.
Qed.

Lemma most_common_length n (counter : list (K * nat)) :
  List.length (most_common n counter)
  = Nat.min n (List.length counter).
Proof.
  unfold most_common. now rewrite length_firstn, stable_sort_length.
Qed.

(** A key left out of the ranking has no more occurrences than any key
    in it. *)
Lemma most_common_largest n l k m x :
  In (k, m) (most_common n (Counter eqb l)) ->
  In x l -> ~ In x (map fst (most_common n (Counter eqb l))) ->
  (occurrences eqb x l <= m)%nat.
Proof.
  unfold most_common. intros Hin Hx Hout.
  set (ranking := stable_sort (@by_count_desc K) (Counter eqb l)) in *.
  assert (Hrank : In (x, occurrences eqb x l) ranking).
  { apply stable_sort_In, Counter_In. auto. }
  rewrite <- (firstn_skipn n ranking) in Hrank.
  apply in_app_or in Hrank as [Hfirst|Hlast].
  - exfalso. apply Hout. apply in_map_iff.
    now exists (x, occurrences eqb x l).
  - pose proof (stable_sort_sorted (@by_count_desc K)
                  (@by_count_desc_total K) (@by_count_desc_trans K)
                  (Counter eqb l)) as Hs.
    pose proof (@StronglySorted_firstn_skipn _ _ n _ _ _ Hs Hin Hlast) as H.
    unfold by_count_desc in H. simpl in H. now apply Nat.leb_le.
Qed.

End LookupFacts.

(* ================================================================== *)
(** ** Further properties of the aggregation stage *)
(* ================================================================== *)

Lemma occurrences_app {K} (eqb : K -> K -> bool) k (l1 l2 : list K) :
  occurrences eqb k (l1 ++ l2)
  = (occurrences eqb k l1 + occurrences eqb k l2)%nat.
Proof. unfold occurrences. now rewrite filter_app, length_app. Qed.

Lemma occurrences_map {A K} (eqb : K -> K -> bool) (f : A -> K) k (l : list A) :
  occurrences eqb k (map f l)
  = List.length (filter (fun x => eqb k (f x)) l).
Proof.
  unfold occurrences. induction l as [|x r IH]; [reflexivity|].
  simpl. destruct (eqb k (f x)); simpl; now rewrite IH.
Qed.

Lemma occurrences_positive {K} (eqb : K -> K -> bool) k (l : list K) :
  (forall x, eqb x x = true) -> In k l -> (1 <= occurrences eqb k l)%nat.
Proof.
  intros Hrefl Hin. unfold occurrences.
  induction l as [|x r IH]; [destruct Hin|]. simpl.
  destruct Hin as [->|Hin].
  - rewrite Hrefl. simpl. lia.
  - destruct (eqb k x); simpl; [lia|auto].
Qed.

(** X1.  The forum histogram: every entry gives the number of posts plus
    the number of comments of its forum, which is at least 1; no forum is
    listed twice; counts are in descending order; there are
    [min top_n unique_subreddits] entries; and a forum left out has no
    more items than any forum listed. *)
Theorem subreddit_distribution_entries (top_n : nat) (a : DataAnalyzer) :
  (forall forum n,
     In (forum, n) (get_subreddit_distribution top_n a) ->
     n = (List.length (filter (fun p => (forum =? post_subreddit p)%string)
                              (rows (posts_df a)))
          + List.length (filter (fun c => (forum =? comment_subreddit c)%string)
                                (rows (comments_df a))))%nat
     /\ (1 <= n)%nat)
  /\ NoDup (map fst (get_subreddit_distribution top_n a))
  /\ StronglySorted (fun x y => (snd y <= snd x)%nat)
                    (get_subreddit_distribution top_n a)
  /\ List.length (get_subreddit_distribution top_n a)
     = Nat.min top_n (unique_subreddits (calculate_basic_stats a))
  /\ (forall forum listed n,
        In forum (all_subreddits a) ->
        ~ In forum (map fst (get_subreddit_distribution top_n a)) ->
        In (listed, n) (get_subreddit_distribution top_n a) ->
        (occurrences String.eqb forum (all_subreddits a) <= n)%nat).
Proof.
  unfold get_subreddit_distribution. repeat apply conj.
  - intros forum n Hin.
    apply (most_common_In String.eqb string_eqb_spec) in Hin as (Hk & ->).
    split.
    + unfold all_subreddits, column.
      now rewrite occurrences_app, !occurrences_map.
    + apply occurrences_positive; [apply String.eqb_refl|exact Hk].
  - apply (most_common_keys_NoDup String.eqb string_eqb_spec).
  - apply most_common_sorted.
  - rewrite most_common_length, Counter_length_nodup. reflexivity.
  - intros forum listed n Hin Hout Hlisted.
    eapply (most_common_largest String.eqb string_eqb_spec); eauto.
Qed.

Lemma filter_negb_sentinel_In x l :
  In x (filter (fun y => negb (is_sentinel y)) l) <->
  In x l /\ is_sentinel x = false.
Proof. rewrite filter_In, negb_true_iff. tauto. Qed.

Lemma occurrences_kept user l :
  is_sentinel user = false ->
  occurrences String.eqb user (filter (fun y => negb (is_sentinel y)) l)
  = occurrences String.eqb user l.
Proof.
  intro Hs. unfold occurrences. induction l as [|x r IH]; [reflexivity|].
  simpl. destruct (is_sentinel x) eqn:Ex; simpl.
  - destruct (user =? x)%string eqn:E; [|exact IH].
    apply String.eqb_eq in E. congruence.
  - destruct (user =? x)%string; simpl; now rewrite IH.
Qed.

(** X2.  The most active users: neither [[deleted]] nor [AutoModerator]
    is ever listed; every entry gives the number of posts plus the number
    of comments of its author; no author is listed twice; counts are in
    descending order and there are at most [top_n] entries. *)
Theorem top_users_entries (top_n : nat) (a : DataAnalyzer) :
  ~ In "[deleted]" (map fst (get_top_users top_n a))
  /\ ~ In "AutoModerator" (map fst (get_top_users top_n a))
  /\ (forall user n,
        In (user, n) (get_top_users top_n a) ->
        n = (List.length (filter (fun p => (user =? post_author p)%string)
                                 (rows (posts_df a)))
             + List.length (filter (fun c => (user =? comment_author c)%string)
                                   (rows (comments_df a))))%nat
        /\ (1 <= n)%nat)
  /\ NoDup (map fst (get_top_users top_n a))
  /\ StronglySorted (fun x y => (snd y <= snd x)%nat) (get_top_users top_n a)
  /\ (List.length (get_top_users top_n a) <= top_n)%nat.
Proof.
  unfold get_top_users.
  set (authors := column post_author (posts_df a)
                  ++ column comment_author (comments_df a)).
  set (kept := filter (fun x => negb (is_sentinel x)) authors).
  assert (Hentry : forall user n,
            In (user, n) (most_common top_n (Counter String.eqb kept)) ->
            In user authors /\ is_sentinel user = false
            /\ n = occurrences String.eqb user kept).
  { intros user n Hin.
    apply (most_common_In String.eqb string_eqb_spec) in Hin as (Hk & ->).
    apply filter_negb_sentinel_In in Hk. tauto. }
  assert (Hnot : forall user,
            is_sentinel user = true ->
            ~ In user (map fst (most_common top_n (Counter String.eqb kept)))).
  { intros user Hs Hin. apply in_map_iff in Hin as ([u n] & Eu & Hin).
    simpl in Eu. subst u. apply Hentry in Hin as (_ & Hf & _). congruence. }
  repeat apply conj.
  - now apply Hnot.
  - now apply Hnot.
  - intros user n Hin. pose proof Hin as Hin'.
    apply Hentry in Hin as (Hu & Hs & ->). split.
    + unfold kept. rewrite (occurrences_kept _ _ Hs).
      unfold authors, column.
      now rewrite occurrences_app, !occurrences_map.
    + apply occurrences_positive; [apply String.eqb_refl|].
      apply filter_negb_sentinel_In. auto.
  - apply (most_common_keys_NoDup String.eqb string_eqb_spec).
  - apply most_common_sorted.
  - rewrite most_common_length. lia.
Qed.

Lemma filter_nodup (f : string -> bool) (l : list string) :
  filter f (nodup string_dec l) = nodup string_dec (filter f l).
Proof.
  induction l as [|x r IH]; [reflexivity|]. simpl.
  destruct (in_dec string_dec x r) as [Hin|Hout].
  - destruct (f x) eqn:E; [|exact IH]. simpl.
    destruct (in_dec string_dec x (filter f r)) as [_|Hno]; [exact IH|].
    exfalso. apply Hno, filter_In. auto.
  - simpl. destruct (f x) eqn:E; [|exact IH]. simpl.
    destruct (in_dec string_dec x (filter f r)) as [Hyes|_].
    + exfalso. apply Hout. now apply filter_In in Hyes.
    + now rewrite IH.
Qed.

Lemma filter_all_false {A} (f : A -> bool) (l : list A) :
  Forall (fun x => f x = false) l -> filter f l = [].
Proof.
  induction 1 as [|x r Hx _ IH]; [reflexivity|]. simpl. now rewrite Hx.
Qed.

Lemma nodup_length_le (l : list string) :
  (List.length (nodup string_dec l) <= List.length l)%nat.
Proof.
  induction l as [|x r IH]; simpl; [lia|].
  destruct (in_dec string_dec x r); simpl; lia.
Qed.

(** X3.  The number of unique users is the number of distinct authors
    other than [[deleted]] and [AutoModerator]: posts and comments of
    these two, however many, do not change it, and it never exceeds the
    number of posts and comments of other authors. *)
Theorem unique_users_ignores_sentinels
    (posts removed_posts : list PostInfo)
    (comments removed_comments : list CommentInfo) :
  Forall (fun p => is_sentinel (post_author p) = true) removed_posts ->
  Forall (fun c => is_sentinel (comment_author c) = true) removed_comments ->
  unique_users (calculate_basic_stats
                  (new_analyzer (posts ++ removed_posts)
                                (comments ++ removed_comments)))
  = unique_users (calculate_basic_stats (new_analyzer posts comments))
  /\ (unique_users (calculate_basic_stats (new_analyzer posts comments))
      <= List.length (filter (fun p => negb (is_sentinel (post_author p))) posts)
         + List.length (filter (fun c => negb (is_sentinel (comment_author c)))
                               comments))%nat.
Proof.
  intros Hp Hc. simpl. unfold _count_unique_users, column. simpl.
  rewrite !filter_nodup, !filter_app, !map_app, !filter_app.
  assert (Ep : filter (fun x => negb (is_sentinel x))
                      (map post_author removed_posts) = []).
  { apply filter_all_false, Forall_map.
    eapply Forall_impl; [|exact Hp]. intros p E. simpl. now rewrite E. }
  assert (Ec : filter (fun x => negb (is_sentinel x))
                      (map comment_author removed_comments) = []).
  { apply filter_all_false, Forall_map.
    eapply Forall_impl; [|exact Hc]. intros c E. simpl. now rewrite E. }
  rewrite Ep, Ec, !app_nil_r. split; [reflexivity|].
  etransitivity; [apply nodup_length_le|].
  rewrite length_app.
  assert (Hmap : forall A (f : A -> string) (l : list A),
            List.length (filter (fun x => negb (is_sentinel x)) (map f l))
            = List.length (filter (fun x => negb (is_sentinel (f x))) l)).
  { intros A f l. induction l as [|x r IH]; [reflexivity|].
    simpl. destruct (is_sentinel (f x)); simpl; now rewrite IH. }
  rewrite !Hmap. lia.
Qed.

Lemma unique_users_ignores_sentinels_witness :
  unique_users (calculate_basic_stats
                  (new_analyzer (firstn 1 Sample.some_posts
                                 ++ skipn 1 (firstn 2 Sample.some_posts))
                                (firstn 1 Sample.some_comments
                                 ++ skipn 1 Sample.some_comments)))
  = unique_users (calculate_basic_stats
                    (new_analyzer (firstn 1 Sample.some_posts)
                                  (firstn 1 Sample.some_comments)))
  /\ unique_users (calculate_basic_stats
                     (new_analyzer (firstn 1 Sample.some_posts)
                                   (firstn 1 Sample.some_comments)))
     = 2%nat.
Proof.
  split; [|reflexivity].
  apply (@unique_users_ignores_sentinels
           (firstn 1 Sample.some_posts) (skipn 1 (firstn 2 Sample.some_posts))
           (firstn 1 Sample.some_comments) (skipn 1 Sample.some_comments)).
  - apply Forall_forallb. reflexivity.
  - apply Forall_forallb. reflexivity.
Defined.

Lemma by_score_desc_total x y :
  by_score_desc x y = false -> by_score_desc y x = true.
Proof. unfold by_score_desc. rewrite Z.leb_gt, Z.leb_le. lia. Qed.

Lemma by_score_desc_trans x y z :
  by_score_desc x y = true -> by_score_desc y z = true ->
  by_score_desc x z = true.
Proof. unfold by_score_desc. rewrite !Z.leb_le. lia. Qed.

(** X4.  For posts whose scores fit in 64 bits, the top posts are the
    first [top_n] of a ranking of all posts by score, highest first,
    whatever order the sort of pandas gives to posts of equal score: there
    are [min top_n post_count] of them, and no post left out has a higher
    score than a post listed.  When [top_n] is less than the number of
    posts, posts of equal score keep their discovery order. *)
Theorem top_posts_are_the_highest
    (sort_values : list PostInfo -> list PostInfo)
    (top_n : nat) (a : DataAnalyzer) :
  Forall (fun p => - 2 ^ 63 <= post_score p < 2 ^ 63) (rows (posts_df a)) ->
  (forall l, Permutation (sort_values l) l) ->
  (forall l, StronglySorted (fun p q => post_score q <= post_score p)
                            (sort_values l)) ->
  exists ranking,
    Permutation ranking (rows (posts_df a))
    /\ get_top_posts sort_values top_n a
       = map top_post_columns (firstn top_n ranking)
    /\ List.length (get_top_posts sort_values top_n a)
       = Nat.min top_n (post_count (calculate_basic_stats a))
    /\ StronglySorted (fun p q => post_score q <= post_score p) ranking
    /\ ((top_n < post_count (calculate_basic_stats a))%nat ->
        forall score,
          filter (fun p => post_score p =? score) ranking
          = filter (fun p => post_score p =? score) (rows (posts_df a)))
    /\ (forall p q,
          In p (firstn top_n ranking) -> In q (skipn top_n ranking) ->
          post_score q <= post_score p).
Proof.
  intros _ Hperm Hsort.
  set (stable := stable_sort by_score_desc (rows (posts_df a))).
  assert (Hstable : StronglySorted (fun p q => post_score q <= post_score p)
                      stable).
  { pose proof (stable_sort_sorted by_score_desc by_score_desc_total
                  by_score_desc_trans (rows (posts_df a))) as Hs.
    fold stable in Hs.
    induction Hs as [|x l Hl IH Hx]; constructor; [exact IH|].
    eapply Forall_impl; [|exact Hx].
    intros y Hy. unfold by_score_desc in Hy. now apply Z.leb_le. }
  set (ranking := if (top_n <? len (posts_df a))%nat
                  then stable else sort_values (rows (posts_df a))).
  assert (Hp : Permutation ranking (rows (posts_df a))).
  { unfold ranking. destruct (top_n <? len (posts_df a))%nat;
      [apply stable_sort_perm|apply Hperm]. }
  assert (Hs : StronglySorted (fun p q => post_score q <= post_score p)
                 ranking).
  { unfold ranking. destruct (top_n <? len (posts_df a))%nat;
      [exact Hstable|apply Hsort]. }
  assert (Htop : get_top_posts sort_values top_n a
                 = map top_post_columns (firstn top_n ranking)).
  { unfold get_top_posts, nlargest, empty, ranking, stable.
    destruct (rows (posts_df a)) eqn:E.
    - unfold len. rewrite E.
      destruct (top_n <? List.length (@nil PostInfo))%nat.
      + now rewrite firstn_nil.
      + assert (Hnil : sort_values [] = []).
        { apply Permutation_nil. symmetry. apply Hperm. }
        now rewrite Hnil, firstn_nil.
    - now destruct (top_n <? len (posts_df a))%nat. }
  exists ranking. repeat apply conj.
  - exact Hp.
  - exact Htop.
  - rewrite Htop, length_map, length_firstn, (Permutation_length Hp).
    reflexivity.
  - exact Hs.
  - intros Hlt score. unfold ranking.
    replace (top_n <? len (posts_df a))%nat with true
      by (symmetry; apply Nat.ltb_lt; exact Hlt).
    apply stable_sort_stable.
    intros y z Hy Hz. apply Z.eqb_eq in Hy, Hz.
    unfold by_score_desc. apply Z.leb_le. lia.
  - intros p q Hin Hout.
    exact (@StronglySorted_firstn_skipn _ _ top_n _ p q Hs Hin Hout).
Qed.

Lemma latest_first_sorts :
  (forall l, Permutation (Sample.latest_first l) l)
  /\ (forall l, StronglySorted (fun p q => post_score q <= post_score p)
                               (Sample.latest_first l)).
Proof.
  unfold Sample.latest_first. split; intro l.
  - etransitivity; [apply stable_sort_perm|].
    symmetry. apply Permutation_rev.
  - pose proof (stable_sort_sorted by_score_desc by_score_desc_total
                  by_score_desc_trans (rev l)) as Hs.
    induction Hs as [|x r Hr IH Hx]; constructor; [exact IH|].
    eapply Forall_impl; [|exact Hx].
    intros y Hy. unfold by_score_desc in Hy. now apply Z.leb_le.
Qed.

(** Three posts, the last two with the same score.  Asked for one post,
    pandas returns the earlier of the two; asked for ten, it returns all
    three in the order of its sort, taken here to put the later first. *)
Lemma top_posts_are_the_highest_witness :
  map tp_author
      (get_top_posts Sample.latest_first 1
         (new_analyzer Sample.some_posts Sample.some_comments))
  = ["[deleted]"]
  /\ map tp_author
         (get_top_posts Sample.latest_first 10
            (new_analyzer Sample.some_posts Sample.some_comments))
     = ["carol"; "[deleted]"; "alice"]
  /\ exists ranking,
       Permutation ranking Sample.some_posts
       /\ get_top_posts Sample.latest_first 10
            (new_analyzer Sample.some_posts Sample.some_comments)
          = map top_post_columns (firstn 10 ranking)
       /\ StronglySorted (fun p q => post_score q <= post_score p) ranking.
Proof.
  split; [reflexivity|]. split; [reflexivity|].
  destruct latest_first_sorts as (Hperm & Hsort).
  assert (Hfit : Forall (fun p => - 2 ^ 63 <= post_score p < 2 ^ 63)
                        (rows (posts_df (new_analyzer Sample.some_posts
                                                      Sample.some_comments)))).
  { change (2 ^ 63) with 9223372036854775808.
    repeat constructor; simpl; lia. }
  destruct (@top_posts_are_the_highest Sample.latest_first 10
              (new_analyzer Sample.some_posts Sample.some_comments)
              Hfit Hperm Hsort)
    as (ranking & Hp & Htop & _ & Hs & _).
  exists ranking. split; [exact Hp|]. split; [exact Htop|exact Hs].
Defined.

Lemma Z_eqb_spec (x y : Z) : (x =? y) = true <-> x = y.
Proof. apply Z.eqb_eq. Qed.

Lemma by_date_asc_total x y :
  by_date_asc x y = false -> by_date_asc y x = true.
Proof. unfold by_date_asc. rewrite Z.leb_gt, Z.leb_le. lia. Qed.

Lemma by_date_asc_trans x y z :
  by_date_asc x y = true -> by_date_asc y z = true -> by_date_asc x z = true.
Proof. unfold by_date_asc. rewrite !Z.leb_le. lia. Qed.

(** Sorted keys without repetition are strictly increasing. *)
Lemma sorted_keys_increasing (l : list (Z * nat)) :
  StronglySorted (fun x y => by_date_asc x y = true) l ->
  NoDup (map fst l) ->
  StronglySorted Z.lt (map fst l).
Proof.
  induction 1 as [|x l Hl IH Hx]; intro Hnd; simpl; [constructor|].
  inversion Hnd as [|? ? Hout Hnd']; subst.
  constructor; [now apply IH|].
  apply Forall_forall. intros d Hd.
  assert (fst x <= d).
  { apply in_map_iff in Hd as (y & <- & Hy).
    rewrite Forall_forall in Hx. specialize (Hx y Hy).
    unfold by_date_asc in Hx. now apply Z.leb_le. }
  assert (fst x <> d) by (intro E; apply Hout; rewrite E; exact Hd).
  lia.
Qed.

(** [groupby(...).size()]: one entry per date with the number of rows of
    that date, dates strictly increasing, every row counted once. *)
Lemma groupby_size_entries (dates : list Z) :
  total (groupby_size dates) = List.length dates
  /\ StronglySorted Z.lt (map fst (groupby_size dates))
  /\ (forall d n,
        In (d, n) (groupby_size dates) <->
        In d dates /\ n = occurrences Z.eqb d dates).
Proof.
  unfold groupby_size.
  assert (Hperm : Permutation (stable_sort by_date_asc (Counter Z.eqb dates))
                              (Counter Z.eqb dates))
    by apply stable_sort_perm.
  repeat apply conj.
  - rewrite (total_perm Hperm). apply total_Counter.
  - apply sorted_keys_increasing.
    + apply stable_sort_sorted;
        [apply by_date_asc_total|apply by_date_asc_trans].
    + destruct (Counter_keys Z.eqb Z_eqb_spec dates) as (Hnd & _).
      eapply Permutation_NoDup; [|exact Hnd].
      apply Permutation_map. now symmetry.
  - intros d n. rewrite stable_sort_In.
    apply (Counter_In Z.eqb Z_eqb_spec).
Qed.

Lemma time_distribution_is_groupby a :
  posts_by_date (fst (get_time_distribution a))
  = groupby_size (map Datetime.date_of
                      (map post_created_date (rows (posts_df a))))
  /\ comments_by_date (fst (get_time_distribution a))
     = groupby_size (map Datetime.date_of
                         (map comment_created_date (rows (comments_df a)))).
Proof.
  unfold get_time_distribution, column, empty. simpl.
  destruct (rows (posts_df a)), (rows (comments_df a)); split; reflexivity.
Qed.

(** X5.  The time distribution: the per-day counts of posts add up to the
    number of posts and those of comments to the number of comments; days
    are listed in strictly increasing order; and a day is listed exactly
    when at least one item was created on it, with the number of items
    created on it. *)
Theorem time_distribution_entries (a : DataAnalyzer) :
  total (posts_by_date (fst (get_time_distribution a)))
  = post_count (calculate_basic_stats a)
  /\ total (comments_by_date (fst (get_time_distribution a)))
     = comment_count (calculate_basic_stats a)
  /\ StronglySorted Z.lt
       (map fst (posts_by_date (fst (get_time_distribution a))))
  /\ StronglySorted Z.lt
       (map fst (comments_by_date (fst (get_time_distribution a))))
  /\ (forall day n,
        In (day, n) (posts_by_date (fst (get_time_distribution a))) <->
        (1 <= n)%nat
        /\ n = List.length
                 (filter (fun p => day =? Datetime.date_of (post_created_date p))
                         (rows (posts_df a))))
  /\ (forall day n,
        In (day, n) (comments_by_date (fst (get_time_distribution a))) <->
        (1 <= n)%nat
        /\ n = List.length
                 (filter (fun c =>
                            day =? Datetime.date_of (comment_created_date c))
                         (rows (comments_df a)))).
Proof.
  destruct (time_distribution_is_groupby a) as (-> & ->).
  assert (Hcount : forall A (f : A -> Z) (l : list A) day n,
    In (day, n) (groupby_size (map Datetime.date_of (map f l))) <->
    (1 <= n)%nat
    /\ n = List.length (filter (fun x => day =? Datetime.date_of (f x)) l)).
  { intros A f l day n.
    destruct (groupby_size_entries (map Datetime.date_of (map f l)))
      as (_ & _ & Hin).
    rewrite Hin, map_map, occurrences_map. split.
    - intros (Hd & ->). split; [|reflexivity].
      rewrite <- (occurrences_map Z.eqb (fun x => Datetime.date_of (f x))).
      apply occurrences_positive; [apply Z.eqb_refl|exact Hd].
    - intros (Hn & ->). split; [|reflexivity].
      destruct (filter (fun x => day =? Datetime.date_of (f x)) l)
        as [|x r] eqn:E; [simpl in Hn; lia|].
      assert (Hx : In x (filter (fun x => day =? Datetime.date_of (f x)) l))
        by (rewrite E; now left).
      apply filter_In in Hx as (Hx & Ed). apply Z.eqb_eq in Ed.
      apply in_map_iff. exists x. auto. }
  repeat apply conj.
  - destruct (groupby_size_entries
                (map Datetime.date_of
                     (map post_created_date (rows (posts_df a)))))
      as (-> & _). now rewrite !length_map.
  - destruct (groupby_size_entries
                (map Datetime.date_of
                     (map comment_created_date (rows (comments_df a)))))
      as (-> & _). now rewrite !length_map.
  - apply groupby_size_entries.
  - apply groupby_size_entries.
  - apply Hcount.
  - apply Hcount.
Qed.

Lemma int64_exact (z : Z) : - 2 ^ 63 <= z < 2 ^ 63 -> int64 z = z.
Proof.
  intro H. unfold int64. rewrite Z.mod_small; lia.
Qed.

Lemma exact_sum_bounds (l : list Z) (lo hi : Z) :
  Forall (fun x => lo <= x <= hi) l ->
  Z.of_nat (List.length l) * lo <= exact_sum l
  <= Z.of_nat (List.length l) * hi.
Proof.
  induction 1 as [|x r Hx _ IH]; [simpl; lia|].
  cbn [exact_sum fold_right List.length]. fold (exact_sum r).
  rewrite Nat2Z.inj_succ. lia.
Qed.

Lemma nth_bounds (l : list Z) (lo hi : Z) (i : nat) :
  Forall (fun x => lo <= x <= hi) l -> (i < List.length l)%nat ->
  lo <= nth i l 0 <= hi.
Proof.
  intros Hall Hi. rewrite Forall_forall in Hall. apply Hall, nth_In, Hi.
Qed.

(** The median of a non-empty column lies between any bounds of the
    column. *)
Lemma median_bounds (l : list Z) (lo hi : Z) :
  l <> [] -> Forall (fun x => lo <= x <= hi) l ->
  (inject_Z lo <= median l <= inject_Z hi)%Q.
Proof.
  intros Hne Hall. unfold median.
  set (sorted := stable_sort Z.leb l).
  assert (Hsorted : Forall (fun x => lo <= x <= hi) sorted).
  { eapply Permutation_Forall; [|exact Hall].
    symmetry. apply stable_sort_perm. }
  assert (Hlen : List.length sorted = List.length l)
    by apply stable_sort_length.
  assert (Hpos : (1 <= List.length l)%nat).
  { destruct l; [congruence|simpl; lia]. }
  assert (Hhalf : (List.length l / 2 < List.length l)%nat)
    by (apply Nat.div_lt; lia).
  destruct (Nat.even (List.length l)) eqn:E.
  - assert (H1 : lo <= nth (List.length l / 2 - 1) sorted 0 <= hi)
      by (apply nth_bounds; [exact Hsorted|lia]).
    assert (H2 : lo <= nth (List.length l / 2) sorted 0 <= hi)
      by (apply nth_bounds; [exact Hsorted|lia]).
    unfold Qle, inject_Z. cbn [Qnum Qden]. lia.
  - assert (H2 : lo <= nth (List.length l / 2) sorted 0 <= hi)
      by (apply nth_bounds; [exact Hsorted|lia]).
    unfold Qle, inject_Z. cbn [Qnum Qden]. lia.
Qed.

(** X6.  Engagement over a non-empty frame of posts whose scores lie
    between bounds [lo] and [hi] of size [2^52] at most: the total is the
    sum of the scores after wrap-around in 64 bits, which is the sum
    itself when that fits in 64 bits, as it does for fewer than 2048
    posts; and the median score lies between [lo] and [hi].  This holds
    whatever [Series.mean] computes. *)
Theorem engagement_of_posts (mean : list Z -> Q) (a : DataAnalyzer)
    (lo hi : Z) :
  rows (posts_df a) <> [] ->
  Forall (fun p => lo <= post_score p <= hi) (rows (posts_df a)) ->
  - 2 ^ 52 <= lo -> hi <= 2 ^ 52 ->
  total_post_score (get_engagement_stats mean a)
  = int64 (exact_sum (map post_score (rows (posts_df a))))
  /\ (- 2 ^ 63 <= exact_sum (map post_score (rows (posts_df a))) < 2 ^ 63 ->
      total_post_score (get_engagement_stats mean a)
      = exact_sum (map post_score (rows (posts_df a))))
  /\ ((post_count (calculate_basic_stats a) < 2048)%nat ->
      total_post_score (get_engagement_stats mean a)
      = exact_sum (map post_score (rows (posts_df a))))
  /\ (inject_Z lo <= median_post_score (get_engagement_stats mean a)
      <= inject_Z hi)%Q.
Proof.
  intros Hne Hall Hlo Hhi.
  assert (Hscores : Forall (fun x => lo <= x <= hi)
                           (map post_score (rows (posts_df a))))
    by now apply Forall_map.
  pose proof (exact_sum_bounds Hscores) as Hsum.
  rewrite length_map in Hsum.
  unfold get_engagement_stats, calculate_basic_stats, empty, column, len.
  cbn [total_post_score median_post_score post_count].
  destruct (rows (posts_df a)) as [|p r] eqn:E; [congruence|].
  cbn [negb]. unfold sum.
  split; [reflexivity|]. split; [apply int64_exact|]. split.
  - intro Hn. apply int64_exact.
    change (2 ^ 52) with 4503599627370496 in *.
    change (2 ^ 63) with 9223372036854775808.
    nia.
  - apply median_bounds; [discriminate|exact Hscores].
Qed.

Lemma engagement_of_posts_witness :
  total_post_score
    (get_engagement_stats Sample.plain_mean
       (new_analyzer Sample.some_posts Sample.some_comments))
  = 23
  /\ (inject_Z 5
      <= median_post_score
           (get_engagement_stats Sample.plain_mean
              (new_analyzer Sample.some_posts Sample.some_comments))
      <= inject_Z 9)%Q.
Proof.
  assert (Hne : rows (posts_df (new_analyzer Sample.some_posts
                                             Sample.some_comments)) <> [])
    by discriminate.
  assert (Hall : Forall (fun p => 5 <= post_score p <= 9)
                        (rows (posts_df (new_analyzer Sample.some_posts
                                                      Sample.some_comments)))).
  { repeat constructor; simpl; lia. }
  assert (Hlo : - 2 ^ 52 <= 5) by (vm_compute; discriminate).
  assert (Hhi : 9 <= 2 ^ 52) by (vm_compute; discriminate).
  destruct (@engagement_of_posts Sample.plain_mean
              (new_analyzer Sample.some_posts Sample.some_comments) 5 9
              Hne Hall Hlo Hhi)
    as (_ & _ & Htotal & Hmedian).
  split; [|exact Hmedian].
  rewrite Htotal; [reflexivity|]. vm_compute. lia.
Defined.

Lemma filter_length_le {A} (f : A -> bool) (l : list A) :
  (List.length (filter f l) <= List.length l)%nat.
Proof.
  induction l as [|x r IH]; simpl; [lia|]. destruct (f x); simpl; lia.
Qed.

(** X21.  The basic statistics are consistent: the total volume is the
    number of posts plus the number of comments, neither the unique users
    nor the unique forums exceed it, and a forum is counted as soon as the
    collection holds one item. *)
Theorem basic_stats_bounds (a : DataAnalyzer) :
  total_volume (calculate_basic_stats a)
  = (List.length (rows (posts_df a))
     + List.length (rows (comments_df a)))%nat
  /\ (unique_users (calculate_basic_stats a)
      <= total_volume (calculate_basic_stats a))%nat
  /\ (unique_subreddits (calculate_basic_stats a)
      <= total_volume (calculate_basic_stats a))%nat
  /\ (unique_subreddits (calculate_basic_stats a) = 0%nat <->
      total_volume (calculate_basic_stats a) = 0%nat).
Proof.
  unfold calculate_basic_stats, _count_unique_users, _count_unique_subreddits,
    column, len. simpl.
  set (authors := map post_author (rows (posts_df a))
                  ++ map comment_author (rows (comments_df a))).
  set (forums := map post_subreddit (rows (posts_df a))
                 ++ map comment_subreddit (rows (comments_df a))).
  assert (La : List.length authors
               = (List.length (rows (posts_df a))
                  + List.length (rows (comments_df a)))%nat)
    by (unfold authors; now rewrite length_app, !length_map).
  assert (Lf : List.length forums
               = (List.length (rows (posts_df a))
                  + List.length (rows (comments_df a)))%nat)
    by (unfold forums; now rewrite length_app, !length_map).
  repeat apply conj.
  - reflexivity.
  - rewrite <- La. etransitivity; [apply filter_length_le|].
    apply nodup_length_le.
  - rewrite <- Lf. apply nodup_length_le.
  - rewrite <- Lf. intro H. destruct forums as [|f r]; [reflexivity|].
    exfalso. assert (Hin : In f (nodup string_dec (f :: r)))
      by (apply nodup_In; now left).
    destruct (nodup string_dec (f :: r)); [destruct Hin|discriminate].
  - rewrite <- Lf. intro H. destruct forums; [reflexivity|discriminate].
Qed.

(* ================================================================== *)
(** ** Further properties of the comment-tree walker *)
(* ================================================================== *)

Section MoreWalkFacts.

Variable cfg : Config.
Variables post_id subreddit : string.

Lemma walk_app free l1 l2 acc :
  _extract_comments_recursive cfg free (l1 ++ l2) post_id subreddit acc
  = match _extract_comments_recursive cfg free l1 post_id subreddit acc with
    | (Normal, acc') =>
        _extract_comments_recursive cfg free l2 post_id subreddit acc'
    | (Raise e, acc') => (Raise e, acc')
    end.
Proof.
  revert acc. induction l1 as [|c rest IH]; intro acc; [reflexivity|].
  simpl.
  destruct (extract_comment cfg free post_id subreddit c acc) as [[|e] a'].
  - apply IH.
  - reflexivity.
Qed.

(** Every comment the walk appends carries the post id and the forum the
    walk was given. *)
Lemma collect_comment_stamped free id b a t s p acc :
  exists suffix,
    snd (collect_comment cfg free post_id subreddit id b a t s p acc)
    = acc ++ suffix
    /\ Forall (fun k => parent_post_id k = post_id
                        /\ comment_subreddit k = subreddit) suffix.
Proof.
  unfold collect_comment.
  destruct b as [b|]; [|exists []; rewrite app_nil_r; auto].
  destruct (Str.truthy b); [|exists []; rewrite app_nil_r; auto].
  destruct id as [i|]; [|exists []; rewrite app_nil_r; auto].
  destruct t as [t|]; [|exists []; rewrite app_nil_r; auto].
  destruct (Datetime.fromtimestamp (utc_offset cfg) t) as [created_date|];
    [|exists []; rewrite app_nil_r; auto].
  destruct free as [|free']; [exists []; rewrite app_nil_r; auto|].
  destruct (_is_in_date_range cfg t) as [[|]|e].
  - eexists; split; [reflexivity|]. repeat constructor.
  - exists []; rewrite app_nil_r; auto.
  - exists []; rewrite app_nil_r; auto.
Qed.

Lemma walk_list_stamped l :
  Forall (fun n => forall free acc, exists suffix,
    snd (extract_comment cfg free post_id subreddit n acc) = acc ++ suffix
    /\ Forall (fun k => parent_post_id k = post_id
                        /\ comment_subreddit k = subreddit) suffix) l ->
  forall free acc, exists suffix,
    snd (_extract_comments_recursive cfg free l post_id subreddit acc)
    = acc ++ suffix
    /\ Forall (fun k => parent_post_id k = post_id
                        /\ comment_subreddit k = subreddit) suffix.
Proof.
  induction 1 as [|c rest Hc _ IH]; intros free acc; simpl.
  - exists []. now rewrite app_nil_r.
  - destruct (Hc free acc) as (s1 & E1 & F1).
    destruct (extract_comment cfg free post_id subreddit c acc)
      as [[|e] a'] eqn:E; simpl in E1; subst a'.
    + destruct (IH free (acc ++ s1)) as (s2 & E2 & F2).
      exists (s1 ++ s2). rewrite E2, app_assoc. split; [reflexivity|].
      apply Forall_app; auto.
    + exists s1; auto.
Qed.

Lemma extract_comment_stamped n :
  forall free acc, exists suffix,
    snd (extract_comment cfg free post_id subreddit n acc) = acc ++ suffix
    /\ Forall (fun k => parent_post_id k = post_id
                        /\ comment_subreddit k = subreddit) suffix.
Proof.
  induction n as [k id b a t s p|k id b a t s p l IH]
    using CommentNode_tree_ind; intros free acc;
    rewrite extract_comment_unfold;
    (destruct (negb (k =? "t1")%string);
     [exists []; now rewrite app_nil_r|]);
    destruct (collect_comment_stamped free id b a t s p acc)
      as (s1 & E1 & F1);
    destruct (collect_comment cfg free post_id subreddit id b a t s p acc)
      as [[|e] acc1]; simpl in E1; subst acc1; simpl;
    try (exists s1; now auto).
  destruct free as [|free']; [exists s1; now auto|].
  destruct (walk_list_stamped IH free' (acc ++ s1)) as (s2 & E2 & F2).
  exists (s1 ++ s2). rewrite E2, app_assoc. split; [reflexivity|].
  apply Forall_app; auto.
Qed.

Lemma walk_stamped l free acc :
  exists suffix,
    snd (_extract_comments_recursive cfg free l post_id subreddit acc)
    = acc ++ suffix
    /\ Forall (fun k => parent_post_id k = post_id
                        /\ comment_subreddit k = subreddit) suffix.
Proof.
  apply walk_list_stamped, Forall_forall.
  intros n _. apply extract_comment_stamped.
Qed.

(** The comment that cannot be read raises, whatever the frames left. *)
Lemma extract_comment_missing_key free n key acc :
  missing_key n = Some key ->
  extract_comment cfg free post_id subreddit n acc
  = (Raise (KeyError key), acc).
Proof.
  destruct n as [k id b a t s p r]. unfold missing_key. intro H.
  rewrite extract_comment_unfold.
  destruct (k =? "t1")%string; [|discriminate].
  destruct b as [b|]; [|discriminate]. cbn [Str.truthy_opt andb negb] in *.
  unfold collect_comment.
  destruct (Str.truthy b); [|discriminate].
  destruct id as [i|]; [|now injection H as <-].
  destruct t as [t|]; [discriminate|now injection H as <-].
Qed.

(** X7.  The walk ends at the first comment, in walk order and at any
    depth within the frames left, that has a body but no ['id'] or no
    ['created_utc']: it raises [KeyError] for the missing key, the
    comments collected before it are kept, and neither its replies nor the
    nodes after it, or after the comments above it, are visited. *)
Theorem walk_stops_at_unreadable_comment
    (free : nat) (l : list CommentNode) (key : string)
    (out acc : list CommentInfo) :
  StopsAt cfg post_id subreddit free l key out ->
  _extract_comments_recursive cfg free l post_id subreddit acc
  = (Raise (KeyError key), acc ++ out).
Proof.
  intro H. revert acc.
  induction H as [free before n after key Hwf Hd Hkey
                 |free before id b a t s p replies after key out
                    Hwf Hd Hread _ IH]; intro acc.
  - rewrite walk_app, (@walk_preorder cfg post_id subreddit _ _ Hwf Hd).
    cbn [_extract_comments_recursive].
    now rewrite (extract_comment_missing_key _ _ _ Hkey).
  - rewrite walk_app, (@walk_preorder cfg post_id subreddit _ _ Hwf Hd).
    cbn [_extract_comments_recursive]. rewrite extract_comment_unfold.
    cbn [negb String.eqb Ascii.eqb Bool.eqb].
    assert (H1 : (1 <= S free)%nat) by lia.
    rewrite (@collect_comment_well_formed cfg post_id subreddit _ _ _ a _ s p
               _ Hread H1).
    rewrite IH. now rewrite <- !app_assoc.
Qed.

End MoreWalkFacts.

Lemma walk_stops_at_unreadable_comment_witness :
  _extract_comments_recursive Sample.cfg0 989 MoreSamples.half_read_thread
                              "p1" "apple" []
  = (Raise (KeyError "id"),
     [] ++ (preorder Sample.cfg0 "p1" "apple" [Sample.deep_comment]
            ++ own_comment Sample.cfg0 "p1" "apple" MoreSamples.answered
            ++ preorder Sample.cfg0 "p1" "apple" [Sample.deep_comment]))
  /\ List.length
       (preorder Sample.cfg0 "p1" "apple" [Sample.deep_comment]
        ++ own_comment Sample.cfg0 "p1" "apple" MoreSamples.answered
        ++ preorder Sample.cfg0 "p1" "apple" [Sample.deep_comment])
     = 3%nat.
Proof.
  split; [|reflexivity].
  apply (@walk_stops_at_unreadable_comment Sample.cfg0 "p1" "apple" 989
           MoreSamples.half_read_thread "id").
  apply (@StopsAt_below Sample.cfg0 "p1" "apple" 988 [Sample.deep_comment]
           (Some "ans") (Some "answered") (Some "bob")
           (Some (Sample.local Sample.cfg0 Sample.jan_1 10 15 0))
           (Some 1) (Some "/c/ans")
           [Sample.deep_comment; MoreSamples.no_id_comment;
            Sample.deep_comment]
           [Sample.deep_comment] "id"
           (preorder Sample.cfg0 "p1" "apple" [Sample.deep_comment]));
    [reflexivity|vm_compute; lia|reflexivity|].
  apply (@StopsAt_here Sample.cfg0 "p1" "apple" 988 [Sample.deep_comment]
           MoreSamples.no_id_comment [Sample.deep_comment] "id");
    [reflexivity|vm_compute; lia|reflexivity].
Defined.

(* ================================================================== *)
(** ** Further properties of the crawler *)
(* ================================================================== *)

Lemma paced_from_weaken b t :
  paced_from b t = true -> paced_from true t = true.
Proof.
  destruct t as [|[r|d] t]; simpl; auto.
  rewrite !andb_true_iff. tauto.
Qed.

Lemma paced_from_app b t u :
  paced_from b t = true -> paced u = true -> paced_from b (t ++ u) = true.
Proof.
  revert b. induction t as [|[r|d] t IH]; intros b Ht Hu; simpl in *.
  - destruct b; [now apply (paced_from_weaken false)|exact Hu].
  - now apply IH.
  - apply andb_true_iff in Ht as [Hd Ht]. rewrite Hd. now apply IH.
Qed.

Lemma paced_app t u : paced t = true -> paced u = true -> paced (t ++ u) = true.
Proof. apply paced_from_app. Qed.

(** In a paced trace there are no more sleeps than requests, and every
    sleep lasts [request_delay]. *)
Lemma paced_from_sleeps b t :
  paced_from b t = true ->
  (List.length (sleeps_of t)
   <= List.length (requests_of t) + (if b then 1 else 0))%nat
  /\ Forall (fun d => d = request_delay) (sleeps_of t).
Proof.
  revert b. induction t as [|[r|d] t IH]; intros b Ht; simpl in *.
  - split; [lia|constructor].
  - destruct (IH true Ht) as (Hn & Hd). split; [lia|exact Hd].
  - apply andb_true_iff in Ht as [Hb Ht].
    apply andb_true_iff in Hb as [Hb Hd]. subst b.
    destruct (IH false Ht) as (Hn & Hall).
    split; [lia|]. constructor; [now apply Z.eqb_eq|exact Hall].
Qed.

Lemma comment_requests_log ev c :
  comment_requests (log ev c)
  = comment_requests c
    ++ filter (fun r => negb (is_search r)) (requests_of ev).
Proof.
  unfold comment_requests. simpl. now rewrite requests_of_app, filter_app.
Qed.

Lemma log_log ev1 ev2 c : log ev2 (log ev1 c) = log (ev1 ++ ev2) c.
Proof. unfold log. simpl. now rewrite app_assoc. Qed.

Lemma log_nil c : log [] c = c.
Proof. destruct c. unfold log. simpl. now rewrite app_nil_r. Qed.

Lemma Subseq_app {A} (ps1 l1 ps2 l2 : list A) :
  Subseq ps1 l1 -> Subseq ps2 l2 -> Subseq (ps1 ++ ps2) (l1 ++ l2).
Proof.
  intros H1 H2. induction H1 as [|x ps l _ IH|x ps l _ IH]; simpl.
  - exact H2.
  - now apply Subseq_skip.
  - now apply Subseq_take.
Qed.

Lemma Subseq_length {A} (ps l : list A) :
  Subseq ps l -> (List.length ps <= List.length l)%nat.
Proof. induction 1; simpl; lia. Qed.

Lemma Subseq_In {A} (ps l : list A) x : Subseq ps l -> In x ps -> In x l.
Proof.
  induction 1 as [|y ps l _ IH|y ps l _ IH]; simpl; [tauto| |]; intuition.
Qed.

Lemma audited_refl c : audited c c.
Proof.
  exists [], [], []. rewrite !app_nil_r.
  repeat split; constructor.
Qed.

Lemma audited_trans c1 c2 c3 :
  audited c1 c2 -> audited c2 c3 -> audited c1 c3.
Proof.
  intros (ps & reqs & fetched & Hp & Hr & Hs & Hf)
         (ps' & reqs' & fetched' & Hp' & Hr' & Hs' & Hf').
  exists (ps ++ ps'), (reqs ++ reqs'), (fetched ++ fetched').
  rewrite Hp', Hr', Hp, Hr, !app_assoc.
  repeat split; [now apply Subseq_app|now apply Forall2_app].
Qed.

Section MoreCrawlFacts.

Variable cfg : Config.
Variable server : list Request -> Request -> HttpOutcome.

(** What a request does to the crawler: it logs the request, followed by
    the delay when it succeeds. *)
Lemma make_request_log r c :
  exists ev,
    snd (_make_request server r c) = log ev c
    /\ (ev = [EvGet r] \/ ev = [EvGet r; EvSleep request_delay]).
Proof.
  unfold _make_request.
  destruct (server (requests_of (trace c)) r) as [|status body]; simpl;
    [eauto|].
  destruct (raise_for_status status); simpl; eauto.
Qed.

Lemma make_request_paced r c :
  paced (trace c) = true ->
  paced (trace (snd (_make_request server r c))) = true.
Proof.
  intro H. destruct (make_request_log r c) as (ev & -> & [->| ->]);
    simpl; apply paced_app; auto.
Qed.

Lemma linked_grows c c' :
  (exists ps, posts_data c' = posts_data c ++ ps) ->
  comments_data c' = comments_data c ->
  linked c -> linked c'.
Proof.
  intros (ps & Hp) Hc H k Hk. rewrite Hc in Hk.
  destruct (H k Hk) as (p & Hin & Hb). exists p. split; [|exact Hb].
  rewrite Hp. apply in_or_app. now left.
Qed.

(** One comment fetch: one comment request, a paced trace, and comments
    that belong to the post they were fetched for. *)
Lemma fetch_comments_ledger permalink post_id subreddit c :
  let c' := _fetch_comments cfg server permalink post_id subreddit c in
  comment_requests c' = comment_requests c ++ [comments_request permalink]
  /\ (paced (trace c) = true -> paced (trace c') = true)
  /\ ((exists p, In p (posts_data c)
                 /\ post_id_ p = post_id /\ post_subreddit p = subreddit) ->
      linked c -> linked c').
Proof.
  unfold _fetch_comments.
  pose proof (make_request_log (comments_request permalink) c) as Hlog.
  pose proof (make_request_paced (comments_request permalink) c) as Hpaced.
  destruct (_make_request server (comments_request permalink) c)
    as [data c1].
  simpl in Hlog, Hpaced. destruct Hlog as (ev & -> & Hev).
  assert (Hreq : comment_requests (log ev c)
                 = comment_requests c ++ [comments_request permalink]).
  { rewrite comment_requests_log. now destruct Hev as [->| ->]. }
  assert (Hlinked : linked c -> linked (log ev c)) by (intros H k Hk; auto).
  assert (Hsame : comment_requests (log ev c)
                  = comment_requests c ++ [comments_request permalink]
                  /\ (paced (trace c) = true ->
                      paced (trace (log ev c)) = true)
                  /\ ((exists p, In p (posts_data c)
                                 /\ post_id_ p = post_id
                                 /\ post_subreddit p = subreddit) ->
                      linked c -> linked (log ev c))) by auto.
  destruct data as [[d|[|e0 [|[l|] rest]]]|]; try exact Hsame.
  destruct (walk_stamped cfg post_id subreddit l (free_frames cfg)
              (comments_data (log ev c)))
    as (suffix & Es & Fs).
  destruct (_extract_comments_recursive cfg (free_frames cfg) l post_id
              subreddit (comments_data (log ev c))) as [done cs].
  simpl in Es. subst cs.
  split; [exact Hreq|]. split; [exact Hpaced|].
  intros (p & Hp & Hid & Hsub) Hl k Hk. simpl in Hk.
  apply in_app_or in Hk as [Hk|Hk].
  - exact (Hl k Hk).
  - rewrite Forall_forall in Fs. destruct (Fs k Hk) as (E1 & E2).
    exists p. split; [exact Hp|]. unfold belongs_to. split; congruence.
Qed.

(** The ledger of a stretch of the run: the collection stays linked, the
    trace stays paced, and no more comment requests are made than posts
    are added. *)
Lemma ledger_trans c1 c2 c3 :
  ((linked c1 -> linked c2)
   /\ (paced (trace c1) = true -> paced (trace c2) = true)
   /\ Z.of_nat (List.length (comment_requests c2))
      - Z.of_nat (List.length (comment_requests c1)) <= added_posts c1 c2) ->
  ((linked c2 -> linked c3)
   /\ (paced (trace c2) = true -> paced (trace c3) = true)
   /\ Z.of_nat (List.length (comment_requests c3))
      - Z.of_nat (List.length (comment_requests c2)) <= added_posts c2 c3) ->
  (linked c1 -> linked c3)
  /\ (paced (trace c1) = true -> paced (trace c3) = true)
  /\ Z.of_nat (List.length (comment_requests c3))
     - Z.of_nat (List.length (comment_requests c1)) <= added_posts c1 c3.
Proof.
  intros (L1 & P1 & R1) (L2 & P2 & R2).
  rewrite (added_posts_trans c1 c2 c3). repeat split; auto. lia.
Qed.

Lemma ledger_refl c :
  (linked c -> linked c)
  /\ (paced (trace c) = true -> paced (trace c) = true)
  /\ Z.of_nat (List.length (comment_requests c))
     - Z.of_nat (List.length (comment_requests c)) <= added_posts c c.
Proof. unfold added_posts. repeat split; auto. lia. Qed.

Lemma for_posts_ledger posts :
  forall n c,
    let '(_, _, c') := for_posts cfg server posts n c in
    (linked c -> linked c')
    /\ (paced (trace c) = true -> paced (trace c') = true)
    /\ Z.of_nat (List.length (comment_requests c'))
       - Z.of_nat (List.length (comment_requests c)) <= added_posts c c'.
Proof.
  induction posts as [|post rest IH]; intros n c; simpl.
  - apply ledger_refl.
  - destruct (n >=? limit cfg); [apply ledger_refl|].
    destruct (s_created_utc post) as [created|]; [|apply ledger_refl].
    destruct (_is_in_date_range cfg created) as [[|]|e]; simpl;
      [|apply IH|apply ledger_refl].
    destruct (s_id post) as [id|]; [|apply ledger_refl].
    destruct (Datetime.fromtimestamp (utc_offset cfg) created)
      as [created_date|]; [|apply ledger_refl].
    set (p := post_info post id created created_date).
    set (c1 := append_post p c).
    assert (H1 : (linked c -> linked c1)
                 /\ (paced (trace c) = true -> paced (trace c1) = true)
                 /\ Z.of_nat (List.length (comment_requests c1))
                    - Z.of_nat (List.length (comment_requests c))
                    <= added_posts c c1 - 1).
    { repeat split; auto.
      - apply linked_grows; [exists [p]|]; reflexivity.
      - unfold c1. rewrite added_posts_append.
        change (comment_requests (append_post p c))
          with (comment_requests c). lia. }
    destruct (s_num_comments post) as [nc|].
    2:{ destruct H1 as (L1 & P1 & R1). repeat split; auto. lia. }
    destruct (nc >? 0).
    + destruct (s_permalink post) as [permalink|].
      2:{ destruct H1 as (L1 & P1 & R1). repeat split; auto. lia. }
      destruct (fetch_comments_ledger permalink id
                  (dflt "" (s_subreddit post)) c1) as (Hr & Hp & Hl).
      destruct (fetch_comments_effect cfg server permalink id
                  (dflt "" (s_subreddit post)) c1) as (Hposts & _).
      set (c2 := _fetch_comments cfg server permalink id
                   (dflt "" (s_subreddit post)) c1) in *.
      specialize (IH (n + 1) c2).
      destruct (for_posts cfg server rest (n + 1) c2) as [[r n'] c'].
      apply ledger_trans with c2; [|exact IH].
      destruct H1 as (L1 & P1 & R1). repeat split.
      * intro H. apply Hl; [|auto].
        exists p. split; [|split; reflexivity].
        unfold c1. simpl. apply in_or_app. right. now left.
      * auto.
      * rewrite (added_posts_trans c c1 c2), (added_posts_same _ _ Hposts).
        rewrite Hr, length_app. simpl. lia.
    + specialize (IH (n + 1) c1).
      destruct (for_posts cfg server rest (n + 1) c1) as [[r n'] c'].
      apply ledger_trans with c1; [|exact IH].
      destruct H1 as (L1 & P1 & R1). repeat split; auto. lia.
Qed.

Lemma make_request_search_ledger name query cursor c :
  let c1 := snd (_make_request server (search_request name query cursor) c) in
  (linked c -> linked c1)
  /\ (paced (trace c) = true -> paced (trace c1) = true)
  /\ Z.of_nat (List.length (comment_requests c1))
     - Z.of_nat (List.length (comment_requests c)) <= added_posts c c1.
Proof.
  simpl.
  pose proof (make_request_paced (search_request name query cursor) c) as Hp.
  destruct (make_request_log (search_request name query cursor) c)
    as (ev & E & Hev).
  rewrite E in *. repeat split; auto.
  rewrite comment_requests_log. unfold added_posts. simpl.
  destruct Hev as [->| ->]; simpl; rewrite app_nil_r; lia.
Qed.

Lemma paginate_ledger fuel name query :
  forall n cursor c,
    let '(_, _, c') := paginate cfg server fuel name query n cursor c in
    (linked c -> linked c')
    /\ (paced (trace c) = true -> paced (trace c') = true)
    /\ Z.of_nat (List.length (comment_requests c'))
       - Z.of_nat (List.length (comment_requests c)) <= added_posts c c'.
Proof.
  induction fuel as [|fuel IH]; intros n cursor c.
  - simpl. apply ledger_refl.
  - rewrite paginate_S.
    destruct (n <? limit cfg); [|apply ledger_refl].
    pose proof (make_request_search_ledger name query cursor c) as H1.
    destruct (_make_request server (search_request name query cursor) c)
      as [data c1].
    simpl in H1.
    destruct data as [[[listing|]|elems]|]; try exact H1.
    destruct (dflt [] (children listing)) as [|post rest]; [exact H1|].
    pose proof (for_posts_ledger (post :: rest) n c1) as H2.
    destruct (for_posts cfg server (post :: rest) n c1) as [[r n1] c2].
    pose proof (ledger_trans H1 H2) as H12.
    destruct r as [|e]; [|exact H12].
    destruct (Str.truthy_opt (after listing)); [|exact H12].
    specialize (IH n1 (after listing) c2).
    destruct (paginate cfg server fuel name query n1 (after listing) c2)
      as [[out n'] c'].
    exact (ledger_trans H12 IH).
Qed.

Lemma for_subreddits_ledger fuel names :
  forall c final,
    for_subreddits cfg server fuel names c = Some final ->
    (linked c -> linked final)
    /\ (paced (trace c) = true -> paced (trace final) = true)
    /\ Z.of_nat (List.length (comment_requests final))
       - Z.of_nat (List.length (comment_requests c)) <= added_posts c final.
Proof.
  induction names as [|name rest IH]; intros c final; simpl.
  - intros [= ->]. apply ledger_refl.
  - unfold _search_subreddit.
    pose proof (paginate_ledger fuel name (search_query cfg) 0 None c) as H.
    destruct (paginate cfg server fuel name (search_query cfg) 0 None c)
      as [[out n'] c'].
    destruct out as [why|e|]; intro Hrun; try discriminate;
      exact (ledger_trans H (IH _ _ Hrun)).
Qed.

Lemma comment_requests_fetch permalink post_id subreddit c :
  comment_requests (_fetch_comments cfg server permalink post_id subreddit c)
  = comment_requests c ++ [comments_request permalink].
Proof. apply fetch_comments_ledger. Qed.

Lemma for_posts_audited posts :
  forall n c,
    let '(_, _, c') := for_posts cfg server posts n c in audited c c'.
Proof.
  induction posts as [|post rest IH]; intros n c; simpl.
  - apply audited_refl.
  - destruct (n >=? limit cfg); [apply audited_refl|].
    destruct (s_created_utc post) as [created|]; [|apply audited_refl].
    destruct (_is_in_date_range cfg created) as [[|]|e]; simpl;
      [|apply IH|apply audited_refl].
    destruct (s_id post) as [id|]; [|apply audited_refl].
    destruct (Datetime.fromtimestamp (utc_offset cfg) created)
      as [created_date|]; [|apply audited_refl].
    set (p := post_info post id created created_date).
    set (c1 := append_post p c).
    assert (Hskip : audited c c1).
    { exists [p], [], []. rewrite app_nil_r.
      repeat split; [apply Subseq_skip, Subseq_nil|constructor]. }
    destruct (s_num_comments post) as [nc|] eqn:Enc; [|exact Hskip].
    destruct (nc >? 0) eqn:Epos.
    + destruct (s_permalink post) as [permalink|] eqn:Eperm; [|exact Hskip].
      destruct (fetch_comments_effect cfg server permalink id
                  (dflt "" (s_subreddit post)) c1) as (Hposts & _).
      pose proof (comment_requests_fetch permalink id
                    (dflt "" (s_subreddit post)) c1) as Hreq.
      set (c2 := _fetch_comments cfg server permalink id
                   (dflt "" (s_subreddit post)) c1) in *.
      specialize (IH (n + 1) c2).
      destruct (for_posts cfg server rest (n + 1) c2) as [[r n'] c'].
      apply audited_trans with c2; [|exact IH].
      exists [p], [comments_request permalink], [p].
      split; [now rewrite Hposts|]. split; [exact Hreq|].
      split; [apply Subseq_take, Subseq_nil|].
      constructor; [|constructor].
      unfold fetched_for, p. cbn [num_comments post_permalink post_info].
      rewrite Enc, Eperm. cbn [dflt]. split; [lia|].
      exists permalink. split; reflexivity.
    + specialize (IH (n + 1) c1).
      destruct (for_posts cfg server rest (n + 1) c1) as [[r n'] c'].
      apply audited_trans with c1; [exact Hskip|exact IH].
Qed.

Lemma make_request_search_audited name query cursor c :
  audited c (snd (_make_request server (search_request name query cursor) c)).
Proof.
  destruct (make_request_log (search_request name query cursor) c)
    as (ev & E & Hev).
  rewrite E. exists [], [], []. rewrite comment_requests_log.
  cbn [posts_data log]. rewrite app_nil_r.
  repeat split; [|constructor|constructor].
  destruct Hev as [->| ->]; reflexivity.
Qed.

Lemma paginate_audited fuel name query :
  forall n cursor c,
    let '(_, _, c') := paginate cfg server fuel name query n cursor c in
    audited c c'.
Proof.
  induction fuel as [|fuel IH]; intros n cursor c.
  - simpl. apply audited_refl.
  - rewrite paginate_S.
    destruct (n <? limit cfg); [|apply audited_refl].
    pose proof (make_request_search_audited name query cursor c) as H1.
    destruct (_make_request server (search_request name query cursor) c)
      as [data c1].
    cbn [snd] in H1.
    destruct data as [[[listing|]|elems]|]; try exact H1.
    destruct (dflt [] (children listing)) as [|post rest]; [exact H1|].
    pose proof (for_posts_audited (post :: rest) n c1) as H2.
    destruct (for_posts cfg server (post :: rest) n c1) as [[r n1] c2].
    pose proof (audited_trans H1 H2) as H12.
    destruct r as [|e]; [|exact H12].
    destruct (Str.truthy_opt (after listing)); [|exact H12].
    specialize (IH n1 (after listing) c2).
    destruct (paginate cfg server fuel name query n1 (after listing) c2)
      as [[out n'] c'].
    exact (audited_trans H12 IH).
Qed.

Lemma for_subreddits_audited fuel names :
  forall c final,
    for_subreddits cfg server fuel names c = Some final -> audited c final.
Proof.
  induction names as [|name rest IH]; intros c final; simpl.
  - intros [= ->]. apply audited_refl.
  - unfold _search_subreddit.
    pose proof (paginate_audited fuel name (search_query cfg) 0 None c) as H.
    destruct (paginate cfg server fuel name (search_query cfg) 0 None c)
      as [[out n'] c'].
    destruct out as [why|e|]; intro Hrun; try discriminate;
      exact (audited_trans H (IH _ _ Hrun)).
Qed.

(** The posts of a run, one stretch for each forum searched: every
    stretch is what the search of its forum added and holds no more posts
    than the limit. *)
Lemma for_subreddits_segments fuel names :
  0 <= limit cfg ->
  forall c final,
    for_subreddits cfg server fuel names c = Some final ->
    exists segments,
      posts_data final = posts_data c ++ List.concat segments
      /\ Forall2 (fun name segment =>
                    Z.of_nat (List.length segment) <= limit cfg
                    /\ exists c1,
                         posts_data
                           (snd (_search_subreddit cfg server fuel name
                                   (search_query cfg) c1))
                         = posts_data c1 ++ segment)
                 names segments.
Proof.
  intro Hlimit. induction names as [|name rest IH]; intros c final.
  - simpl. intros [= ->]. exists []. simpl. rewrite app_nil_r.
    split; [reflexivity|constructor].
  - cbn [for_subreddits].
    pose proof (search_subreddit_effect cfg server fuel name
                  (search_query cfg) c) as H.
    destruct (_search_subreddit cfg server fuel name (search_query cfg) c)
      as [out c'] eqn:Esearch.
    destruct H as ((ps & cs & ev & Hps & _) & Hb & _).
    specialize (Hb Hlimit).
    assert (Hrest : for_subreddits cfg server fuel rest c' = Some final ->
              exists segments,
                posts_data final = posts_data c ++ List.concat segments
                /\ Forall2 (fun name segment =>
                      Z.of_nat (List.length segment) <= limit cfg
                      /\ exists c1,
                           posts_data
                             (snd (_search_subreddit cfg server fuel name
                                     (search_query cfg) c1))
                           = posts_data c1 ++ segment)
                     (name :: rest) segments).
    { intro Hrun. destruct (IH _ _ Hrun) as (segments & Hposts & Hall).
      exists (ps :: segments). split.
      - rewrite Hposts, Hps. cbn [List.concat]. now rewrite app_assoc.
      - constructor; [|exact Hall]. split.
        + unfold added_posts in Hb. rewrite Hps, length_app in Hb. lia.
        + exists c. now rewrite Esearch. }
    destruct out as [why|e|]; [exact Hrest|exact Hrest|discriminate].
Qed.

End MoreCrawlFacts.

Section CrawlExtras.

Variable cfg : Config.
Variable server : list Request -> Request -> HttpOutcome.

Lemma new_crawler_linked : linked new_crawler.
Proof. intros k []. Qed.

(** X8.  After a run every comment of the collection belongs to a post of
    the collection: some collected post has the comment's [post_id] as its
    id and the comment's forum as its forum. *)
Theorem comments_belong_to_collected_posts (fuel : nat) (c : Crawler) :
  search_posts cfg server fuel new_crawler = Some c ->
  forall k, In k (comments_data c) ->
  exists p, In p (posts_data c)
            /\ post_id_ p = parent_post_id k
            /\ post_subreddit p = comment_subreddit k.
Proof.
  intros Hrun k Hk.
  destruct (for_subreddits_ledger cfg server _ _ _ Hrun) as (Hl & _).
  exact (Hl new_crawler_linked k Hk).
Qed.

(** X9.  In the trace of a run every sleep lasts [request_delay] seconds
    and comes directly after a request, one sleep per request at most: the
    crawler never sleeps before its first request nor twice in a row. *)
Theorem run_is_paced (fuel : nat) (c : Crawler) :
  search_posts cfg server fuel new_crawler = Some c ->
  paced (trace c) = true
  /\ (List.length (sleeps_of (trace c))
      <= List.length (requests_of (trace c)))%nat
  /\ Forall (fun d => d = request_delay) (sleeps_of (trace c)).
Proof.
  intro Hrun.
  destruct (for_subreddits_ledger cfg server _ _ _ Hrun) as (_ & Hp & _).
  specialize (Hp eq_refl). split; [exact Hp|].
  destruct (paced_from_sleeps false (trace c) Hp) as (Hn & Hd).
  split; [lia|exact Hd].
Qed.

Lemma for_subreddits_bound fuel names :
  0 <= limit cfg ->
  forall c final,
    for_subreddits cfg server fuel names c = Some final ->
    added_posts c final <= limit cfg * Z.of_nat (List.length names).
Proof.
  intro Hlimit. induction names as [|name rest IH]; intros c final.
  - simpl. intros [= ->]. unfold added_posts. lia.
  - cbn [for_subreddits].
    pose proof (search_subreddit_effect cfg server fuel name
                  (search_query cfg) c) as H.
    destruct (_search_subreddit cfg server fuel name (search_query cfg) c)
      as [out c'].
    destruct H as (_ & Hb & _). specialize (Hb Hlimit).
    assert (Hrest : for_subreddits cfg server fuel rest c' = Some final ->
                    added_posts c final
                    <= limit cfg * Z.of_nat (List.length (name :: rest))).
    { intro Hrun. specialize (IH _ _ Hrun).
      rewrite (added_posts_trans c c' final).
      change (List.length (name :: rest)) with (S (List.length rest)).
      lia. }
    destruct out as [why|e|]; [exact Hrest|exact Hrest|discriminate].
Qed.

(** X10.  The size of a run with a per-forum limit [L >= 0].  The posts
    collected are made of one stretch for each configured forum, in the
    configured order, each stretch being what the search of its forum
    added and holding [L] posts at most.  Every comment request is made
    for a collected post that reports comments, a different post for each
    request, requests and posts in the same order.  So the run collects no
    more than [L] posts for each forum and makes no more comment requests
    than it collects posts. *)
Theorem run_is_bounded (fuel : nat) (c : Crawler) :
  0 <= limit cfg ->
  search_posts cfg server fuel new_crawler = Some c ->
  (exists segments,
     posts_data c = List.concat segments
     /\ Forall2 (fun name segment =>
                   Z.of_nat (List.length segment) <= limit cfg
                   /\ exists c1,
                        posts_data
                          (snd (_search_subreddit cfg server fuel name
                                  (search_query cfg) c1))
                        = posts_data c1 ++ segment)
                (subreddits cfg) segments)
  /\ (exists fetched,
        Subseq fetched (posts_data c)
        /\ Forall2 fetched_for fetched (comment_requests c))
  /\ Z.of_nat (List.length (posts_data c))
     <= limit cfg * Z.of_nat (List.length (subreddits cfg))
  /\ (List.length (comment_requests c) <= List.length (posts_data c))%nat.
Proof.
  intros Hlimit Hrun.
  pose proof (for_subreddits_bound _ _ Hlimit _ Hrun) as Hb.
  destruct (for_subreddits_ledger cfg server _ _ _ Hrun) as (_ & _ & Hr).
  destruct (for_subreddits_segments cfg server _ _ Hlimit _ Hrun)
    as (segments & Hposts & Hall).
  destruct (for_subreddits_audited cfg server _ _ _ Hrun)
    as (ps & reqs & fetched & Hp & Hreqs & Hsub & Hfor).
  cbn [posts_data new_crawler app] in Hposts, Hp.
  change (comment_requests new_crawler) with (@nil Request) in Hreqs.
  cbn [app] in Hreqs.
  split; [exists segments; split; [exact Hposts|exact Hall]|].
  split; [exists fetched; rewrite Hp, Hreqs; split; assumption|].
  unfold added_posts in *. simpl in *. split; lia.
Qed.

Lemma fails_cases h r :
  fails (server h r) = true ->
  server h r = ConnectionError
  \/ (exists status body,
        server h r = Response status body
        /\ raise_for_status status = true).
Proof.
  unfold fails. destruct (server h r) as [|status body]; eauto.
Qed.

(** X11.  When every request fails, a run with a positive limit makes
    exactly one request per configured forum, in the configured order,
    never sleeps, collects nothing and returns normally. *)
Theorem run_against_failing_endpoint (fuel : nat) (c : Crawler) :
  (forall h r, fails (server h r) = true) ->
  0 < limit cfg ->
  search_posts cfg server (S fuel) c
  = Some (log (map (fun name =>
                      EvGet (search_request name (search_query cfg) None))
                   (subreddits cfg)) c).
Proof.
  intros Hfail Hlimit. unfold search_posts.
  generalize (subreddits cfg) as names. intro names. revert c.
  induction names as [|name rest IH]; intro c.
  - simpl. now rewrite log_nil.
  - cbn [for_subreddits map]. unfold _search_subreddit.
    rewrite paginate_fetch_failed;
      [|exact Hlimit|apply fails_cases, Hfail].
    rewrite IH, log_log. reflexivity.
Qed.

(** X12.  With a limit of zero or less a run makes no request at all and
    returns the crawler as it was. *)
Theorem run_with_no_budget (fuel : nat) (c : Crawler) :
  limit cfg <= 0 ->
  search_posts cfg server (S fuel) c = Some c.
Proof.
  intro Hlimit. unfold search_posts.
  induction (subreddits cfg) as [|name rest IH]; [reflexivity|].
  cbn [for_subreddits]. unfold _search_subreddit.
  rewrite paginate_at_limit by lia. exact IH.
Qed.

Lemma stale_outside cfg0 s0 :
  stale cfg0 s0 = true ->
  exists t, s_created_utc s0 = Some t
            /\ _is_in_date_range cfg0 t = Ok false
            /\ in_window_submission cfg0 s0 = false.
Proof.
  unfold stale, in_window_submission, in_window.
  destruct (s_created_utc s0) as [t|]; [|discriminate].
  intro H. apply outside_window_true in H. exists t. now rewrite H.
Qed.

(** The loop over a page on which every step succeeds. *)
Lemma for_posts_readable posts :
  Forall (fun s => readable cfg s = true) posts ->
  forall n c,
    n <= limit cfg ->
    let '(r, n', c') := for_posts cfg server posts n c in
    r = Normal
    /\ posts_data c'
       = posts_data c
         ++ map (info_of cfg)
                (firstn (Z.to_nat (limit cfg - n))
                        (filter (in_window_submission cfg) posts))
    /\ n' = n + Z.of_nat
                  (List.length
                     (firstn (Z.to_nat (limit cfg - n))
                             (filter (in_window_submission cfg) posts))).
Proof.
  induction 1 as [|post rest Hpost _ IH]; intros n c Hn.
  - simpl. rewrite firstn_nil. simpl. rewrite app_nil_r. repeat split. lia.
  - cbn [for_posts filter].
    destruct (n >=? limit cfg) eqn:Elim.
    { assert (n = limit cfg) by lia. subst n.
      rewrite Z.sub_diag. simpl. rewrite app_nil_r. repeat split. lia. }
    unfold readable in Hpost. apply orb_true_iff in Hpost as [Hstale|Hcoll].
    { destruct (stale_outside _ _ Hstale) as (t & -> & -> & ->).
      apply IH. exact Hn. }
    unfold collectable in Hcoll.
    apply andb_true_iff in Hcoll as [Hcoll Hnc].
    apply andb_true_iff in Hcoll as [Hin Hid].
    assert (Hwin : in_window_submission cfg post = true)
      by exact Hin.
    rewrite Hwin. unfold in_window_submission in Hwin.
    destruct (s_created_utc post) as [created|] eqn:Ec; [|discriminate].
    rewrite (proj1 (in_window_true cfg created) Hin).
    destruct (s_id post) as [id|] eqn:Ei; [|discriminate].
    rewrite (in_window_fromtimestamp cfg created Hin).
    destruct (s_num_comments post) as [nc|]; [|discriminate].
    assert (Hinfo : post_info post id created
                              (Datetime.local (utc_offset cfg) created)
                    = info_of cfg post).
    { unfold info_of. now rewrite Ec, Ei. }
    rewrite Hinfo.
    replace (Z.to_nat (limit cfg - n))
      with (S (Z.to_nat (limit cfg - (n + 1)))) by lia.
    cbn [firstn map List.length].
    assert (Hstep : forall c1,
      posts_data c1 = posts_data c ++ [info_of cfg post] ->
      let '(r, n', c') := for_posts cfg server rest (n + 1) c1 in
      r = Normal
      /\ posts_data c'
         = posts_data c
           ++ info_of cfg post
              :: map (info_of cfg)
                     (firstn (Z.to_nat (limit cfg - (n + 1)))
                             (filter (in_window_submission cfg) rest))
      /\ n' = n + Z.of_nat
                    (S (List.length
                          (firstn (Z.to_nat (limit cfg - (n + 1)))
                                  (filter (in_window_submission cfg)
                                          rest))))).
    { intros c1 H1. specialize (IH (n + 1) c1 ltac:(lia)).
      destruct (for_posts cfg server rest (n + 1) c1) as [[r n'] c'].
      destruct IH as (Hr & Hp & Hn'). repeat split; [exact Hr| |lia].
      rewrite Hp, H1, <- app_assoc. reflexivity. }
    destruct (nc >? 0).
    + destruct (s_permalink post) as [permalink|]; [|discriminate].
      apply Hstep.
      now destruct (fetch_comments_effect cfg server permalink id
                      (dflt "" (s_subreddit post))
                      (append_post (info_of cfg post) c)) as (-> & _).
    + apply Hstep. reflexivity.
Qed.

(** X13.  From a page on which every step of the loop succeeds, each
    submission having a ['created_utc'] that [datetime] can hold and, when
    it is in the window, the other keys read, exactly the submissions in
    the window are stored, in page order and up to the room left under the
    limit; those outside the window are passed over without ending the
    loop. *)
Theorem page_keeps_window_in_order
    (fuel : nat) (name query : string) (n : Z) (cursor next : option string)
    (c : Crawler) (posts : list Submission) :
  n < limit cfg ->
  server (requests_of (trace c)) (search_request name query cursor)
  = page posts next ->
  posts <> [] ->
  Forall (fun s => readable cfg s = true) posts ->
  exists c2,
    posts_data c2
    = posts_data c
      ++ map (info_of cfg)
             (firstn (Z.to_nat (limit cfg - n))
                     (filter (in_window_submission cfg) posts))
    /\ paginate cfg server (S fuel) name query n cursor c
       = if Str.truthy_opt next
         then paginate cfg server fuel name query
                (n + Z.of_nat
                       (List.length
                          (firstn (Z.to_nat (limit cfg - n))
                                  (filter (in_window_submission cfg) posts))))
                next c2
         else (Finished LastPage,
               n + Z.of_nat
                     (List.length
                        (firstn (Z.to_nat (limit cfg - n))
                                (filter (in_window_submission cfg) posts))),
               c2).
Proof.
  intros Hn Hpage Hposts Hall. rewrite paginate_S.
  destruct (n <? limit cfg) eqn:E; [|lia].
  rewrite (make_request_ok server _ _ Hpage eq_refl).
  cbn [children after dflt].
  destruct posts as [|post rest]; [congruence|].
  set (c1 := log [EvGet (search_request name query cursor);
                  EvSleep request_delay] c).
  pose proof (@for_posts_readable _ Hall n c1 ltac:(lia)) as Hc.
  destruct (for_posts cfg server (post :: rest) n c1) as [[r n1] c2].
  destruct Hc as (-> & Hp & ->).
  exists c2. split; [exact Hp|reflexivity].
Qed.

Lemma for_posts_outside posts :
  Forall (fun s => stale cfg s = true) posts ->
  forall n c, for_posts cfg server posts n c = (Normal, n, c).
Proof.
  induction 1 as [|post rest Hstale _ IH]; intros n c; simpl;
    [reflexivity|].
  destruct (n >=? limit cfg); [reflexivity|].
  destruct (stale_outside _ _ Hstale) as (t & -> & -> & _).
  apply IH.
Qed.

(** X14.  A page on which the window test returns [False] for every
    submission ends nothing: no post is added, no comment is fetched, and
    as long as the page has a cursor the loop goes on to the next page
    with the count unchanged. *)
Theorem stale_page_does_not_stop_pagination
    (fuel : nat) (name query : string) (n : Z) (cursor : option string)
    (next : string) (c : Crawler) (posts : list Submission) :
  n < limit cfg ->
  server (requests_of (trace c)) (search_request name query cursor)
  = page posts (Some next) ->
  posts <> [] ->
  Forall (fun s => stale cfg s = true) posts ->
  Str.truthy next = true ->
  paginate cfg server (S fuel) name query n cursor c
  = paginate cfg server fuel name query n (Some next)
      (log [EvGet (search_request name query cursor); EvSleep request_delay]
           c).
Proof.
  intros Hn Hpage Hposts Hall Hnext. rewrite paginate_S.
  destruct (n <? limit cfg) eqn:E; [|lia].
  rewrite (make_request_ok server _ _ Hpage eq_refl).
  cbn [children after dflt].
  destruct posts as [|post rest]; [congruence|].
  rewrite (for_posts_outside Hall). cbn [Str.truthy_opt].
  now rewrite Hnext.
Qed.

End CrawlExtras.

Lemma finished_run_is_a_run :
  search_posts Sample.cfg150 Sample.three_pages 5 new_crawler
  = Some MoreSamples.finished_run.
Proof. vm_compute. reflexivity. Qed.

Lemma comments_belong_to_collected_posts_witness :
  search_posts Sample.cfg150 Sample.three_pages 5 new_crawler
  = Some MoreSamples.finished_run
  /\ List.length (comments_data MoreSamples.finished_run) = 100%nat
  /\ forall k, In k (comments_data MoreSamples.finished_run) ->
     exists p, In p (posts_data MoreSamples.finished_run)
               /\ post_id_ p = parent_post_id k
               /\ post_subreddit p = comment_subreddit k.
Proof.
  split; [exact finished_run_is_a_run|]. split; [reflexivity|].
  exact (@comments_belong_to_collected_posts Sample.cfg150 Sample.three_pages
           5 MoreSamples.finished_run finished_run_is_a_run).
Defined.

Lemma run_is_paced_witness :
  paced (trace MoreSamples.finished_run) = true
  /\ (List.length (sleeps_of (trace MoreSamples.finished_run))
      <= List.length (requests_of (trace MoreSamples.finished_run)))%nat
  /\ Forall (fun d => d = request_delay)
            (sleeps_of (trace MoreSamples.finished_run)).
Proof.
  exact (@run_is_paced Sample.cfg150 Sample.three_pages 5
           MoreSamples.finished_run finished_run_is_a_run).
Defined.

Lemma run_is_bounded_witness :
  List.length (posts_data MoreSamples.finished_run) = 150%nat
  /\ List.length (comment_requests MoreSamples.finished_run) = 50%nat
  /\ (exists segments,
        posts_data MoreSamples.finished_run = List.concat segments
        /\ Forall2 (fun name segment =>
                      Z.of_nat (List.length segment) <= limit Sample.cfg150
                      /\ exists c1,
                           posts_data
                             (snd (_search_subreddit Sample.cfg150
                                     Sample.three_pages 5 name
                                     (search_query Sample.cfg150) c1))
                           = posts_data c1 ++ segment)
                   (subreddits Sample.cfg150) segments)
  /\ exists fetched,
       Subseq fetched (posts_data MoreSamples.finished_run)
       /\ Forall2 fetched_for fetched
                  (comment_requests MoreSamples.finished_run).
Proof.
  assert (Hlimit : 0 <= limit Sample.cfg150) by (vm_compute; discriminate).
  destruct (@run_is_bounded Sample.cfg150 Sample.three_pages 5
              MoreSamples.finished_run Hlimit finished_run_is_a_run)
    as (Hsegments & Hfetched & _).
  split; [reflexivity|]. split; [reflexivity|].
  split; [exact Hsegments|exact Hfetched].
Defined.

Lemma run_against_failing_endpoint_witness :
  search_posts Sample.two_forums Sample.throttled 1 new_crawler
  = Some (log [EvGet (search_request "broken" "Apple iPhone 15" None);
               EvGet (search_request "apple" "Apple iPhone 15" None)]
              new_crawler).
Proof.
  apply (@run_against_failing_endpoint Sample.two_forums Sample.throttled
           0 new_crawler).
  - intros h r. reflexivity.
  - reflexivity.
Defined.

Lemma run_with_no_budget_witness :
  search_posts MoreSamples.no_budget Sample.three_pages 1 new_crawler
  = Some new_crawler.
Proof.
  apply (@run_with_no_budget MoreSamples.no_budget Sample.three_pages
           0 new_crawler).
  vm_compute. discriminate.
Defined.

Lemma page_keeps_window_in_order_witness :
  exists c2,
    map post_id_ (posts_data c2) = ["m2"; "m4"]
    /\ paginate MoreSamples.two_of_three MoreSamples.mixed 1 "apple" "q" 0
                None new_crawler
       = (Finished LastPage, 2, c2).
Proof.
  destruct (@page_keeps_window_in_order MoreSamples.two_of_three
              MoreSamples.mixed 0 "apple" "q" 0 None None new_crawler
              MoreSamples.mixed_page)
    as (c2 & Hposts & Hrun).
  - reflexivity.
  - reflexivity.
  - discriminate.
  - apply Forall_forallb. reflexivity.
  - exists c2. split.
    + rewrite Hposts. reflexivity.
    + rewrite Hrun. reflexivity.
Defined.

Lemma stale_page_does_not_stop_pagination_witness :
  paginate MoreSamples.two_of_three MoreSamples.stale_then_fresh 3 "apple" "q"
           0 None new_crawler
  = paginate MoreSamples.two_of_three MoreSamples.stale_then_fresh 2 "apple"
             "q" 0 (Some "t3_s2")
             (log [EvGet (search_request "apple" "q" None);
                   EvSleep request_delay] new_crawler)
  /\ map post_id_
         (posts_data
            (snd (paginate MoreSamples.two_of_three
                    MoreSamples.stale_then_fresh 3 "apple" "q" 0 None
                    new_crawler)))
     = ["f1"].
Proof.
  split; [|reflexivity].
  apply (@stale_page_does_not_stop_pagination MoreSamples.two_of_three
           MoreSamples.stale_then_fresh 2 "apple" "q" 0 None "t3_s2"
           new_crawler MoreSamples.stale_page).
  - reflexivity.
  - reflexivity.
  - discriminate.
  - apply Forall_forallb. reflexivity.
  - reflexivity.
Defined.

(* ================================================================== *)
(** ** Further properties of the keyword pipeline *)
(* ================================================================== *)

Lemma all_chars_app test s1 s2 :
  all_chars test (s1 ++ s2) = all_chars test s1 && all_chars test s2.
Proof.
  induction s1 as [|c r IH]; [reflexivity|]. simpl.
  now rewrite IH, andb_assoc.
Qed.

Lemma lower_char_not_upper c : Str.is_upper (Str.lower_char c) = false.
Proof. destruct c as [[] [] [] [] [] [] [] []]; reflexivity. Qed.

Lemma alnum_not_upper c :
  Str.is_upper c = false -> Text.is_alnum c = true -> is_lower_alnum c = true.
Proof. destruct c as [[] [] [] [] [] [] [] []]; intros H1 H2; try reflexivity; discriminate. Qed.

Lemma lower_alnum_not_space c :
  is_lower_alnum c = true -> Text.is_space c = false.
Proof. destruct c as [[] [] [] [] [] [] [] []]; intro H; try reflexivity; discriminate. Qed.

Lemma lower_no_upper s :
  all_chars (fun c => negb (Str.is_upper c)) (Str.lower s) = true.
Proof.
  induction s as [|c r IH]; [reflexivity|]. simpl.
  now rewrite lower_char_not_upper, IH.
Qed.

Lemma remove_urls_keeps test inside s :
  all_chars test s = true ->
  all_chars test (Text.remove_urls inside s) = true.
Proof.
  revert inside. induction s as [|c r IH]; intros inside H; [reflexivity|].
  simpl in H. apply andb_true_iff in H as [Hc Hr].
  cbn [Text.remove_urls].
  destruct inside.
  - destruct (Text.is_space c).
    + cbn [all_chars]. rewrite Hc. now apply IH.
    + now apply IH.
  - destruct (Text.starts_match "http" (String c r)
              || Text.starts_match "www" (String c r)).
    + now apply IH.
    + cbn [all_chars]. rewrite Hc. now apply IH.
Qed.

Lemma blank_special_chars s :
  all_chars (fun c => negb (Str.is_upper c)) s = true ->
  all_chars (fun c => is_lower_alnum c || Text.is_space c)
            (Text.blank_special s) = true.
Proof.
  induction s as [|c r IH]; intro H; [reflexivity|].
  simpl in H. apply andb_true_iff in H as [Hc Hr]. simpl.
  rewrite (IH Hr), andb_true_r.
  apply negb_true_iff in Hc.
  destruct (Text.is_alnum c) eqn:Ea; simpl.
  - now rewrite (alnum_not_upper c Hc Ea).
  - destruct (Text.is_space c) eqn:Es; simpl.
    + rewrite Es. apply orb_true_r.
    + reflexivity.
Qed.

(** The text before the collapse holds lower-case letters, digits and
    white space only. *)
Lemma blanked_chars text :
  all_chars (fun c => is_lower_alnum c || Text.is_space c) (blanked text)
  = true.
Proof.
  unfold blanked. apply blank_special_chars, remove_urls_keeps, lower_no_upper.
Qed.

Lemma split_from_words word text :
  all_chars (fun c => is_lower_alnum c || Text.is_space c) text = true ->
  all_chars is_lower_alnum word = true ->
  Forall (fun w => all_chars is_lower_alnum w = true /\ w <> "")
         (Text.split_from word text).
Proof.
  revert word. induction text as [|c r IH]; intros word Ht Hw; simpl.
  - destruct word; simpl; [constructor|].
    constructor; [split; [exact Hw|discriminate]|constructor].
  - simpl in Ht. apply andb_true_iff in Ht as [Hc Hr].
    destruct (Text.is_space c) eqn:Es.
    + destruct word; simpl.
      * now apply IH.
      * constructor; [split; [exact Hw|discriminate]|now apply IH].
    + apply IH; [exact Hr|].
      rewrite all_chars_app, Hw. simpl.
      rewrite orb_false_r in Hc. now rewrite Hc.
Qed.

Lemma append_empty (s : string) : (s ++ "")%string = s.
Proof. induction s as [|c r IH]; [reflexivity|]. simpl. now rewrite IH. Qed.

Lemma append_char (word r : string) (c : ascii) :
  ((word ++ String c "") ++ r)%string = (word ++ String c r)%string.
Proof.
  induction word as [|d word IH]; [reflexivity|]. simpl. now rewrite IH.
Qed.

Lemma split_from_run word w text :
  all_chars is_lower_alnum w = true ->
  Text.split_from word (w ++ text) = Text.split_from (word ++ w) text.
Proof.
  revert word. induction w as [|c r IH]; intros word Hw.
  - simpl. now rewrite append_empty.
  - simpl in Hw. apply andb_true_iff in Hw as [Hc Hr].
    cbn [String.append Text.split_from].
    rewrite (lower_alnum_not_space c Hc), (IH _ Hr).
    now rewrite append_char.
Qed.

(** Joining words with single spaces and splitting again gives the words
    back. *)
Lemma split_join words :
  Forall (fun w => all_chars is_lower_alnum w = true /\ w <> "") words ->
  Text.split (Text.join " " words) = words.
Proof.
  unfold Text.split.
  induction 1 as [|w rest (Hw & Hne) Hrest IH]; [reflexivity|].
  destruct rest as [|w' rest'].
  - cbn [Text.join]. rewrite <- (append_empty w) at 1.
    rewrite (split_from_run "" w "" Hw). simpl.
    destruct w; [congruence|reflexivity].
  - cbn [Text.join].
    rewrite (split_from_run "" w _ Hw).
    cbn [String.append Text.split_from].
    change (Text.is_space " ") with true. cbv iota.
    destruct w as [|c r]; [congruence|].
    cbn [Str.truthy]. f_equal. exact IH.
Qed.

Lemma cleaned_words text :
  Text.split (_clean_text text) = Text.split (blanked text)
  /\ Forall (fun w => all_chars is_lower_alnum w = true /\ w <> "")
            (Text.split (_clean_text text)).
Proof.
  assert (Hwords : Forall (fun w => all_chars is_lower_alnum w = true
                                    /\ w <> "")
                          (Text.split (blanked text))).
  { apply split_from_words; [apply blanked_chars|reflexivity]. }
  assert (Heq : Text.split (_clean_text text) = Text.split (blanked text)).
  { unfold _clean_text. fold (blanked text). now apply split_join. }
  split; [exact Heq|]. now rewrite Heq.
Qed.

(** X15.  Collapsing white space changes no word: the words of the
    cleaned text are the words of the text as it is before the collapse,
    and each of them is a non-empty run of lower-case letters and
    digits. *)
Theorem clean_text_words (text : string) :
  Text.split (_clean_text text)
  = Text.split (Text.blank_special (Text.remove_urls false (Str.lower text)))
  /\ Forall (fun w => all_chars is_lower_alnum w = true /\ w <> "")
            (Text.split (_clean_text text)).
Proof.
  fold (blanked text). apply cleaned_words.
Qed.

Lemma occurrences_filter {K} (eqb : K -> K -> bool) (f : K -> bool) k l :
  (forall x, eqb k x = true -> x = k) ->
  f k = true ->
  occurrences eqb k (filter f l) = occurrences eqb k l.
Proof.
  intros Heq Hk. unfold occurrences. induction l as [|x r IH]; [reflexivity|].
  simpl. destruct (f x) eqn:Ex; simpl.
  - destruct (eqb k x); simpl; now rewrite IH.
  - destruct (eqb k x) eqn:E; [|exact IH].
    apply Heq in E. congruence.
Qed.

Lemma extract_keywords_unfold top_n a :
  extract_keywords top_n a
  = most_common top_n (Counter String.eqb (filtered_words a)).
Proof. reflexivity. Qed.

(** A keyword passed the filter of [extract_keywords]. *)
Lemma keyword_passed_filter top_n a word n :
  In (word, n) (extract_keywords top_n a) ->
  mem word stop_words = false /\ (3 <= String.length word)%nat.
Proof.
  rewrite extract_keywords_unfold. intro Hin.
  apply (most_common_In String.eqb string_eqb_spec) in Hin as (Hw & _).
  unfold filtered_words in Hw. apply filter_In in Hw as (_ & Hpass).
  apply andb_true_iff in Hpass as (Hstop & Hlen).
  apply negb_true_iff in Hstop. apply Nat.ltb_lt in Hlen. split; [auto|lia].
Qed.

(** X16.  The keyword dict: every keyword is a word of the cleaned text
    that is not a stop word and has at least 3 characters, all of them
    lower-case letters or digits; its count is the number of times the
    word occurs in the cleaned text; no keyword is listed twice; counts
    are in descending order and there are at most [top_n] keywords. *)
Theorem extract_keywords_entries (top_n : nat) (a : TopicAnalyzer) :
  (forall word n,
     In (word, n) (extract_keywords top_n a) ->
     mem word stop_words = false
     /\ (3 <= String.length word)%nat
     /\ all_chars is_lower_alnum word = true
     /\ (1 <= n)%nat
     /\ n = occurrences String.eqb word
              (Text.split (_clean_text (_extract_text_from_data a))))
  /\ NoDup (map fst (extract_keywords top_n a))
  /\ StronglySorted (fun x y => (snd y <= snd x)%nat)
                    (extract_keywords top_n a)
  /\ (List.length (extract_keywords top_n a) <= top_n)%nat.
Proof.
  rewrite extract_keywords_unfold. repeat apply conj.
  - intros word n Hin.
    apply (most_common_In String.eqb string_eqb_spec) in Hin as (Hw & ->).
    pose proof Hw as Hw'. unfold filtered_words in Hw'.
    apply filter_In in Hw' as (Hsplit & Hpass).
    apply andb_true_iff in Hpass as (Hstop & Hlen).
    apply negb_true_iff in Hstop. apply Nat.ltb_lt in Hlen.
    destruct (cleaned_words (_extract_text_from_data a)) as (_ & Hchars).
    rewrite Forall_forall in Hchars.
    repeat split.
    + exact Hstop.
    + lia.
    + apply (Hchars word Hsplit).
    + apply occurrences_positive; [apply String.eqb_refl|exact Hw].
    + unfold filtered_words. apply occurrences_filter.
      * intros x E. apply String.eqb_eq in E. congruence.
      * rewrite Hstop. simpl. now apply Nat.ltb_lt.
  - apply (most_common_keys_NoDup String.eqb string_eqb_spec).
  - apply most_common_sorted.
  - rewrite most_common_length. lia.
Qed.

(** X17.  The keyword dict of a smaller [top_n] is the beginning of the
    dict of a larger one: the 30 keywords the dashboard shows are the
    first 30 of the 100 the topic clusters are built from. *)
Theorem extract_keywords_prefix (n m : nat) (a : TopicAnalyzer) :
  (n <= m)%nat ->
  extract_keywords n a = firstn n (extract_keywords m a).
Proof.
  intro H. rewrite !extract_keywords_unfold. unfold most_common.
  rewrite firstn_firstn. now rewrite Nat.min_l.
Qed.

Lemma extract_keywords_prefix_witness :
  extract_keywords 2 Sample.priced
  = firstn 2 (extract_keywords 100 Sample.priced)
  /\ extract_keywords 2 Sample.priced
     = [("price", 10%nat); ("fast", 5%nat)].
Proof.
  split; [|reflexivity].
  apply (@extract_keywords_prefix 2 100 Sample.priced). lia.
Defined.

Lemma related_words_In patterns kw w n :
  In (w, n) (related_words patterns kw) <->
  In (w, n) kw /\ In w patterns.
Proof.
  unfold related_words. rewrite filter_In. simpl. unfold mem.
  rewrite existsb_exists. split.
  - intros (H & x & Hx & E). apply String.eqb_eq in E. subst x. auto.
  - intros (H & Hw). split; [exact H|]. exists w.
    split; [exact Hw|apply String.eqb_refl].
Qed.

(** X18.  The keywords of a topic cluster are extracted keywords that
    stand in the list of the topic, with their counts.  So they are never
    stop words nor shorter than 3 characters, and the entries [like] and
    [vs] of the topic table can match nothing. *)
Theorem cluster_keywords_are_extracted
    (top_n : nat) (a : TopicAnalyzer) (topic : string) (st : TopicStat)
    (word : string) (n : nat) :
  In (topic, st) (extract_topic_clusters top_n a) ->
  In (word, n) (keywords st) ->
  (exists patterns,
     In (topic, patterns) topic_patterns /\ In word patterns)
  /\ In (word, n) (extract_keywords 100 a)
  /\ mem word stop_words = false
  /\ (3 <= String.length word)%nat
  /\ word <> "like" /\ word <> "vs".
Proof.
  intros Hin Hword. unfold extract_topic_clusters in Hin.
  apply cluster_keywords_In, topic_stats_In in Hin
    as (patterns & Hp & _ & ->).
  simpl in Hword. apply related_words_In in Hword as (Hkw & Hpat).
  destruct (keyword_passed_filter _ _ _ _ Hkw) as (Hstop & Hlen).
  repeat split; eauto.
  - intros ->. discriminate.
  - intros ->. simpl in Hlen. lia.
Qed.

Lemma cluster_keywords_are_extracted_witness :
  In ("fast", 5%nat) (extract_keywords 100 Sample.priced)
  /\ mem "fast" stop_words = false.
Proof.
  destruct (@cluster_keywords_are_extracted 10 Sample.priced "performance"
              {| keywords := [("fast", 5%nat); ("slow", 3%nat)];
                 total_mentions := 8 |} "fast" 5)
    as (_ & Hkw & Hstop & _).
  - vm_compute. right. left. reflexivity.
  - left. reflexivity.
  - split; [exact Hkw|exact Hstop].
Defined.

Lemma mentions_topic_stats table kw :
  mentions (topic_stats table kw) = related_total table kw.
Proof.
  induction table as [|[t ps] rest IH]; [reflexivity|]. simpl.
  destruct (related_words ps kw) as [|wc r] eqn:E; simpl; now rewrite IH.
Qed.

Lemma mentions_perm l1 l2 : Permutation l1 l2 -> mentions l1 = mentions l2.
Proof. induction 1; simpl; lia. Qed.

Lemma mentions_firstn n l : (mentions (firstn n l) <= mentions l)%nat.
Proof.
  revert n. induction l as [|x r IH]; intro n.
  - now rewrite firstn_nil.
  - destruct n as [|n]; simpl; [lia|]. specialize (IH n). lia.
Qed.

Lemma related_words_cons ps w c kw :
  total (related_words ps ((w, c) :: kw))
  = ((if mem w ps then c else 0) + total (related_words ps kw))%nat.
Proof. unfold related_words. simpl. now destruct (mem w ps). Qed.

Lemma related_total_cons table w c kw :
  related_total table ((w, c) :: kw)
  = (c * topics_of table w + related_total table kw)%nat.
Proof.
  unfold related_total, topics_of.
  induction table as [|[t ps] rest IH]; [simpl; lia|].
  cbn [fold_right filter snd]. rewrite IH, related_words_cons.
  destruct (mem w ps); cbn [List.length]; lia.
Qed.

Lemma related_total_nil table : related_total table [] = 0%nat.
Proof.
  unfold related_total. induction table as [|tp rest IH]; [reflexivity|].
  cbn [fold_right]. rewrite IH. reflexivity.
Qed.

Lemma related_total_bound table kw :
  (forall w, (topics_of table w <= 1)%nat) ->
  (related_total table kw <= total kw)%nat.
Proof.
  intro Hone. induction kw as [|[w c] kw IH].
  - rewrite related_total_nil. simpl. lia.
  - rewrite related_total_cons. cbn [total fold_right snd].
    specialize (Hone w). fold (total kw). nia.
Qed.

Lemma mem_app w l1 l2 : mem w (l1 ++ l2) = mem w l1 || mem w l2.
Proof. unfold mem. apply existsb_app. Qed.

(** No word stands in the lists of two topics. *)
Lemma topics_share_no_word w : (topics_of topic_patterns w <= 1)%nat.
Proof.
  destruct (mem w all_patterns) eqn:E.
  - unfold mem in E. apply existsb_exists in E as (x & Hx & Ex).
    apply String.eqb_eq in Ex. subst x.
    unfold all_patterns in Hx. simpl in Hx.
    repeat (destruct Hx as [<-|Hx]; [vm_compute; lia|]).
    destruct Hx.
  - unfold all_patterns, topic_patterns in E. cbn [flat_map snd] in E.
    rewrite !mem_app in E.
    repeat (apply orb_false_iff in E as [? E]).
    unfold topics_of, topic_patterns. cbn [filter snd].
    repeat match goal with H : mem w _ = false |- _ => rewrite H; clear H end.
    simpl. lia.
Qed.

(** X19.  Every occurrence of a keyword is counted for one topic at most:
    the mentions of all topic clusters together never exceed the counts of
    all extracted keywords together. *)
Theorem cluster_mentions_bound (top_n : nat) (a : TopicAnalyzer) :
  (mentions (extract_topic_clusters top_n a)
   <= total (extract_keywords 100 a))%nat.
Proof.
  unfold extract_topic_clusters, cluster_keywords.
  destruct (extract_keywords 100 a) as [|wc kw] eqn:E; [simpl; lia|].
  etransitivity; [apply mentions_firstn|].
  rewrite (mentions_perm (stable_sort_perm by_mentions_desc _)).
  rewrite mentions_topic_stats.
  apply related_total_bound, topics_share_no_word.
Qed.

(** Within a match the output resumes at white space. *)
Lemma remove_urls_inside_head s :
  match Text.remove_urls true s with
  | EmptyString => True
  | String c _ => Text.is_space c = true
  end.
Proof.
  induction s as [|c r IH]; [exact I|]. cbn [Text.remove_urls].
  destruct (Text.is_space c) eqn:E; [exact E|exact IH].
Qed.

Lemma starts_match_inside w s :
  all_chars no_space w = true ->
  Text.starts_match w (Text.remove_urls true s) = false.
Proof.
  intro Hw. pose proof (remove_urls_inside_head s) as H.
  destruct (Text.remove_urls true s) as [|c out]; [now destruct w|].
  destruct w as [|c0 w']; simpl.
  - now rewrite H.
  - simpl in Hw. apply andb_true_iff in Hw as [Hc0 _].
    destruct (Ascii.eqb c0 c) eqn:E; [|reflexivity].
    apply Ascii.eqb_eq in E. subst c0. unfold no_space in Hc0.
    rewrite H in Hc0. discriminate.
Qed.

(** A match in the output was a match in the input. *)
Lemma starts_match_outside w s :
  all_chars no_space w = true ->
  Text.starts_match w (Text.remove_urls false s) = true ->
  Text.starts_match w s = true.
Proof.
  revert w. induction s as [|c r IH]; intros w Hw H; [exact H|].
  cbn [Text.remove_urls] in H.
  destruct (Text.starts_match "http" (String c r)
            || Text.starts_match "www" (String c r)).
  - rewrite (starts_match_inside w r Hw) in H. discriminate.
  - destruct w as [|c0 w']; [exact H|].
    simpl in H |- *. simpl in Hw.
    apply andb_true_iff in Hw as [_ Hw'].
    apply andb_true_iff in H as [Hc H]. rewrite Hc. simpl.
    now apply IH.
Qed.

Lemma space_starts_no_match w c s :
  all_chars no_space w = true ->
  Text.is_space c = true ->
  Text.starts_match w (String c s) = false.
Proof.
  intros Hw Hc. destruct w as [|c0 w']; simpl; [now rewrite Hc|].
  simpl in Hw. apply andb_true_iff in Hw as [Hc0 _].
  destruct (Ascii.eqb c0 c) eqn:E; [|reflexivity].
  apply Ascii.eqb_eq in E. subst c0. unfold no_space in Hc0.
  rewrite Hc in Hc0. discriminate.
Qed.

Lemma remove_urls_no_url inside s :
  no_url (Text.remove_urls inside s) = true.
Proof.
  revert inside. induction s as [|c r IH]; intro inside; [reflexivity|].
  cbn [Text.remove_urls]. destruct inside.
  - destruct (Text.is_space c) eqn:Es; [|apply IH].
    cbn [no_url]. rewrite IH, andb_true_r.
    rewrite (space_starts_no_match "http" c _ eq_refl Es).
    rewrite (space_starts_no_match "www" c _ eq_refl Es). reflexivity.
  - destruct (Text.starts_match "http" (String c r)
              || Text.starts_match "www" (String c r)) eqn:E; [apply IH|].
    cbn [no_url]. rewrite IH, andb_true_r.
    apply orb_false_iff in E as [Eh Ew].
    assert (Hout : Text.remove_urls false (String c r)
                   = String c (Text.remove_urls false r)).
    { cbn [Text.remove_urls]. now rewrite Eh, Ew. }
    rewrite <- Hout.
    destruct (Text.starts_match "http" (Text.remove_urls false (String c r)))
      eqn:Oh.
    { apply (starts_match_outside "http" _ eq_refl) in Oh. congruence. }
    destruct (Text.starts_match "www" (Text.remove_urls false (String c r)))
      eqn:Ow.
    { apply (starts_match_outside "www" _ eq_refl) in Ow. congruence. }
    reflexivity.
Qed.

Lemma remove_urls_fixed s :
  no_url s = true -> Text.remove_urls false s = s.
Proof.
  induction s as [|c r IH]; intro H; [reflexivity|].
  cbn [no_url] in H. apply andb_true_iff in H as [Hm Hr].
  apply negb_true_iff in Hm. cbn [Text.remove_urls].
  rewrite Hm. now rewrite (IH Hr).
Qed.

(** X20.  URL removal leaves no URL behind: in its output no match of
    [http\S+] or [www\S+] starts at any position, so removing URLs a second
    time changes nothing. *)
Theorem remove_urls_idempotent (text : string) :
  no_url (Text.remove_urls false text) = true
  /\ Text.remove_urls false (Text.remove_urls false text)
     = Text.remove_urls false text.
Proof.
  split; [apply remove_urls_no_url|].
  apply remove_urls_fixed, remove_urls_no_url.
Qed.

(* ================================================================== *)
(** * Hashtags and mentions *)
(* ================================================================== *)

Lemma append_assoc3 (a b c : string) :
  ((a ++ b) ++ c)%string = (a ++ b ++ c)%string.
Proof. induction a as [|x a IH]; [reflexivity|]. simpl. now rewrite IH. Qed.

(** What the scan returns, whatever state it is in: [h] is the part of
    the text already read. *)
Lemma findall_tagged marker whole :
  forall text current h,
    whole = (h ++ text)%string ->
    (forall w, current = Some w ->
       all_chars Tags.is_word w = true
       /\ (w = EmptyString -> Tags.word_follows text = true)
       /\ exists pre, h = (pre ++ String marker w)%string) ->
    Forall (fun t => tagged marker t whole)
           (Tags.findall marker current text).
Proof.
  induction text as [|c r IH]; intros current h Hwhole Hinv.
  - destruct current as [w|]; simpl; [|constructor].
    destruct (Hinv w eq_refl) as (Hall & Hne & pre & Hh).
    constructor; [|constructor]. repeat split.
    + intro E. specialize (Hne E). discriminate.
    + exact Hall.
    + exists pre, EmptyString. split; [|reflexivity].
      rewrite Hwhole, Hh, !append_empty. reflexivity.
  - assert (Hnext : whole = ((h ++ String c "") ++ r)%string)
      by now rewrite append_char.
    assert (Hout :
      Forall (fun t => tagged marker t whole)
             (if Ascii.eqb c marker && Tags.word_follows r
              then Tags.findall marker (Some EmptyString) r
              else Tags.findall marker None r)).
    { destruct (Ascii.eqb c marker && Tags.word_follows r) eqn:E.
      - apply andb_true_iff in E as (Ec & Er).
        apply Ascii.eqb_eq in Ec. subst c.
        apply (IH _ _ Hnext). intros w [= <-].
        repeat split; [exact (fun _ => Er)|]. now exists h.
      - apply (IH _ _ Hnext). intros w [=]. }
    cbn [Tags.findall]. destruct current as [w|]; [|exact Hout].
    destruct (Hinv w eq_refl) as (Hall & Hne & pre & Hh).
    destruct (Tags.is_word c) eqn:Ew.
    + apply (IH _ _ Hnext). intros w' [= <-]. repeat split.
      * rewrite all_chars_app, Hall. simpl. now rewrite Ew.
      * intro E. destruct w; discriminate E.
      * exists pre. rewrite Hh. rewrite append_assoc3. reflexivity.
    + constructor; [|exact Hout]. repeat split.
      * intro E. specialize (Hne E). simpl in Hne. congruence.
      * exact Hall.
      * exists pre, (String c r). split; [|exact Ew].
        rewrite Hwhole, Hh, append_assoc3. reflexivity.
Qed.

Lemma findall_length marker :
  Tags.is_word marker = false ->
  forall text current,
    List.length (Tags.findall marker current text)
    = (match current with Some _ => 1 | None => 0 end
       + marked_places marker text)%nat.
Proof.
  intros Hm. induction text as [|c r IH]; intro current.
  - destruct current; reflexivity.
  - cbn [Tags.findall marked_places].
    assert (Hout :
      List.length (if Ascii.eqb c marker && Tags.word_follows r
                   then Tags.findall marker (Some EmptyString) r
                   else Tags.findall marker None r)
      = ((if Ascii.eqb c marker && Tags.word_follows r then 1 else 0)
         + marked_places marker r)%nat).
    { destruct (Ascii.eqb c marker && Tags.word_follows r);
        now rewrite IH. }
    destruct current as [w|]; [|exact Hout].
    destruct (Tags.is_word c) eqn:Ew.
    + rewrite IH. destruct (Ascii.eqb c marker) eqn:Ec; [|reflexivity].
      apply Ascii.eqb_eq in Ec. congruence.
    + cbn [List.length]. now rewrite Hout.
Qed.

Lemma all_tags_tagged marker (a : TopicAnalyzer) t :
  In t (all_tags marker a) ->
  exists text, In text (scanned_texts a) /\ tagged marker t text.
Proof.
  unfold all_tags. intro Hin. apply in_flat_map in Hin as (text & Ht & Hin).
  exists text. split; [exact Ht|].
  pose proof (@findall_tagged marker text text None EmptyString eq_refl)
    as H.
  rewrite Forall_forall in H. apply H; [|exact Hin]. intros w [=].
Qed.

Lemma tag_ranking marker (a : TopicAnalyzer) :
  let ranking := most_common 20 (Counter String.eqb (all_tags marker a)) in
  (forall t n,
     In (t, n) ranking ->
     (exists text, In text (scanned_texts a) /\ tagged marker t text)
     /\ (1 <= n)%nat
     /\ n = occurrences String.eqb t (all_tags marker a))
  /\ NoDup (map fst ranking)
  /\ StronglySorted (fun x y => (snd y <= snd x)%nat) ranking
  /\ (List.length ranking <= 20)%nat.
Proof.
  cbv zeta. repeat apply conj.
  - intros t n Hin.
    apply (most_common_In String.eqb string_eqb_spec) in Hin as (Ht & ->).
    repeat split.
    + now apply all_tags_tagged.
    + apply occurrences_positive; [apply String.eqb_refl|exact Ht].
  - apply (most_common_keys_NoDup String.eqb string_eqb_spec).
  - apply most_common_sorted.
  - rewrite most_common_length. lia.
Qed.

(** X22.  Hashtags and mentions: every listed hashtag (mention) is a
    non-empty run of letters, digits and underscores that follows a [#]
    (an [@]) in the title-and-text of a post or in the body of a comment
    and is not followed by another such character; its count is the
    number of times it was found; no tag is listed twice, counts are in
    descending order and each dict has at most 20 entries. *)
Theorem hashtags_and_mentions_entries (a : TopicAnalyzer) :
  let ranked marker ranking :=
    (forall t n,
       In (t, n) ranking ->
       (exists text, In text (scanned_texts a) /\ tagged marker t text)
       /\ (1 <= n)%nat
       /\ n = occurrences String.eqb t (all_tags marker a))
    /\ NoDup (map fst ranking)
    /\ StronglySorted (fun x y => (snd y <= snd x)%nat) ranking
    /\ (List.length ranking <= 20)%nat in
  ranked "#"%char (top_hashtags (get_hashtags_and_mentions a))
  /\ ranked "@"%char (top_mentions (get_hashtags_and_mentions a)).
Proof.
  cbv zeta. split; [apply (tag_ranking "#" a)|apply (tag_ranking "@" a)].
Qed.

(** X23.  No tag is missed: for a marker that is not itself a word
    character, as [#] and [@] are not, the scan of a text returns one tag
    for each place where the marker is followed by a word character. *)
Theorem findall_finds_every_tag (marker : ascii) (text : string) :
  Tags.is_word marker = false ->
  List.length (Tags.findall marker None text) = marked_places marker text.
Proof. intro Hm. now rewrite (findall_length marker Hm). Qed.

Lemma findall_finds_every_tag_witness :
  Tags.is_word "#" = false
  /\ List.length (Tags.findall "#" None "a #tag1 ##x #a#b # no #_u-v# end#z")
     = marked_places "#" "a #tag1 ##x #a#b # no #_u-v# end#z".
Proof.
  split; [reflexivity|].
  apply (findall_finds_every_tag "#" "a #tag1 ##x #a#b # no #_u-v# end#z").
  reflexivity.
Defined.

(* ================================================================== *)
(** * Sentiment labels and their counts *)
(* ================================================================== *)

Lemma fold_left_append {A B} (f : A -> B) (l : list A) (acc : list B) :
  fold_left (fun acc x => acc ++ [f x]) l acc = acc ++ map f l.
Proof.
  revert acc. induction l as [|x r IH]; intro acc; simpl.
  - now rewrite app_nil_r.
  - rewrite IH, <- app_assoc. reflexivity.
Qed.

Lemma Qlt_bool_iff (x y : Q) : Qlt_bool x y = true <-> (x < y)%Q.
Proof.
  unfold Qlt_bool. rewrite negb_true_iff. split.
  - intro H. apply Qnot_le_lt. intro Hle.
    apply Qle_bool_iff in Hle. congruence.
  - intro H. destruct (Qle_bool y x) eqn:E; [|reflexivity].
    apply Qle_bool_iff in E. exfalso. exact (Qlt_not_le _ _ H E).
Qed.

Lemma Qlt_bool_false (x y : Q) : Qlt_bool x y = false -> (y <= x)%Q.
Proof.
  unfold Qlt_bool. rewrite negb_false_iff. apply Qle_bool_iff.
Qed.

Section SentimentFacts.

Variable textblob : string -> option (Q * Q).

Lemma with_sentiment_label (A : Type) (text : A -> string) (x : A) :
  label_of_polarity (with_sentiment textblob text x).
Proof.
  unfold label_of_polarity, with_sentiment, _analyze_text_sentiment.
  assert (Hzero : ("neutral" = "neutral"
                   /\ (- tenth <= 0)%Q /\ (0 <= tenth)%Q)%string).
  { repeat split; discriminate. }
  destruct (negb (Str.truthy (text x)) || blank (text x));
    [cbn; auto|].
  destruct (textblob (text x)) as [[polarity subjectivity]|]; [|cbn; auto].
  cbn [item sentiment sentiment_polarity].
  destruct (Qlt_bool tenth polarity) eqn:Ep.
  - left. split; [reflexivity|]. now apply Qlt_bool_iff.
  - destruct (Qlt_bool polarity (- tenth)) eqn:En.
    + right. left. split; [reflexivity|]. now apply Qlt_bool_iff.
    + right. right. repeat split; now apply Qlt_bool_false.
Qed.

Lemma label_of_polarity_is_label (A : Type) (x : Scored A) :
  label_of_polarity x -> is_label (sentiment x) = true.
Proof.
  unfold is_label. intros [(-> & _)|[(-> & _)|(-> & _)]]; reflexivity.
Qed.

Lemma analyze_posts_result (s : SentimentAnalyzer) :
  posts_with_sentiment (fst (analyze_posts textblob s))
  = posts_with_sentiment s
    ++ map (with_sentiment textblob combined_text) (sa_posts_data s).
Proof. unfold analyze_posts. cbn. apply fold_left_append. Qed.

Lemma analyze_comments_result (s : SentimentAnalyzer) :
  comments_with_sentiment (fst (analyze_comments textblob s))
  = comments_with_sentiment s
    ++ map (with_sentiment textblob body) (sa_comments_data s).
Proof. unfold analyze_comments. cbn. apply fold_left_append. Qed.

(** What a sequence of calls leaves in the analyzer. *)
Lemma after_calls_state (calls : list Call) :
  forall s,
    let s' := after_calls textblob calls s in
    sa_posts_data s' = sa_posts_data s
    /\ sa_comments_data s' = sa_comments_data s
    /\ posts_with_sentiment s'
       = posts_with_sentiment s
         ++ List.concat (repeat (map (with_sentiment textblob combined_text)
                                (sa_posts_data s))
                           (occurrences call_eqb AnalyzePosts calls))
    /\ comments_with_sentiment s'
       = comments_with_sentiment s
         ++ List.concat (repeat (map (with_sentiment textblob body)
                                (sa_comments_data s))
                           (occurrences call_eqb AnalyzeComments calls)).
Proof.
  induction calls as [|c calls IH]; intro s; cbv zeta.
  - cbn. now rewrite !app_nil_r.
  - change (after_calls textblob (c :: calls) s)
      with (after_calls textblob calls (call textblob c s)).
    destruct (IH (call textblob c s)) as (Hp & Hc & Hps & Hcs).
    rewrite Hp, Hc, Hps, Hcs. destruct c; cbn [call].
    + rewrite analyze_posts_result. cbn. rewrite <- app_assoc.
      repeat split; reflexivity.
    + rewrite analyze_comments_result. cbn. rewrite <- app_assoc.
      repeat split; reflexivity.
Qed.

Lemma after_calls_labels (calls : list Call) posts comments :
  let s := after_calls textblob calls
             (new_sentiment_analyzer posts comments) in
  Forall (@label_of_polarity _) (posts_with_sentiment s)
  /\ Forall (@label_of_polarity _) (comments_with_sentiment s).
Proof.
  cbv zeta.
  destruct (after_calls_state calls (new_sentiment_analyzer posts comments))
    as (_ & _ & -> & ->).
  cbn [posts_with_sentiment comments_with_sentiment new_sentiment_analyzer
       sa_posts_data sa_comments_data app].
  split.
  - induction (occurrences call_eqb AnalyzePosts calls) as [|n IH];
      cbn [repeat List.concat]; [constructor|].
    apply Forall_app. split; [|exact IH].
    apply Forall_forall. intros x Hx. apply in_map_iff in Hx as (p & <- & _).
    apply with_sentiment_label.
  - induction (occurrences call_eqb AnalyzeComments calls) as [|n IH];
      cbn [repeat List.concat]; [constructor|].
    apply Forall_app. split; [|exact IH].
    apply Forall_forall. intros x Hx. apply in_map_iff in Hx as (p & <- & _).
    apply with_sentiment_label.
Qed.

End SentimentFacts.

Lemma map_ext_id_item {A} (text : A -> string)
    (textblob : string -> option (Q * Q)) (l : list A) :
  map (fun x => item (with_sentiment textblob text x)) l = l.
Proof.
  induction l as [|x r IH]; [reflexivity|]. cbn [map]. rewrite IH. f_equal.
  unfold with_sentiment.
  destruct (_analyze_text_sentiment textblob (text x)) as [[p q] l].
  reflexivity.
Qed.

Lemma items_of_repeat {A} (text : A -> string)
    (textblob : string -> option (Q * Q)) (l : list A) (n : nat) :
  map (@item _)
      (List.concat (repeat (map (with_sentiment textblob text) l) n))
  = List.concat (repeat l n).
Proof.
  induction n as [|n IH]; [reflexivity|].
  cbn [repeat List.concat]. rewrite map_app, IH. f_equal.
  rewrite map_map. apply map_ext_id_item.
Qed.

Lemma label_counts (labels : list string) :
  Forall (fun l => is_label l = true) labels ->
  (occurrences String.eqb "positive" labels
   + occurrences String.eqb "neutral" labels
   + occurrences String.eqb "negative" labels = List.length labels)%nat.
Proof.
  unfold occurrences. induction 1 as [|l r Hl _ IH]; [reflexivity|].
  unfold is_label in Hl.
  apply orb_true_iff in Hl as [Hl|Hl];
    [apply orb_true_iff in Hl as [Hl|Hl]|];
    apply String.eqb_eq in Hl; subst l; cbn [filter];
    repeat match goal with
    | |- context [String.eqb ?a ?b] =>
        let v := eval vm_compute in (String.eqb a b) in
        change (String.eqb a b) with v
    end;
    cbn [List.length]; lia.
Qed.

Lemma string_leb_trans (s1 s2 s3 : string) :
  String.leb s1 s2 = true -> String.leb s2 s3 = true ->
  String.leb s1 s3 = true.
Proof.
  unfold String.leb. revert s2 s3.
  induction s1 as [|c1 s1 IH]; intros [|c2 s2] [|c3 s3]; simpl;
    try congruence.
  unfold Ascii.compare.
  destruct (N.compare_spec (N_of_ascii c1) (N_of_ascii c2)) as [E12|L12|G12];
    destruct (N.compare_spec (N_of_ascii c2) (N_of_ascii c3))
      as [E23|L23|G23];
    destruct (N.compare_spec (N_of_ascii c1) (N_of_ascii c3))
      as [E13|L13|G13];
    try congruence; try lia.
  apply IH.
Qed.

Lemma string_leb_total (s1 s2 : string) :
  String.leb s1 s2 = false -> String.leb s2 s1 = true.
Proof.
  intro H. destruct (String.leb_total s1 s2) as [H'|H']; congruence.
Qed.

Lemma row_counts (rows : list (string * string)) (subreddit : string) :
  Forall (fun r => is_label (snd r) = true) rows ->
  (occurrences row_eqb (subreddit, "positive") rows
   + occurrences row_eqb (subreddit, "neutral") rows
   + occurrences row_eqb (subreddit, "negative") rows
   = occurrences String.eqb subreddit (map fst rows))%nat.
Proof.
  unfold occurrences. induction 1 as [|[name l] r Hl _ IH]; [reflexivity|].
  cbn [map filter]. unfold row_eqb in *. cbn [fst snd] in *.
  destruct (String.eqb subreddit name); cbn [andb]; [|exact IH].
  unfold is_label in Hl.
  apply orb_true_iff in Hl as [Hl|Hl];
    [apply orb_true_iff in Hl as [Hl|Hl]|];
    apply String.eqb_eq in Hl; subst l;
    repeat match goal with
    | |- context [String.eqb ?a ?b] =>
        let v := eval vm_compute in (String.eqb a b) in
        change (String.eqb a b) with v
    end;
    cbn [List.length]; lia.
Qed.

Lemma sentiment_rows_labels (s : SentimentAnalyzer) :
  Forall (@label_of_polarity _) (posts_with_sentiment s) ->
  Forall (@label_of_polarity _) (comments_with_sentiment s) ->
  Forall (fun r => is_label (snd r) = true) (sentiment_rows s).
Proof.
  intros Hp Hc. unfold sentiment_rows. apply Forall_app. split.
  - apply Forall_map. eapply Forall_impl; [|exact Hp].
    intros x Hx. now apply label_of_polarity_is_label.
  - apply Forall_map. eapply Forall_impl; [|exact Hc].
    intros x Hx. now apply label_of_polarity_is_label.
Qed.

Lemma all_sentiments_labels (s : SentimentAnalyzer) :
  Forall (@label_of_polarity _) (posts_with_sentiment s) ->
  Forall (@label_of_polarity _) (comments_with_sentiment s) ->
  Forall (fun l => is_label l = true) (all_sentiments s).
Proof.
  intros Hp Hc. unfold all_sentiments. apply Forall_app. split.
  - apply Forall_map. eapply Forall_impl; [|exact Hp].
    intros x Hx. now apply label_of_polarity_is_label.
  - apply Forall_map. eapply Forall_impl; [|exact Hc].
    intros x Hx. now apply label_of_polarity_is_label.
Qed.

Lemma by_subreddit_keys (s : SentimentAnalyzer) :
  map fst (get_sentiment_by_subreddit s)
  = map fst (stable_sort by_name_asc
               (Counter String.eqb (map fst (sentiment_rows s)))).
Proof.
  unfold get_sentiment_by_subreddit. rewrite map_map. cbn [fst].
  apply map_id.
Qed.

(** X24.  Sentiment labels and their counts: whatever the sentiment
    library answers, after any sequence of [analyze_posts] and
    [analyze_comments] calls on a new analyzer every analysed post and
    comment carries one of the labels positive, negative and neutral, the
    label agrees with the stored polarity (above 0.1, below -0.1, or in
    between), and the three counts of [get_sentiment_distribution] add up
    to the number of analysed posts and comments. *)
Theorem sentiment_counts_add_up (textblob : string -> option (Q * Q))
    (posts : list PostInfo) (comments : list CommentInfo)
    (calls : list Call) :
  let s := after_calls textblob calls
             (new_sentiment_analyzer posts comments) in
  let d := get_sentiment_distribution s in
  Forall (@label_of_polarity _) (posts_with_sentiment s)
  /\ Forall (@label_of_polarity _) (comments_with_sentiment s)
  /\ (positive_count d + neutral_count d + negative_count d
      = List.length (posts_with_sentiment s)
        + List.length (comments_with_sentiment s))%nat.
Proof.
  cbv zeta.
  destruct (after_calls_labels textblob calls posts comments) as (Hp & Hc).
  split; [exact Hp|]. split; [exact Hc|].
  pose proof (label_counts (all_sentiments_labels _ Hp Hc)) as Hsum.
  assert (Hlen : List.length
                   (all_sentiments
                      (after_calls textblob calls
                         (new_sentiment_analyzer posts comments)))
                 = (List.length
                      (posts_with_sentiment
                         (after_calls textblob calls
                            (new_sentiment_analyzer posts comments)))
                    + List.length
                        (comments_with_sentiment
                           (after_calls textblob calls
                              (new_sentiment_analyzer posts comments))))%nat).
  { unfold all_sentiments. now rewrite length_app, !length_map. }
  unfold get_sentiment_distribution.
  destruct (Nat.eqb_spec
              (List.length
                 (all_sentiments
                    (after_calls textblob calls
                       (new_sentiment_analyzer posts comments)))) 0)
    as [E|E].
  - cbn [positive_count neutral_count negative_count]. lia.
  - cbn [positive_count neutral_count negative_count]. lia.
Qed.

(** X25.  The analyzer accumulates: each call of [analyze_posts] appends
    one scored copy of every post, in the order of the input and with the
    post itself unchanged, to what earlier calls left, so after [n] calls
    the result holds the scored posts [n] times over; the same holds for
    [analyze_comments]. *)
Theorem analysis_accumulates (textblob : string -> option (Q * Q))
    (posts : list PostInfo) (comments : list CommentInfo)
    (calls : list Call) :
  let s := after_calls textblob calls
             (new_sentiment_analyzer posts comments) in
  let n_posts := occurrences call_eqb AnalyzePosts calls in
  let n_comments := occurrences call_eqb AnalyzeComments calls in
  posts_with_sentiment s
  = List.concat (repeat (map (with_sentiment textblob combined_text) posts)
                        n_posts)
  /\ comments_with_sentiment s
     = List.concat (repeat (map (with_sentiment textblob body) comments)
                           n_comments)
  /\ map (@item _) (posts_with_sentiment s)
     = List.concat (repeat posts n_posts)
  /\ map (@item _) (comments_with_sentiment s)
     = List.concat (repeat comments n_comments).
Proof.
  cbv zeta.
  destruct (after_calls_state textblob calls
              (new_sentiment_analyzer posts comments))
    as (_ & _ & Hp & Hc).
  cbn [posts_with_sentiment comments_with_sentiment new_sentiment_analyzer
       sa_posts_data sa_comments_data app] in Hp, Hc.
  rewrite Hp, Hc. repeat split.
  - apply items_of_repeat.
  - apply items_of_repeat.
Qed.

(** X26.  Sentiment by subreddit: after any sequence of analysis calls,
    the result has exactly one entry for each subreddit of an analysed
    post or comment, names in ascending order; the three counts of an
    entry add up to the number of analysed posts and comments of that
    subreddit, which is at least one. *)
Theorem sentiment_by_subreddit_entries (textblob : string -> option (Q * Q))
    (posts : list PostInfo) (comments : list CommentInfo)
    (calls : list Call) :
  let s := after_calls textblob calls
             (new_sentiment_analyzer posts comments) in
  let result := get_sentiment_by_subreddit s in
  (forall subreddit d,
     In (subreddit, d) result ->
     (positive_count d + neutral_count d + negative_count d
      = occurrences String.eqb subreddit (map fst (sentiment_rows s)))%nat
     /\ (1 <= occurrences String.eqb subreddit
                (map fst (sentiment_rows s)))%nat)
  /\ (forall subreddit,
        In subreddit (map fst result)
        <-> In subreddit (map fst (sentiment_rows s)))
  /\ NoDup (map fst result)
  /\ StronglySorted (fun x y => String.leb x y = true) (map fst result).
Proof.
  cbv zeta.
  set (s := after_calls textblob calls
              (new_sentiment_analyzer posts comments)).
  destruct (after_calls_labels textblob calls posts comments) as (Hp & Hc).
  fold s in Hp, Hc.
  pose proof (sentiment_rows_labels s Hp Hc) as Hrows.
  destruct (Counter_keys String.eqb string_eqb_spec
              (map fst (sentiment_rows s))) as (Hnd & Hkeys).
  assert (Hperm : Permutation
            (map fst (get_sentiment_by_subreddit s))
            (map fst (Counter String.eqb (map fst (sentiment_rows s))))).
  { rewrite by_subreddit_keys. apply Permutation_map, stable_sort_perm. }
  assert (Hin : forall subreddit,
            In subreddit (map fst (get_sentiment_by_subreddit s))
            <-> In subreddit (map fst (sentiment_rows s))).
  { intro subreddit. rewrite <- Hkeys. split; apply Permutation_in;
      [exact Hperm|symmetry; exact Hperm]. }
  repeat apply conj.
  - intros subreddit d Hd.
    assert (Hsub : In subreddit (map fst (sentiment_rows s))).
    { apply Hin. apply in_map_iff. now exists (subreddit, d). }
    unfold get_sentiment_by_subreddit in Hd.
    apply in_map_iff in Hd as (name & [= <- <-] & _).
    cbn [positive_count neutral_count negative_count].
    split; [now apply row_counts|].
    apply occurrences_positive; [apply String.eqb_refl|exact Hsub].
  - exact Hin.
  - eapply Permutation_NoDup; [symmetry; exact Hperm|exact Hnd].
  - rewrite by_subreddit_keys.
    pose proof (stable_sort_sorted by_name_asc
                  (fun x y => string_leb_total (fst x) (fst y))
                  (fun x y z => string_leb_trans (fst x) (fst y) (fst z))
                  (Counter String.eqb (map fst (sentiment_rows s)))) as Hs.
    induction Hs as [|x l Hl IH Hx]; cbn [map]; constructor; [exact IH|].
    apply Forall_map. exact Hx.
Qed.
